(** * kook.go: the webhook ingestion and dispatch pipeline

    A shallow embedding of [kook/webhook.go] (the second half of
    [src/kook/message.go]): transport decoding, payload decryption
    (AES-256-CBC with PKCS7), signal classification, verify-token
    authentication and fan-out to the registered event handlers.

    Go strings and byte slices are both sequences of 8-bit bytes and are
    modelled as [list byte].  Go's [(value, error)] returns are modelled
    by the [result] type below; a run-time panic is a third outcome. *)

From Stdlib Require Import ZArith List Bool Lia.
From Stdlib Require Import Strings.Byte.
From stdpp Require Import base option list gmap strings.

Local Open Scope Z_scope.

Set Warnings "-register-all".

(** ** Bytes *)

Abbreviation bytes := (list byte).

#[global] Instance byte_eq_decision : EqDecision byte := Byte.byte_eq_dec.

(** [int(b)] / [uint(b)] for a byte [b]. *)
Definition b2z (b : byte) : Z := Z.of_N (Byte.to_N b).

(** [byte(z)]: conversion of an integer to a byte keeps the low 8 bits. *)
Definition z2b (z : Z) : byte :=
  match Byte.of_N (Z.to_N (z mod 256)) with
  | Some b => b
  | None => x00
  end.

(** A Go string literal.  *)
Definition B (s : string) : bytes := String.list_byte_of_string s.

(** [len(s)] as a Go [int]. *)
Definition len {A} (l : list A) : Z := Z.of_nat (length l).

(** ** Results *)

(** The error values built by the package, one constructor per
    [fmt.Errorf] call site or per library failure that is passed on. *)
Inductive error :=
  | ErrGzip                                      (* gzip.NewReader / io.ReadAll *)
  | ErrZlib                                      (* zlib.NewReader / io.ReadAll *)
  | ErrUnsupportedContentEncoding (enc : bytes)  (* "不支持的Content-Encoding: %s" *)
  | ErrEncryptKeyMissing                         (* "Webhook消息已加密但未配置encryptKey" *)
  | ErrDecodeEncrypt                             (* "解码encrypt失败: %w" *)
  | ErrEncryptLength                             (* "encrypt内容长度异常" *)
  | ErrDecodeCipher                              (* "解码cipher失败: %w" *)
  | ErrCipherNotBlockMultiple                    (* "cipher长度不是BlockSize整数倍" *)
  | ErrAesKeySize                                (* aes.KeySizeError *)
  | ErrPKCS7Data                                 (* "无效的PKCS7数据" *)
  | ErrPKCS7Padding                              (* "无效的PKCS7填充" *)
  | ErrPKCS7PaddingByte                          (* "无效的PKCS7填充字节" *)
  | ErrParseMeta                                 (* "解析Webhook元数据失败: %w" *)
  | ErrVerifyToken                               (* "Webhook verify_token 不匹配" *)
  | ErrParseEvent.                               (* "解析事件失败: %w" *)

Inductive panic :=
  | PanicDivideByZero                            (* integer divide by zero *)
  | PanicNotFullBlocks.                          (* crypto/cipher: input not full blocks *)

Inductive result (A : Type) :=
  | Ok (a : A)
  | Err (e : error)
  | Panic (p : panic).
Arguments Ok {A} a.
Arguments Err {A} e.
Arguments Panic {A} p.

#[global] Instance result_ret : MRet result := fun A a => Ok a.

#[global] Instance result_bind : MBind result := fun A C k r =>
  match r with
  | Ok a => k a
  | Err e => Err e
  | Panic p => Panic p
  end.

Definition is_err {A} (r : result A) : Prop :=
  match r with Err _ => True | _ => False end.

(** ** The [strings] package

    The ASCII paths of [strings.TrimSpace], [strings.ToLower] and
    [strings.EqualFold] are written out as in the Go library.  Each of the
    three leaves its ASCII loop at the first byte [>= utf8.RuneSelf] and
    continues in a Unicode-table-driven routine; those routines, and the
    two decompressors, are the operations of [GoLibrary]. *)

Class GoLibrary := {
  (* gzip.NewReader(bytes.NewReader(body)) followed by io.ReadAll *)
  gzip_ReadAll : bytes -> option bytes;
  (* zlib.NewReader(bytes.NewReader(body)) followed by io.ReadAll *)
  zlib_ReadAll : bytes -> option bytes;
  (* strings.TrimFunc(s, unicode.IsSpace) *)
  TrimFunc_IsSpace : bytes -> bytes;
  (* strings.TrimRightFunc(s, unicode.IsSpace) *)
  TrimRightFunc_IsSpace : bytes -> bytes;
  (* strings.Map(unicode.ToLower, s) *)
  Map_ToLower : bytes -> bytes;
  (* the hasUnicode part of strings.EqualFold, on the two suffixes *)
  EqualFold_hasUnicode : bytes -> bytes -> bool
}.

Definition RuneSelf : Z := 128.

(** [asciiSpace]: tab, newline, vertical tab, form feed, carriage return,
    space. *)
Definition asciiSpace (c : byte) : bool :=
  let z := b2z c in
  (z =? 9) || (z =? 10) || (z =? 11) || (z =? 12) || (z =? 13) || (z =? 32).

(** One of the two scanning loops of [TrimSpace]: drops ASCII space from
    the front; the flag tells that a non-ASCII byte stopped the loop. *)
Fixpoint trimASCIISpace (s : bytes) : bytes * bool :=
  match s with
  | [] => ([], false)
  | c :: s' =>
      if RuneSelf <=? b2z c then (s, true)
      else if asciiSpace c then trimASCIISpace s'
      else (s, false)
  end.

Definition isUpperASCII (c : byte) : bool := (65 <=? b2z c) && (b2z c <=? 90).

Definition lowerASCII (c : byte) : byte :=
  if isUpperASCII c then z2b (b2z c + 32) else c.

Definition isASCII (s : bytes) : bool := forallb (fun c => b2z c <? RuneSelf) s.

Section Strings.
Context {lib : GoLibrary}.

Definition TrimSpace (s : bytes) : bytes :=
  let '(t, u) := trimASCIISpace s in
  if u then TrimFunc_IsSpace t
  else
    let '(r, u') := trimASCIISpace (rev t) in
    if u' then TrimRightFunc_IsSpace (rev r) else rev r.

Definition ToLower (s : bytes) : bytes :=
  if isASCII s then map lowerASCII s else Map_ToLower s.

Fixpoint EqualFold (s t : bytes) : bool :=
  match s, t with
  | [], [] => true
  | sr :: s', tr :: t' =>
      if RuneSelf <=? Z.lor (b2z sr) (b2z tr) then EqualFold_hasUnicode s t
      else if b2z tr =? b2z sr then EqualFold s' t'
      else
        let lo := Z.min (b2z sr) (b2z tr) in
        let hi := Z.max (b2z sr) (b2z tr) in
        if (65 <=? lo) && (lo <=? 90) && (hi =? lo + 32)
        then EqualFold s' t'
        else false
  | _, _ => false
  end.
End Strings.

(** ** Transport decoding *)

Section Transport.
Context {lib : GoLibrary}.

Definition decodeRequestBody (body encoding : bytes) : result bytes :=
  let e := ToLower (TrimSpace encoding) in
  if decide (e = B "" \/ e = B "identity") then Ok body
  else if decide (e = B "gzip") then
    match gzip_ReadAll body with
    | Some out => Ok out
    | None => Err ErrGzip
    end
  else if decide (e = B "deflate") then
    match zlib_ReadAll body with
    | Some out => Ok out
    | None => Err ErrZlib
    end
  else Err (ErrUnsupportedContentEncoding encoding).
End Transport.

(** ** [encoding/base64]: [StdEncoding.DecodeString]

    The standard alphabet with [=] padding, not strict: carriage returns
    and line feeds are skipped wherever they stand, the input is read in
    quanta of four characters, and a padded quantum must be the last. *)

Definition decodeMap (c : byte) : option Z :=
  let z := b2z c in
  if (65 <=? z) && (z <=? 90) then Some (z - 65)
  else if (97 <=? z) && (z <=? 122) then Some (z - 71)
  else if (48 <=? z) && (z <=? 57) then Some (z + 4)
  else if z =? 43 then Some 62
  else if z =? 47 then Some 63
  else None.

Definition padChar : byte := x3d.

Definition quantum (v0 v1 v2 v3 : Z) : Z :=
  Z.lor (Z.lor (Z.shiftl v0 18) (Z.shiftl v1 12)) (Z.lor (Z.shiftl v2 6) v3).

Fixpoint decodeQuanta (s : bytes) : option bytes :=
  match s with
  | [] => Some []
  | a :: b :: c :: d :: rest =>
      match decodeMap a, decodeMap b with
      | Some va, Some vb =>
          match decodeMap c, decodeMap d with
          | Some vc, Some vd =>
              let val := quantum va vb vc vd in
              out ← decodeQuanta rest;
              Some (z2b (Z.shiftr val 16) :: z2b (Z.shiftr val 8) :: z2b val :: out)
          | Some vc, None =>
              let val := quantum va vb vc 0 in
              if decide (d = padChar /\ rest = [])
              then Some [z2b (Z.shiftr val 16); z2b (Z.shiftr val 8)]
              else None
          | None, _ =>
              let val := quantum va vb 0 0 in
              if decide (c = padChar /\ d = padChar /\ rest = [])
              then Some [z2b (Z.shiftr val 16)]
              else None
          end
      | _, _ => None
      end
  | _ => None
  end.

Definition isNewline (c : byte) : bool := (b2z c =? 10) || (b2z c =? 13).

Definition base64_DecodeString (s : bytes) : option bytes :=
  decodeQuanta (filter (fun c => isNewline c = false) s).

(** ** [crypto/aes]: the inverse cipher of FIPS-197 *)

Module AES.
(** Arithmetic of GF(2^8) modulo x^8 + x^4 + x^3 + x + 1. *)
Definition xtime (a : Z) : Z :=
  let s := Z.land (Z.shiftl a 1) 255 in
  if Z.testbit a 7 then Z.lxor s 27 else s.

Fixpoint gmul_loop (n : nat) (a b : Z) : Z :=
  match n with
  | O => 0
  | S n' => Z.lxor (if Z.odd b then a else 0) (gmul_loop n' (xtime a) (Z.shiftr b 1))
  end.
Definition gmul (a b : Z) : Z := gmul_loop 8 a b.

(** The S-box is the affine image of the multiplicative inverse
    (FIPS-197, 5.1.1); both tables are computed once. *)
Fixpoint gpow (n : nat) (a : Z) : Z :=
  match n with O => 1 | S n' => gmul a (gpow n' a) end.
Definition ginv (a : Z) : Z := gpow 254 a.

Definition rotl8 (b : Z) (k : Z) : Z :=
  Z.land (Z.lor (Z.shiftl b k) (Z.shiftr b (8 - k))) 255.

Definition sbox_of (a : Z) : Z :=
  let b := ginv a in
  Z.lxor (Z.lxor (Z.lxor (Z.lxor (Z.lxor b (rotl8 b 1)) (rotl8 b 2)) (rotl8 b 3)) (rotl8 b 4)) 99.

Definition all_bytes : list Z := map Z.of_nat (seq 0 256).

Definition sbox : list Z := Eval vm_compute in map sbox_of all_bytes.

Definition find_index (y : Z) (l : list Z) : Z :=
  (fix go (l : list Z) (i : Z) :=
     match l with
     | [] => 0
     | x :: l' => if x =? y then i else go l' (i + 1)
     end) l 0.

Definition inv_sbox : list Z := Eval vm_compute in map (fun y => find_index y sbox) all_bytes.

Definition SubByte (a : Z) : Z := nth (Z.to_nat a) sbox 0.
Definition InvSubByte (a : Z) : Z := nth (Z.to_nat a) inv_sbox 0.

(** Key schedule (FIPS-197, 5.2) for Nk = 4, 6 or 8 words. *)
Definition word := list Z.

Definition xor_bytes (a b : list Z) : list Z :=
  map (fun p => Z.lxor (fst p) (snd p)) (combine a b).

Definition RotWord (w : word) : word :=
  match w with
  | a :: w' => w' ++ [a]
  | [] => []
  end.

Definition SubWord (w : word) : word := map SubByte w.

Fixpoint Rcon (i : nat) : Z :=
  match i with
  | O => 0
  | S O => 1
  | S i' => xtime (Rcon i')
  end.

Fixpoint chunks4 (n : nat) (l : list Z) : list word :=
  match n with
  | O => []
  | S n' => firstn 4 l :: chunks4 n' (skipn 4 l)
  end.

(** [ws] holds w[0..i-1]; [n] more words are appended. *)
Fixpoint expand (n : nat) (Nk : nat) (ws : list word) : list word :=
  match n with
  | O => ws
  | S n' =>
      let i := length ws in
      let temp := nth (i - 1) ws [] in
      let temp :=
        if (i mod Nk =? 0)%nat
        then xor_bytes (SubWord (RotWord temp)) [Rcon (i / Nk); 0; 0; 0]
        else if (6 <? Nk)%nat && (i mod Nk =? 4)%nat then SubWord temp
        else temp in
      expand n' Nk (ws ++ [xor_bytes (nth (i - Nk) ws []) temp])
  end.

Definition KeyExpansion (key : list Z) : list word :=
  let Nk := (length key / 4)%nat in
  expand (4 * (Nk + 7) - Nk) Nk (chunks4 Nk key).

Definition roundKey (w : list word) (r : nat) : list Z :=
  concat (firstn 4 (skipn (4 * r) w)).

(** The state is kept in input order: byte [r + 4c] is row [r], column [c]. *)
Definition InvShiftRows (s : list Z) : list Z :=
  map (fun i => let r := (i mod 4)%nat in let c := (i / 4)%nat in
                nth (4 * ((c + 4 - r) mod 4) + r) s 0) (seq 0 16).

Definition InvSubBytes (s : list Z) : list Z := map InvSubByte s.

Definition invMixColumn (a : list Z) : list Z :=
  match a with
  | [a0; a1; a2; a3] =>
      [ Z.lxor (Z.lxor (gmul a0 14) (gmul a1 11)) (Z.lxor (gmul a2 13) (gmul a3 9));
        Z.lxor (Z.lxor (gmul a0 9) (gmul a1 14)) (Z.lxor (gmul a2 11) (gmul a3 13));
        Z.lxor (Z.lxor (gmul a0 13) (gmul a1 9)) (Z.lxor (gmul a2 14) (gmul a3 11));
        Z.lxor (Z.lxor (gmul a0 11) (gmul a1 13)) (Z.lxor (gmul a2 9) (gmul a3 14)) ]
  | _ => a
  end.

Definition InvMixColumns (s : list Z) : list Z :=
  concat (map invMixColumn (chunks4 4 s)).

Fixpoint invRounds (w : list word) (r : nat) (s : list Z) : list Z :=
  match r with
  | O => s
  | S r' =>
      invRounds w r'
        (InvMixColumns (xor_bytes (InvSubBytes (InvShiftRows s)) (roundKey w r)))
  end.

(** InvCipher (FIPS-197, 5.3). *)
Definition InvCipher (key block : list Z) : list Z :=
  let w := KeyExpansion key in
  let Nr := (length key / 4 + 6)%nat in
  let s := xor_bytes block (roundKey w Nr) in
  let s := invRounds w (Nr - 1) s in
  xor_bytes (InvSubBytes (InvShiftRows s)) (roundKey w 0).
End AES.

(** ** [crypto/aes] and [crypto/cipher] as the package calls them *)

Definition aes_BlockSize : Z := 16.

(** [aes.NewCipher]: only keys of 16, 24 or 32 bytes make a block. *)
Definition aes_NewCipher (key : bytes) : result bytes :=
  if decide (len key = 16 \/ len key = 24 \/ len key = 32) then Ok key
  else Err ErrAesKeySize.

Definition decryptBlock (key : bytes) (block : bytes) : bytes :=
  map z2b (AES.InvCipher (map b2z key) (map b2z block)).

Definition xorBytes (a b : bytes) : bytes :=
  map (fun p => z2b (Z.lxor (b2z (fst p)) (b2z (snd p)))) (combine a b).

(** CBC decryption of whole blocks: [n] blocks of [src], [prev] being the
    preceding cipher block (the IV for the first). *)
Fixpoint cbcBlocks (n : nat) (key prev src : bytes) : bytes :=
  match n with
  | O => []
  | S n' =>
      let c := take 16 src in
      xorBytes (decryptBlock key c) prev ++ cbcBlocks n' key c (drop 16 src)
  end.

(** [cipher.NewCBCDecrypter(block, iv).CryptBlocks(dst, src)] with [dst] as
    long as [src]; the library panics on input that is not whole blocks. *)
Definition CryptBlocks (block iv src : bytes) : result bytes :=
  if decide (Z.rem (len src) aes_BlockSize = 0)
  then Ok (cbcBlocks (length src / 16) block iv src)
  else Panic PanicNotFullBlocks.

(** ** Payload decryption *)

(** [data[i]]; every use below is at an index within bounds. *)
Definition at_index (data : bytes) (i : Z) : byte := nth (Z.to_nat i) data x00.

(** The loop [for i := from; i < len(data); i++] of [pkcs7Unpad], [n]
    iterations from index [i]: [true] when no byte differs from [pad]. *)
Fixpoint padBytesOk (data : bytes) (pad : Z) (i : Z) (n : nat) : bool :=
  match n with
  | O => true
  | S n' =>
      if b2z (at_index data i) =? pad then padBytesOk data pad (i + 1) n'
      else false
  end.

Definition pkcs7Unpad (data : bytes) (blockSize : Z) : result bytes :=
  if len data =? 0 then Err ErrPKCS7Data
  else if blockSize =? 0 then Panic PanicDivideByZero
  else if negb (Z.rem (len data) blockSize =? 0) then Err ErrPKCS7Data
  else
    let pad := b2z (at_index data (len data - 1)) in
    if (pad =? 0) || (blockSize <? pad) || (len data <? pad)
    then Err ErrPKCS7Padding
    else if padBytesOk data pad (len data - pad) (Z.to_nat pad)
    then Ok (take (Z.to_nat (len data - pad)) data)
    else Err ErrPKCS7PaddingByte.

Definition decryptWebhookPayload (encrypted encryptKey : bytes) : result bytes :=
  if decide (encryptKey = []) then Err ErrEncryptKeyMissing
  else
    let keyBytes :=
      if len encryptKey <? 32 then encryptKey ++ replicate (32 - length encryptKey) x00
      else if 32 <? len encryptKey then take 32 encryptKey
      else encryptKey in
    match base64_DecodeString encrypted with
    | None => Err ErrDecodeEncrypt
    | Some payload =>
        if len payload <=? aes_BlockSize then Err ErrEncryptLength
        else
          let iv := take 16 payload in
          let cipherBase64 := drop 16 payload in
          match base64_DecodeString cipherBase64 with
          | None => Err ErrDecodeCipher
          | Some cipherText =>
              if negb (Z.rem (len cipherText) aes_BlockSize =? 0)
              then Err ErrCipherNotBlockMultiple
              else
                block ← aes_NewCipher keyBytes;
                plainText ← CryptBlocks block iv cipherText;
                pkcs7Unpad plainText aes_BlockSize
          end
    end.

(** ** [encoding/json]

    [json.Unmarshal] first checks that the whole input is one JSON text
    (RFC 8259, nesting at most 10000 deep) and then stores it into the
    target.  The text is parsed here into a tree; strings are unquoted as
    the library does it: escapes are resolved, and every byte that does not
    start a well-formed UTF-8 sequence becomes U+FFFD. *)

Inductive json :=
  | JNull
  | JBool (b : bool)
  | JNumber (lit : bytes)
  | JString (s : bytes)
  | JArray (vs : list json)
  | JObject (ms : list (bytes * json)).

Definition isSpace (c : byte) : bool :=
  let z := b2z c in (z =? 32) || (z =? 9) || (z =? 13) || (z =? 10).

Fixpoint skipSpace (s : bytes) : bytes :=
  match s with
  | c :: s' => if isSpace c then skipSpace s' else s
  | [] => []
  end.

Definition isDigit (c : byte) : bool := (48 <=? b2z c) && (b2z c <=? 57).

Definition hexVal (c : byte) : option Z :=
  let z := b2z c in
  if (48 <=? z) && (z <=? 57) then Some (z - 48)
  else if (97 <=? z) && (z <=? 102) then Some (z - 87)
  else if (65 <=? z) && (z <=? 70) then Some (z - 55)
  else None.

(** [getu4] on the four characters after a backslash-u. *)
Definition getu4 (h1 h2 h3 h4 : byte) : option Z :=
  a ← hexVal h1; b ← hexVal h2; c ← hexVal h3; d ← hexVal h4;
  Some (Z.lor (Z.lor (Z.shiftl a 12) (Z.shiftl b 8)) (Z.lor (Z.shiftl c 4) d)).

(** [utf8.EncodeRune]. *)
Definition EncodeRune (r : Z) : bytes :=
  if (0 <=? r) && (r <? 128) then [z2b r]
  else if (0 <=? r) && (r <? 2048) then
    [z2b (Z.lor 192 (Z.shiftr r 6)); z2b (Z.lor 128 (Z.land r 63))]
  else if (r <? 0) || (1114111 <? r) || ((55296 <=? r) && (r <=? 57343)) then
    [xef; xbf; xbd]
  else if r <? 65536 then
    [z2b (Z.lor 224 (Z.shiftr r 12));
     z2b (Z.lor 128 (Z.land (Z.shiftr r 6) 63));
     z2b (Z.lor 128 (Z.land r 63))]
  else
    [z2b (Z.lor 240 (Z.shiftr r 18));
     z2b (Z.lor 128 (Z.land (Z.shiftr r 12) 63));
     z2b (Z.lor 128 (Z.land (Z.shiftr r 6) 63));
     z2b (Z.lor 128 (Z.land r 63))].

Definition inRange (lo hi : Z) (c : byte) : bool := (lo <=? b2z c) && (b2z c <=? hi).

(** The number of bytes of the UTF-8 sequence that starts [s], or [0] when
    [utf8.DecodeRune] reports [RuneError] with width 1. *)
Definition runeWidth (s : bytes) : nat :=
  match s with
  | [] => 0
  | c0 :: t =>
      let z := b2z c0 in
      if z <? 128 then 1
      else if (194 <=? z) && (z <=? 223) then
        match t with
        | c1 :: _ => if inRange 128 191 c1 then 2 else 0
        | _ => 0
        end
      else if (224 <=? z) && (z <=? 239) then
        match t with
        | c1 :: c2 :: _ =>
            let lo := if z =? 224 then 160 else 128 in
            let hi := if z =? 237 then 159 else 191 in
            if inRange lo hi c1 && inRange 128 191 c2 then 3 else 0
        | _ => 0
        end
      else if (240 <=? z) && (z <=? 244) then
        match t with
        | c1 :: c2 :: c3 :: _ =>
            let lo := if z =? 240 then 144 else 128 in
            let hi := if z =? 244 then 143 else 191 in
            if inRange lo hi c1 && inRange 128 191 c2 && inRange 128 191 c3
            then 4 else 0
        | _ => 0
        end
      else 0
  end.

Definition simpleEscape (c : byte) : option byte :=
  let z := b2z c in
  if (z =? 34) || (z =? 92) || (z =? 47) then Some c
  else if z =? 98 then Some x08
  else if z =? 102 then Some x0c
  else if z =? 110 then Some x0a
  else if z =? 114 then Some x0d
  else if z =? 116 then Some x09
  else None.

(** The text after an opening quote, up to the closing one: the unquoted
    string and what follows.  [copy] counts the continuation bytes of a
    well-formed UTF-8 sequence that are still to be taken as they are. *)
Fixpoint parseString (copy : nat) (s : bytes) : option (bytes * bytes) :=
  match copy, s with
  | S copy', c :: s' =>
      '(str, rest) ← parseString copy' s'; Some (c :: str, rest)
  | S _, [] => None
  | O, [] => None
  | O, c :: s' =>
      let z := b2z c in
      if z =? 34 then Some ([], s')
      else if z <? 32 then None
      else if z =? 92 then
        match s' with
        | e :: s2 =>
            if b2z e =? 117 then
              match s2 with
              | h1 :: h2 :: h3 :: h4 :: s3 =>
                  rr ← getu4 h1 h2 h3 h4;
                  if (55296 <=? rr) && (rr <=? 57343) then
                    match s3 with
                    | b :: u :: g1 :: g2 :: g3 :: g4 :: s4 =>
                        match (if (b2z b =? 92) && (b2z u =? 117)
                               then getu4 g1 g2 g3 g4 else None) with
                        | Some rr1 =>
                            if (rr <? 56320) && (56320 <=? rr1) && (rr1 <=? 57343)
                            then
                              '(str, rest) ← parseString O s4;
                              Some (EncodeRune (65536 + Z.lor (Z.shiftl (rr - 55296) 10)
                                                            (rr1 - 56320)) ++ str, rest)
                            else
                              '(str, rest) ← parseString O s3;
                              Some (EncodeRune 65533 ++ str, rest)
                        | None =>
                            '(str, rest) ← parseString O s3;
                            Some (EncodeRune 65533 ++ str, rest)
                        end
                    | _ =>
                        '(str, rest) ← parseString O s3;
                        Some (EncodeRune 65533 ++ str, rest)
                    end
                  else
                    '(str, rest) ← parseString O s3;
                    Some (EncodeRune rr ++ str, rest)
              | _ => None
              end
            else
              d ← simpleEscape e;
              '(str, rest) ← parseString O s2;
              Some (d :: str, rest)
        | [] => None
        end
      else if z <? 128 then
        '(str, rest) ← parseString O s'; Some (c :: str, rest)
      else
        match runeWidth s with
        | O =>
            '(str, rest) ← parseString O s';
            Some (EncodeRune 65533 ++ str, rest)
        | S w =>
            '(str, rest) ← parseString w s'; Some (c :: str, rest)
        end
  end.

(** The longest run of digits at the head of [s]. *)
Fixpoint spanDigits (s : bytes) : bytes * bytes :=
  match s with
  | c :: s' =>
      if isDigit c then let '(ds, rest) := spanDigits s' in (c :: ds, rest)
      else ([], s)
  | [] => ([], [])
  end.

(** A number: an optional minus sign; a zero, or a non-zero digit and any
    digits; optionally a point and at least one digit; optionally an [e] or
    [E], an optional sign and at least one digit. *)
Definition parseNumber (s : bytes) : option (bytes * bytes) :=
  let '(sign, s1) :=
    match s with
    | c :: s' => if b2z c =? 45 then ([c], s') else ([], s)
    | [] => ([], s)
    end in
  '(int, s2) ←
    match s1 with
    | c :: s' =>
        if b2z c =? 48 then Some ([c], s')
        else if isDigit c then Some (spanDigits s1)
        else None
    | [] => None
    end;
  '(frac, s3) ←
    match s2 with
    | c :: s' =>
        if b2z c =? 46 then
          match spanDigits s' with
          | ([], _) => None
          | (ds, rest) => Some (c :: ds, rest)
          end
        else Some ([], s2)
    | [] => Some ([], s2)
    end;
  '(exp, s4) ←
    match s3 with
    | c :: s' =>
        if (b2z c =? 101) || (b2z c =? 69) then
          let '(sg, s'') :=
            match s' with
            | d :: t => if (b2z d =? 43) || (b2z d =? 45) then ([d], t) else ([], s')
            | [] => ([], s')
            end in
          match spanDigits s'' with
          | ([], _) => None
          | (ds, rest) => Some (c :: sg ++ ds, rest)
          end
        else Some ([], s3)
    | [] => Some ([], s3)
    end;
  Some (sign ++ int ++ frac ++ exp, s4).

Definition stripPrefix (p s : bytes) : option bytes :=
  if decide (take (length p) s = p) then Some (drop (length p) s) else None.

Definition maxNestingDepth : Z := 10000.

(** One value, after optional white space; [depth] counts the arrays and
    objects that are open. *)
Fixpoint parseValue (fuel : nat) (depth : Z) (s : bytes) : option (json * bytes) :=
  match fuel with
  | O => None
  | S fuel' =>
      match skipSpace s with
      | [] => None
      | c :: s' =>
          let z := b2z c in
          if z =? 123 then
            if maxNestingDepth <=? depth then None
            else
              match skipSpace s' with
              | c' :: r =>
                  if b2z c' =? 125 then Some (JObject [], r)
                  else '(ms, r') ← parseMembers fuel' (depth + 1) s'; Some (JObject ms, r')
              | [] => None
              end
          else if z =? 91 then
            if maxNestingDepth <=? depth then None
            else
              match skipSpace s' with
              | c' :: r =>
                  if b2z c' =? 93 then Some (JArray [], r)
                  else '(vs, r') ← parseElements fuel' (depth + 1) s'; Some (JArray vs, r')
              | [] => None
              end
          else if z =? 34 then
            '(str, r) ← parseString O s'; Some (JString str, r)
          else if z =? 116 then r ← stripPrefix (B "true") (c :: s'); Some (JBool true, r)
          else if z =? 102 then r ← stripPrefix (B "false") (c :: s'); Some (JBool false, r)
          else if z =? 110 then r ← stripPrefix (B "null") (c :: s'); Some (JNull, r)
          else '(lit, r) ← parseNumber (c :: s'); Some (JNumber lit, r)
      end
  end
with parseElements (fuel : nat) (depth : Z) (s : bytes) : option (list json * bytes) :=
  match fuel with
  | O => None
  | S fuel' =>
      '(v, r) ← parseValue fuel' depth s;
      match skipSpace r with
      | c :: r' =>
          if b2z c =? 44 then
            '(vs, r'') ← parseElements fuel' depth r'; Some (v :: vs, r'')
          else if b2z c =? 93 then Some ([v], r')
          else None
      | [] => None
      end
  end
with parseMembers (fuel : nat) (depth : Z) (s : bytes) : option (list (bytes * json) * bytes) :=
  match fuel with
  | O => None
  | S fuel' =>
      match skipSpace s with
      | q :: s1 =>
          if b2z q =? 34 then
            '(k, r) ← parseString O s1;
            match skipSpace r with
            | colon :: r1 =>
                if b2z colon =? 58 then
                  '(v, r2) ← parseValue fuel' depth r1;
                  match skipSpace r2 with
                  | c :: r3 =>
                      if b2z c =? 44 then
                        '(ms, r4) ← parseMembers fuel' depth r3; Some ((k, v) :: ms, r4)
                      else if b2z c =? 125 then Some ([(k, v)], r3)
                      else None
                  | [] => None
                  end
                else None
            | [] => None
            end
          else None
      | [] => None
      end
  end.

(** The whole input is one value between optional white space.  Each
    nested call is entered after at least one more byte has been read, so
    twice the length of the input is fuel enough. *)
Definition parseJSON (data : bytes) : option json :=
  '(v, rest) ← parseValue (2 * length data + 2) 0 data;
  match skipSpace rest with
  | [] => Some v
  | _ => None
  end.

(** Writes JSON text with apostrophes in place of the quotation marks. *)
Definition jsonText (s : string) : bytes :=
  map (fun c => if decide (c = x27) then x22 else c) (B s).

(** *** Storing a value into a Go variable

    [null] leaves a string or an integer as it is; a value of another
    kind is an [UnmarshalTypeError].  An [int] has 64 bits. *)

Definition storeString (v : json) (old : bytes) : option bytes :=
  match v with
  | JString s => Some s
  | JNull => Some old
  | _ => None
  end.

Definition digitsValue (ds : bytes) : Z :=
  fold_left (fun acc c => 10 * acc + (b2z c - 48)) ds 0.

(** [strconv.ParseInt(lit, 10, 64)] on a JSON number. *)
Definition parseInt (lit : bytes) : option Z :=
  let '(neg, ds) :=
    match lit with
    | c :: t => if b2z c =? 45 then (true, t) else (false, lit)
    | [] => (false, lit)
    end in
  if forallb isDigit ds && negb (bool_decide (ds = [])) then
    let n := if neg then - digitsValue ds else digitsValue ds in
    if (- 2 ^ 63 <=? n) && (n <? 2 ^ 63) then Some n else None
  else None.

Definition storeInt (v : json) (old : Z) : option Z :=
  match v with
  | JNumber lit => parseInt lit
  | JNull => Some old
  | _ => None
  end.

(** ** The data of the package *)

(** [json.RawMessage] keeps the text of a value to be decoded later; the
    value itself stands for its text here, and [None] for the empty
    message, which is not JSON. *)
Record WebhookMessage := {
  S_ : Z;                 (* S  int             `json:"s"`  *)
  D : option json;        (* D  json.RawMessage `json:"d"`  *)
  SN : Z                  (* SN int             `json:"sn"` *)
}.

Record encryptedWebhookMessage := {
  Encrypt : bytes         (* `json:"encrypt"` *)
}.

Record webhookPayloadMeta := {
  ChannelType : bytes;    (* `json:"channel_type"` *)
  VerifyToken : bytes;    (* `json:"verify_token"` *)
  Challenge : bytes       (* `json:"challenge"` *)
}.

(** Modelled from the spec: the declaration of [Event] is not among the
    sources.  The spec gives [Event: { type: int, content: string, raw
    fields... }]; the two named fields are the ones [handleEvent] reads. *)
Record Event := {
  Type_ : Z;              (* `json:"type"` *)
  Content : bytes         (* `json:"content"` *)
}.

(** Modelled from the spec: the constant [SignalEvent] is not among the
    sources.  It is the reserved event signal kind; the spec's concrete
    scenario sends a challenge, which only an event signal can carry, with
    [s] equal to 0. *)
Definition SignalEvent : Z := 0.

Section Unmarshal.
Context {lib : GoLibrary}.

(** The field a key names: the one spelled exactly like the key, or
    else the first one equal to it under case folding. *)
Definition findField (names : list bytes) (key : bytes) : option nat :=
  match list_find (fun n => n = key) names with
  | Some (i, _) => Some i
  | None => fst <$> list_find (fun n => EqualFold n key = true) names
  end.

(** Members are stored in order, a later one over an earlier one.  A
    member that does not fit its field is skipped and makes the call
    fail at the end. *)
Definition storeMembers {T} (names : list bytes)
    (store : nat -> json -> T -> option T)
    (ms : list (bytes * json)) (zero : T) : T * bool :=
  fold_left
    (fun '(t, ok) '(key, v) =>
       match findField names key with
       | Some i =>
           match store i v t with
           | Some t' => (t', ok)
           | None => (t, false)
           end
       | None => (t, ok)
       end) ms (zero, true).

(** [json.Unmarshal(data, &t)] for a struct [t] holding its zero value. *)
Definition unmarshalStruct {T} (names : list bytes)
    (store : nat -> json -> T -> option T) (zero : T) (v : json) : option T :=
  match v with
  | JObject ms =>
      let '(t, ok) := storeMembers names store ms zero in
      if ok then Some t else None
  | JNull => Some zero
  | _ => None
  end.

Definition storeWebhookMessage (i : nat) (v : json) (m : WebhookMessage)
    : option WebhookMessage :=
  match i with
  | 0%nat => s ← storeInt v (S_ m); Some {| S_ := s; D := D m; SN := SN m |}
  | 1%nat => Some {| S_ := S_ m; D := Some v; SN := SN m |}
  | _ => sn ← storeInt v (SN m); Some {| S_ := S_ m; D := D m; SN := sn |}
  end.

Definition Unmarshal_WebhookMessage (data : bytes) : option WebhookMessage :=
  v ← parseJSON data;
  unmarshalStruct [B "s"; B "d"; B "sn"] storeWebhookMessage
    {| S_ := 0; D := None; SN := 0 |} v.

Definition Unmarshal_encrypted (data : bytes) : option encryptedWebhookMessage :=
  v ← parseJSON data;
  unmarshalStruct [B "encrypt"]
    (fun _ v m => s ← storeString v (Encrypt m); Some {| Encrypt := s |})
    {| Encrypt := [] |} v.

Definition storeMeta (i : nat) (v : json) (m : webhookPayloadMeta)
    : option webhookPayloadMeta :=
  match i with
  | 0%nat =>
      s ← storeString v (ChannelType m);
      Some {| ChannelType := s; VerifyToken := VerifyToken m; Challenge := Challenge m |}
  | 1%nat =>
      s ← storeString v (VerifyToken m);
      Some {| ChannelType := ChannelType m; VerifyToken := s; Challenge := Challenge m |}
  | _ =>
      s ← storeString v (Challenge m);
      Some {| ChannelType := ChannelType m; VerifyToken := VerifyToken m; Challenge := s |}
  end.

(** [json.Unmarshal(msg.D, &meta)]. *)
Definition Unmarshal_meta (raw : option json) : option webhookPayloadMeta :=
  v ← raw;
  unmarshalStruct [B "channel_type"; B "verify_token"; B "challenge"] storeMeta
    {| ChannelType := []; VerifyToken := []; Challenge := [] |} v.

Definition storeEvent (i : nat) (v : json) (e : Event) : option Event :=
  match i with
  | 0%nat => t ← storeInt v (Type_ e); Some {| Type_ := t; Content := Content e |}
  | _ => c ← storeString v (Content e); Some {| Type_ := Type_ e; Content := c |}
  end.

(** [json.Unmarshal(msg.D, &event)]. *)
Definition Unmarshal_Event (raw : option json) : option Event :=
  v ← raw;
  unmarshalStruct [B "type"; B "content"] storeEvent
    {| Type_ := 0; Content := [] |} v.
End Unmarshal.

(** ** The handler registry *)

(** What a call [h(&event)] comes to: it does what can be seen from
    outside, one thing after another, until it returns or panics with a
    value. *)
Inductive outcome :=
  | Returns
  | Panics (v : bytes)
  | Does (e : bytes) (next : outcome).

(** Modelled from the spec: the declaration of [EventHandler] is not among
    the sources.  The spec has handlers as callback functions, and
    [handleEvent] calls one as [h(&event)]. *)
Definition EventHandler : Type := Event -> outcome.

(** The fields [client] (used for logging only) and [mu] are left out; the
    use of [mu] shows in the [action]s below. *)
Record WebhookHandler := {
  encryptKey : bytes;
  verifyToken : bytes;
  eventHandlers : gmap Z (list EventHandler)
}.

(** What a call does to the lock and to the scheduler, in program order. *)
Inductive action :=
  | Lock                                   (* wh.mu.Lock() *)
  | Unlock                                 (* wh.mu.Unlock() *)
  | RLock                                  (* wh.mu.RLock() *)
  | RUnlock                                (* wh.mu.RUnlock() *)
  | ReadHandlers (eventType : Z)           (* wh.eventHandlers[eventType] *)
  | WriteHandlers (eventType : Z)          (* wh.eventHandlers[eventType] = ... *)
  | Go (h : EventHandler) (ev : Event).    (* go func(h EventHandler) {...}(handler) *)

Definition NewWebhookHandler (encryptKey verifyToken : bytes) : WebhookHandler :=
  {| encryptKey := encryptKey; verifyToken := verifyToken; eventHandlers := ∅ |}.

(** Reading a Go map at a key it does not hold gives the zero value. *)
Definition handlersFor (wh : WebhookHandler) (eventType : Z) : list EventHandler :=
  default [] (eventHandlers wh !! eventType).

Definition OnEvent (wh : WebhookHandler) (eventType : Z) (handler : EventHandler)
    : WebhookHandler * list action :=
  ({| encryptKey := encryptKey wh;
      verifyToken := verifyToken wh;
      eventHandlers :=
        <[eventType := handlersFor wh eventType ++ [handler]]> (eventHandlers wh) |},
   [Lock; ReadHandlers eventType; WriteHandlers eventType; Unlock]).

(** ** The request handler *)

Record Request := {
  Method : bytes;
  ContentEncoding : bytes;       (* r.Header.Get("Content-Encoding") *)
  Body : option bytes            (* io.ReadAll(r.Body); [None] when it fails *)
}.

Inductive payload :=
  | Line (msg : bytes)           (* fmt.Fprintln(w, msg) *)
  | Encoded (v : json)           (* json.NewEncoder(w).Encode(v) *)
  | Written (b : bytes).         (* w.Write(b) *)

Record Response := {
  StatusCode : Z;
  ContentType : bytes;
  Payload : payload
}.

Definition http_Error (msg : bytes) (code : Z) : Response :=
  {| StatusCode := code;
     ContentType := B "text/plain; charset=utf-8";
     Payload := Line msg |}.

(** A request is answered, with the actions taken on the way; a panic
    would leave the handler without an answer. *)
Inductive served :=
  | Replied (resp : Response) (acts : list action)
  | Aborted (p : panic).

Section Handler.
Context {lib : GoLibrary}.

Definition tryDecryptBody (wh : WebhookHandler) (body : bytes) : result bytes :=
  match Unmarshal_encrypted body with
  | None => Ok body
  | Some encrypted =>
      if decide (Encrypt encrypted = []) then Ok body
      else decryptWebhookPayload (Encrypt encrypted) (encryptKey wh)
  end.

Definition handleEvent (wh : WebhookHandler) (msg : WebhookMessage)
    : option error * list action :=
  match Unmarshal_Event (D msg) with
  | None => (Some ErrParseEvent, [])
  | Some event =>
      let handlers := handlersFor wh (Type_ event) in
      (None,
       [RLock; ReadHandlers (Type_ event); RUnlock]
         ++ map (fun h => Go h event) handlers)
  end.

Definition handleMessage (wh : WebhookHandler) (msg : WebhookMessage)
    : result bytes * list action :=
  if decide (S_ msg <> SignalEvent) then (Ok [], [])
  else
    match Unmarshal_meta (D msg) with
    | None => (Err ErrParseMeta, [])
    | Some meta =>
        if decide (verifyToken wh <> [] /\ VerifyToken meta <> verifyToken wh)
        then (Err ErrVerifyToken, [])
        else if EqualFold (ChannelType meta) (B "WEBHOOK_CHALLENGE")
                && negb (bool_decide (Challenge meta = []))
        then (Ok (Challenge meta), [])
        else
          match handleEvent wh msg with
          | (Some e, acts) => (Err e, acts)
          | (None, acts) => (Ok [], acts)
          end
    end.

(** The end of [HandleRequest], from the call of [handleMessage] on. *)
Definition answer (res : result bytes * list action) : served :=
  match res with
  | (Panic p, _) => Aborted p
  | (Err _, acts) => Replied (http_Error (B "Unauthorized") 401) acts
  | (Ok challenge, acts) =>
      if decide (challenge <> [])
      then
        Replied
          {| StatusCode := 200;
             ContentType := B "application/json";
             Payload := Encoded (JObject [(B "challenge", JString challenge)]) |}
          acts
      else
        Replied
          {| StatusCode := 200;
             ContentType := B "application/json";
             Payload := Written (jsonText "{'code':0}") |}
          acts
  end.

Definition HandleRequest (wh : WebhookHandler) (r : Request) : served :=
  if decide (Method r <> B "POST")
  then Replied (http_Error (B "Method Not Allowed") 405) []
  else
    match Body r with
    | None => Replied (http_Error (B "Bad Request") 400) []
    | Some body =>
        match decodeRequestBody body (ContentEncoding r) with
        | Panic p => Aborted p
        | Err _ => Replied (http_Error (B "Bad Request") 400) []
        | Ok body =>
            match tryDecryptBody wh body with
            | Panic p => Aborted p
            | Err _ => Replied (http_Error (B "Bad Request") 400) []
            | Ok body =>
                match Unmarshal_WebhookMessage body with
                | None => Replied (http_Error (B "Bad Request") 400) []
                | Some msg => answer (handleMessage wh msg)
                end
            end
        end
    end.

(** The request is a POST whose body is read, decoded and decrypted, and
    parses as the envelope [msg]. *)
Definition delivers (wh : WebhookHandler) (r : Request) (msg : WebhookMessage) : Prop :=
  Method r = B "POST" /\
  exists raw decoded plain,
    Body r = Some raw /\
    decodeRequestBody raw (ContentEncoding r) = Ok decoded /\
    tryDecryptBody wh decoded = Ok plain /\
    Unmarshal_WebhookMessage plain = Some msg.
End Handler.

(** ** Goroutines

    Each [Go] action starts a goroutine that calls the handler under a
    deferred [recover].  The goroutines under way take their steps in
    whatever order the scheduler picks them.  A goroutine ends; or, had it
    no [recover], a panic in it would end the process, and what was still
    to run would not. *)
Inductive exit :=
  | Ended (logged : option bytes)   (* the value of a recovered panic is logged *)
  | Crashed (v : bytes).

(** [defer func() { if r := recover(); r != nil { ...Errorf(..., r) } }()]:
    it runs when the call is over; [r] is what [recover()] gives, the
    value of the panic when the call panicked. *)
Definition deferRecover (r : option bytes) : exit :=
  match r with
  | Some v => Ended (Some v)
  | None => Ended None
  end.

(** The body of the goroutine started by [Go h ev] is the call
    [h(&event)]. *)
Definition goroutine (h : EventHandler) (ev : Event) : outcome := h ev.

Definition spawned (acts : list action) : list (EventHandler * Event) :=
  omap (fun a => match a with Go h ev => Some (h, ev) | _ => None end) acts.

(** What is seen of the goroutines, numbered in the order they were
    started. *)
Inductive observation :=
  | Did (g : nat) (e : bytes)                  (* the call of [g] did [e] *)
  | Exited (g : nat) (logged : option bytes).  (* [g] ended *)

Definition goroutineOf (o : observation) : nat :=
  match o with
  | Did g _ | Exited g _ => g
  end.

(** The goroutines with what is left of their calls ([None] once ended),
    what was seen so far, and the panic that ended the process, if one
    did. *)
Record process := {
  running : list (option outcome);
  seen : list observation;
  down : option bytes
}.

Definition start (acts : list action) : process :=
  {| running := map (fun '(h, ev) => Some (goroutine h ev)) (spawned acts);
     seen := [];
     down := None |}.

(** Goroutine [g] leaves its call with [r] for [recover()]. *)
Definition leave (m : process) (g : nat) (r : option bytes) : process :=
  match deferRecover r with
  | Ended logged =>
      {| running := <[g := None]> (running m);
         seen := seen m ++ [Exited g logged];
         down := None |}
  | Crashed v => {| running := []; seen := seen m; down := Some v |}
  end.

(** The scheduler picks goroutine [g], which takes one step; a goroutine
    that has ended takes none, and none does once the process is down. *)
Definition step (m : process) (g : nat) : process :=
  match down m, running m !! g with
  | None, Some (Some (Does e next)) =>
      {| running := <[g := Some next]> (running m);
         seen := seen m ++ [Did g e];
         down := None |}
  | None, Some (Some Returns) => leave m g None
  | None, Some (Some (Panics v)) => leave m g (Some v)
  | _, _ => m
  end.

Definition run (picks : list nat) (m : process) : process := foldl step m picks.

Definition ended (t : option outcome) : bool :=
  match t with
  | None => true
  | Some _ => false
  end.

Definition allEnded (m : process) : bool := forallb ended (running m).

(** What goroutine [g] shows of itself in [obs]. *)
Definition seenOf (g : nat) (obs : list observation) : list observation :=
  filter (fun o => goroutineOf o = g) obs.

(** What a call that has [o] to do shows when goroutine [g] makes it under
    a [recover] that logs and ends the panic. *)
Fixpoint callTrace (g : nat) (o : outcome) : list observation :=
  match o with
  | Returns => [Exited g None]
  | Panics v => [Exited g (Some v)]
  | Does e next => Did g e :: callTrace g next
  end.

(** What goroutine [g] has still to show. *)
Definition rest (g : nat) (m : process) : list observation :=
  match running m !! g with
  | Some (Some o) => callTrace g o
  | _ => []
  end.

(** The steps the goroutines have still to take. *)
Fixpoint stepsOf (o : outcome) : nat :=
  match o with
  | Does _ next => S (stepsOf next)
  | _ => 1%nat
  end.

Definition stepsLeft (ts : list (option outcome)) : nat :=
  foldr (fun t n => (from_option stepsOf 0 t + n)%nat) 0%nat ts.

(** The use one call makes of [mu], from [r] read locks and the write
    lock ([w]) it holds: the registry is read under a lock and written
    under the write lock, a goroutine is started with no lock held, and in
    the end every lock taken is given back. *)
Fixpoint disciplined (r : Z) (w : bool) (acts : list action) : bool :=
  match acts with
  | [] => (r =? 0) && negb w
  | Lock :: rest => (r =? 0) && negb w && disciplined r true rest
  | Unlock :: rest => w && disciplined r false rest
  | RLock :: rest => negb w && disciplined (r + 1) w rest
  | RUnlock :: rest => (0 <? r) && disciplined (r - 1) w rest
  | ReadHandlers _ :: rest => ((0 <? r) || w) && disciplined r w rest
  | WriteHandlers _ :: rest => w && disciplined r w rest
  | Go _ _ :: rest => (r =? 0) && negb w && disciplined r w rest
  end.

(** An instance for running the pipeline on requests that stay on the
    ASCII paths and carry no compressed body: the decompressors refuse
    every stream and the Unicode routines are never reached. *)
Definition asciiLibrary : GoLibrary :=
  {| gzip_ReadAll := fun _ => None;
     zlib_ReadAll := fun _ => None;
     TrimFunc_IsSpace := fun s => s;
     TrimRightFunc_IsSpace := fun s => s;
     Map_ToLower := fun s => s;
     EqualFold_hasUnicode := fun _ _ => false |}.

(** ** Sample data *)

Definition post (body : bytes) : Request :=
  {| Method := B "POST"; ContentEncoding := []; Body := Some body |}.

Definition ok200 (p : payload) : Response :=
  {| StatusCode := 200; ContentType := B "application/json"; Payload := p |}.

(** The body of the spec's concrete scenario. *)
Definition challengeBody : bytes :=
  jsonText "{'s':0,'d':{'channel_type':'WEBHOOK_CHALLENGE','verify_token':'t1','challenge':'abc123'}}".

Definition challengeMeta : webhookPayloadMeta :=
  {| ChannelType := B "WEBHOOK_CHALLENGE"; VerifyToken := B "t1"; Challenge := B "abc123" |}.

Definition challengeMessage : WebhookMessage :=
  {| S_ := 0;
     D := Some (JObject [(B "channel_type", JString (B "WEBHOOK_CHALLENGE"));
                         (B "verify_token", JString (B "t1"));
                         (B "challenge", JString (B "abc123"))]);
     SN := 0 |}.

(** The values of [Content-Encoding] that [decodeRequestBody] knows, as
    they stand after trimming and lowering. *)
Definition supportedEncoding (e : bytes) : Prop :=
  e = B "" \/ e = B "identity" \/ e = B "gzip" \/ e = B "deflate".

(** The key as the spec words it: zero-padded on the right when shorter
    than 32 bytes, cut to its first 32 bytes when longer. *)
Definition normalize32 (key : bytes) : bytes :=
  take 32 (key ++ replicate 32 x00).

(** The failures of decryption as the spec lists them, each under the
    condition that the checks before it have passed. *)
Inductive decryptFailure (encrypted key : bytes) : error -> Prop :=
  | NoKey :
      key = [] ->
      decryptFailure encrypted key ErrEncryptKeyMissing
  | OuterBase64 :
      key <> [] ->
      base64_DecodeString encrypted = None ->
      decryptFailure encrypted key ErrDecodeEncrypt
  | ShortPayload payload :
      key <> [] ->
      base64_DecodeString encrypted = Some payload ->
      len payload <= 16 ->
      decryptFailure encrypted key ErrEncryptLength
  | InnerBase64 payload :
      key <> [] ->
      base64_DecodeString encrypted = Some payload ->
      16 < len payload ->
      base64_DecodeString (drop 16 payload) = None ->
      decryptFailure encrypted key ErrDecodeCipher
  | Misaligned payload cipherText :
      key <> [] ->
      base64_DecodeString encrypted = Some payload ->
      16 < len payload ->
      base64_DecodeString (drop 16 payload) = Some cipherText ->
      Z.rem (len cipherText) 16 <> 0 ->
      decryptFailure encrypted key ErrCipherNotBlockMultiple
  | BadPadding payload cipherText plainText e :
      key <> [] ->
      base64_DecodeString encrypted = Some payload ->
      16 < len payload ->
      base64_DecodeString (drop 16 payload) = Some cipherText ->
      Z.rem (len cipherText) 16 = 0 ->
      CryptBlocks (normalize32 key) (take 16 payload) cipherText = Ok plainText ->
      pkcs7Unpad plainText 16 = Err e ->
      decryptFailure encrypted key e.

(** An encrypted payload: the outer base64 of a 16-byte IV followed by the
    base64 of one cipher block of sixteen zero bytes.  Under the key of 32
    zero bytes the block decrypts, with this IV, to [{"s":1}] and nine
    bytes of padding. *)
Definition sampleEncrypted : bytes :=
  B "HEVvw8CgoOIGhrK6b7w4vUFBQUFBQUFBQUFBQUFBQUFBQUFBQUE9PQ==".

Definition sampleIV : bytes :=
  map z2b [0x1c; 0x45; 0x6f; 0xc3; 0xc0; 0xa0; 0xa0; 0xe2;
           0x06; 0x86; 0xb2; 0xba; 0x6f; 0xbc; 0x38; 0xbd].

(** The same for the key [secret]: under it, padded with zero bytes to 32,
    the zero block decrypts with this IV to [{"s":1}] and its padding. *)
Definition secretEncrypted : bytes :=
  B "EewmCQ0f9iGnvbdVogEE1EFBQUFBQUFBQUFBQUFBQUFBQUFBQUE9PQ==".

(** The plaintext of [sampleEncrypted] under the key of 32 zero bytes,
    padding included. *)
Definition samplePadded : bytes := jsonText "{'s':1}" ++ replicate 9 x09.

(** An event of type 5 and two handlers for it. *)
Definition eventBody : bytes :=
  jsonText "{'s':0,'d':{'type':5,'content':'hi','verify_token':'t1'}}".

Definition eventMessage : WebhookMessage :=
  {| S_ := 0;
     D := Some (JObject [(B "type", JNumber (B "5"));
                         (B "content", JString (B "hi"));
                         (B "verify_token", JString (B "t1"))]);
     SN := 0 |}.

Definition eventMeta : webhookPayloadMeta :=
  {| ChannelType := []; VerifyToken := B "t1"; Challenge := [] |}.

Definition event5 : Event := {| Type_ := 5; Content := B "hi" |}.

Definition failingHandler : EventHandler := fun _ => Panics (B "boom").

Definition quietHandler : EventHandler := fun _ => Returns.

Definition twoHandlers : WebhookHandler :=
  fst (OnEvent (fst (OnEvent (NewWebhookHandler [] []) 5 failingHandler)) 5 quietHandler).

(** A handler that panics half way, and one that does two things and
    returns. *)
Definition brokenHandler : EventHandler :=
  fun ev => Does (B "got " ++ Content ev) (Panics (B "boom")).

Definition busyHandler : EventHandler :=
  fun ev => Does (B "saw " ++ Content ev) (Does (B "done") Returns).

Definition busyHandlers : WebhookHandler :=
  fst (OnEvent (fst (OnEvent (NewWebhookHandler [] []) 5 brokenHandler)) 5 busyHandler).

(** ** Reading an answer *)

(** What was written to the response writer, when the handler got that
    far. *)
Definition responseOf (s : served) : option Response :=
  match s with
  | Replied resp _ => Some resp
  | Aborted _ => None
  end.

Definition actionsOf (s : served) : list action :=
  match s with
  | Replied _ acts => acts
  | Aborted _ => []
  end.

(** A run of calls of [OnEvent], in call order. *)
Definition registerAll (wh : WebhookHandler) (regs : list (Z * EventHandler))
    : WebhookHandler :=
  foldl (fun wh '(t, h) => fst (OnEvent wh t h)) wh regs.

(** The handlers that [regs] registers for [eventType], in call order. *)
Definition registeredFor (eventType : Z) (regs : list (Z * EventHandler))
    : list EventHandler :=
  map snd (filter (fun reg => fst reg = eventType) regs).

(** The same handler with no verify token configured. *)
Definition withoutToken (wh : WebhookHandler) : WebhookHandler :=
  {| encryptKey := encryptKey wh; verifyToken := []; eventHandlers := eventHandlers wh |}.

(** A request body that wraps [encrypted] in an encryption envelope. *)
Definition envelopeOf (encrypted : string) : bytes :=
  jsonText "{'encrypt':'" ++ B encrypted ++ jsonText "'}".

(** Registrations for two event types, mixed. *)
Definition mixedRegistrations : list (Z * EventHandler) :=
  [(5, failingHandler); (7, quietHandler); (5, quietHandler)].

(** The key of 32 zero bytes. *)
Definition zeroKey : bytes := replicate 32 x00.

(** ** The message service ([kook/message.go])

    The service methods check their arguments, build the parameters of one
    API call, hand them to the client and decode the reply.  The client
    and the declarations of [types.go] that the methods use are not among
    the sources: they are the operations of [Client] and [Declarations]. *)

#[global] Instance byte_countable : Countable byte :=
  inj_countable Byte.to_N Byte.of_N Byte.of_to_N.

Module MessageService.

(** A value of a [map[string]interface{}] built by the service: a string
    or an [int]. *)
Inductive paramValue :=
  | PStr (s : bytes)
  | PInt (n : Z).

(** [s.client.Post(ctx, endpoint, params)] and [s.client.Get(ctx, endpoint,
    query)]: the client's error, or [resp.Data]. *)
Class Client := {
  Post : bytes -> gmap bytes paramValue -> bytes + bytes;
  Get : bytes -> gmap bytes bytes -> bytes + bytes
}.

Class Declarations := {
  MessageTypeText : Z;
  MessageTypeKMD : Z;
  MessageTypeCard : Z;
  Message : Type;
  (* &Message{ID: id, Type: t, Content: c, CreateAt: at} *)
  newMessage : bytes -> Z -> bytes -> Z -> Message;
  ListMessagesResponse : Type;
  (* json.Unmarshal(data, &result) for a ListMessagesResponse *)
  Unmarshal_ListMessagesResponse : bytes -> option ListMessagesResponse
}.

Inductive serviceError :=
  | ErrClient (e : bytes)              (* the client's error, passed on *)
  | ErrInvalidScope (scope : bytes)    (* "无效消息作用域: %s（可选: channel/private）" *)
  | ErrPrivateTarget                   (* "私聊消息必须提供目标ID或会话Code" *)
  | ErrChannelTarget                   (* "频道消息目标ID不能为空" *)
  | ErrContentEmpty                    (* "消息内容不能为空" *)
  | ErrCardNotArray                    (* "卡片消息 content 必须是 JSON 数组字符串: %w" *)
  | ErrCardEmpty                       (* "卡片消息至少包含一个 card" *)
  | ErrParseMessage                    (* "解析消息失败: %w" *)
  | ErrListPrivateTarget               (* "私聊消息列表必须提供目标ID或会话Code" *)
  | ErrListChannelTarget               (* "频道消息列表目标ID不能为空" *)
  | ErrParseMessageList                (* "解析消息列表失败: %w" *)
  | ErrMsgIDEmpty                      (* "消息ID不能为空" *)
  | ErrPinTarget                       (* "置顶消息需要目标ID（频道ID或私聊目标ID）" *)
  | ErrUnpinTarget.                    (* "取消置顶消息需要目标ID（频道ID或私聊目标ID）" *)

Inductive returned (A : Type) :=
  | Value (a : A)
  | Failure (e : serviceError).
Arguments Value {A} a.
Arguments Failure {A} e.

#[global] Instance returned_bind : MBind returned := fun A C k r =>
  match r with
  | Value a => k a
  | Failure e => Failure e
  end.

(** [if err := f(); err != nil { return nil, err }]. *)
Definition check {A} (err : option serviceError) (k : returned A) : returned A :=
  match err with
  | Some e => Failure e
  | None => k
  end.

Record SendMessageParams := {
  Type_ : bytes;          (* Type: private or channel *)
  TargetID : bytes;
  ChatCode : bytes;
  Content : bytes;
  MsgType : Z;
  Quote : bytes;
  Nonce : bytes;
  TempTargetID : bytes;
  TemplateID : bytes;
  ReplyMsgID : bytes
}.

Record GetMessageListParams := {
  ListType : bytes;       (* Type *)
  ListChatCode : bytes;   (* ChatCode *)
  MsgID : bytes;
  Pin : Z;
  Flag : bytes;
  PageSize : Z
}.

(** The reply to a create call, as [SendMessage] declares it. *)
Record created := {
  CreatedMsgID : bytes;        (* MsgID        string `json:"msg_id"` *)
  MsgTimestamp : Z;            (* MsgTimestamp int64  `json:"msg_timestamp"` *)
  CreatedNonce : bytes         (* Nonce        string `json:"nonce"` *)
}.

(** [if v != "" { m[k] = v }]. *)
Definition setStr (k v : bytes) (m : gmap bytes paramValue) : gmap bytes paramValue :=
  if decide (v = []) then m else <[k := PStr v]> m.

Definition setQuery (k v : bytes) (m : gmap bytes bytes) : gmap bytes bytes :=
  if decide (v = []) then m else <[k := v]> m.

(** [strconv.Itoa]: [n] more digits of [v] in front of [acc]. *)
Fixpoint digitsOf (n : nat) (v : Z) (acc : bytes) : bytes :=
  match n with
  | O => acc
  | S n' =>
      let acc' := z2b (48 + v mod 10) :: acc in
      if v <? 10 then acc' else digitsOf n' (v / 10) acc'
  end.

Definition Itoa (v : Z) : bytes :=
  if v <? 0 then x2d :: digitsOf (S (Z.to_nat (Z.log2 (- v)))) (- v) []
  else digitsOf (S (Z.to_nat (Z.log2 v))) v [].

Section Service.
Context {lib : GoLibrary} {decls : Declarations} {client : Client}.

Definition normalizeMessageScope (scope : bytes) : returned bytes :=
  let s := ToLower (TrimSpace scope) in
  if decide (s = B "" \/ s = B "channel" \/ s = B "guild") then Value (B "channel")
  else if decide (s = B "private" \/ s = B "direct" \/ s = B "dm") then Value (B "private")
  else Failure (ErrInvalidScope scope).

(** [json.Unmarshal(data, &cards)] for [cards] of type [[]json.RawMessage]:
    an array gives its elements, [null] the nil slice. *)
Definition Unmarshal_rawSlice (data : bytes) : option (list json) :=
  v ← parseJSON data;
  match v with
  | JArray vs => Some vs
  | JNull => Some []
  | _ => None
  end.

Definition validateCardContent (content : bytes) : option serviceError :=
  match Unmarshal_rawSlice content with
  | None => Some ErrCardNotArray
  | Some cards => if len cards =? 0 then Some ErrCardEmpty else None
  end.

Definition storeCreated (i : nat) (v : json) (c : created) : option created :=
  match i with
  | 0%nat =>
      s ← storeString v (CreatedMsgID c);
      Some {| CreatedMsgID := s; MsgTimestamp := MsgTimestamp c; CreatedNonce := CreatedNonce c |}
  | 1%nat =>
      t ← storeInt v (MsgTimestamp c);
      Some {| CreatedMsgID := CreatedMsgID c; MsgTimestamp := t; CreatedNonce := CreatedNonce c |}
  | _ =>
      s ← storeString v (CreatedNonce c);
      Some {| CreatedMsgID := CreatedMsgID c; MsgTimestamp := MsgTimestamp c; CreatedNonce := s |}
  end.

Definition Unmarshal_created (data : bytes) : option created :=
  v ← parseJSON data;
  unmarshalStruct [B "msg_id"; B "msg_timestamp"; B "nonce"] storeCreated
    {| CreatedMsgID := []; MsgTimestamp := 0; CreatedNonce := [] |} v.

Definition SendMessage (params : SendMessageParams) : returned Message :=
  scope ← normalizeMessageScope (Type_ params);
  '(endpoint, requestParams) ←
    (if decide (scope = B "private") then
       if decide (TargetID params = [] /\ ChatCode params = [])
       then Failure ErrPrivateTarget
       else Value (B "direct-message/create",
                   setStr (B "chat_code") (ChatCode params)
                     (setStr (B "target_id") (TargetID params) ∅))
     else
       if decide (TargetID params = []) then Failure ErrChannelTarget
       else Value (B "message/create",
                   <[B "target_id" := PStr (TargetID params)]> ∅));
  if decide (Content params = []) then Failure ErrContentEmpty
  else
    let requestParams := <[B "content" := PStr (Content params)]> requestParams in
    let msgType :=
      if MsgType params <=? 0 then
        if decide (scope = B "private") then MessageTypeText else MessageTypeKMD
      else MsgType params in
    check (if decide (msgType = MessageTypeCard)
           then validateCardContent (Content params) else None)
      (let requestParams := <[B "type" := PInt msgType]> requestParams in
       let requestParams := setStr (B "quote") (Quote params) requestParams in
       let requestParams := setStr (B "nonce") (Nonce params) requestParams in
       let requestParams := setStr (B "temp_target_id") (TempTargetID params) requestParams in
       let requestParams := setStr (B "template_id") (TemplateID params) requestParams in
       let requestParams := setStr (B "reply_msg_id") (ReplyMsgID params) requestParams in
       match Post endpoint requestParams with
       | inl e => Failure (ErrClient e)
       | inr data =>
           match Unmarshal_created data with
           | None => Failure ErrParseMessage
           | Some c =>
               Value (newMessage (CreatedMsgID c) msgType (Content params) (MsgTimestamp c))
           end
       end).

Definition withMsgType (params : SendMessageParams) (t : Z) : SendMessageParams :=
  {| Type_ := Type_ params; TargetID := TargetID params; ChatCode := ChatCode params;
     Content := Content params; MsgType := t; Quote := Quote params;
     Nonce := Nonce params; TempTargetID := TempTargetID params;
     TemplateID := TemplateID params; ReplyMsgID := ReplyMsgID params |}.

Definition SendCardMessage (params : SendMessageParams) : returned Message :=
  check (validateCardContent (Content params))
    (SendMessage (withMsgType params MessageTypeCard)).

Definition GetMessageList (targetID : bytes) (params : GetMessageListParams)
    : returned ListMessagesResponse :=
  scope ← normalizeMessageScope (ListType params);
  '(endpoint, query) ←
    (if decide (scope = B "private") then
       if decide (targetID = [] /\ ListChatCode params = [])
       then Failure ErrListPrivateTarget
       else Value (B "direct-message/list",
                   setQuery (B "chat_code") (ListChatCode params)
                     (setQuery (B "target_id") targetID ∅))
     else
       if decide (targetID = []) then Failure ErrListChannelTarget
       else Value (B "message/list", <[B "target_id" := targetID]> ∅));
  let query := setQuery (B "msg_id") (MsgID params) query in
  let query := if 0 <? Pin params then <[B "pin" := Itoa (Pin params)]> query else query in
  let query := setQuery (B "flag") (Flag params) query in
  let query :=
    if (0 <? PageSize params) && (PageSize params <=? 100)
    then <[B "page_size" := Itoa (PageSize params)]> query else query in
  match Get endpoint query with
  | inl e => Failure (ErrClient e)
  | inr data =>
      match Unmarshal_ListMessagesResponse data with
      | None => Failure ErrParseMessageList
      | Some result => Value result
      end
  end.

(** [_, err := s.client.Post(ctx, endpoint, params); return err]. *)
Definition postOnly (endpoint : bytes) (params : gmap bytes paramValue)
    : option serviceError :=
  match Post endpoint params with
  | inl e => Some (ErrClient e)
  | inr _ => None
  end.

(** [targetID] is the variadic parameter, a slice. *)
Definition PinMessage (msgID : bytes) (targetID : list bytes) : option serviceError :=
  if decide (msgID = []) then Some ErrMsgIDEmpty
  else
    match targetID with
    | [] => Some ErrPinTarget
    | t :: _ =>
        if decide (TrimSpace t = []) then Some ErrPinTarget
        else
          postOnly (B "message/pin")
            (<[B "target_id" := PStr (TrimSpace t)]> (<[B "msg_id" := PStr msgID]> ∅))
    end.

Definition UnpinMessage (msgID : bytes) (targetID : list bytes) : option serviceError :=
  if decide (msgID = []) then Some ErrMsgIDEmpty
  else
    match targetID with
    | [] => Some ErrUnpinTarget
    | t :: _ =>
        if decide (TrimSpace t = []) then Some ErrUnpinTarget
        else
          postOnly (B "message/unpin")
            (<[B "target_id" := PStr (TrimSpace t)]> (<[B "msg_id" := PStr msgID]> ∅))
    end.
End Service.

(** The [SendMessageParams] with another [Type]. *)
Definition withScope (params : SendMessageParams) (scope : bytes) : SendMessageParams :=
  {| Type_ := scope; TargetID := TargetID params; ChatCode := ChatCode params;
     Content := Content params; MsgType := MsgType params; Quote := Quote params;
     Nonce := Nonce params; TempTargetID := TempTargetID params;
     TemplateID := TemplateID params; ReplyMsgID := ReplyMsgID params |}.

End MessageService.

(** A text cleared of white space at both ends: [t] is [s] without a run
    of ASCII white space in front and one behind, and neither starts nor
    ends with one. *)
Definition trimmedOf (s t : bytes) : Prop :=
  (exists pre post,
     s = pre ++ t ++ post /\
     forallb asciiSpace pre = true /\ forallb asciiSpace post = true) /\
  (forall c, head t = Some c -> asciiSpace c = false) /\
  (forall c, last t = Some c -> asciiSpace c = false).

(** Instances for running the message service: the message types as the
    comment on [SendMessageParams] numbers them (1 text, 9 KMarkdown, 10
    card), a message as the four fields [SendMessage] sets, and a client
    that answers every call with the same reply. *)
Definition sampleDeclarations : MessageService.Declarations :=
  {| MessageService.MessageTypeText := 1;
     MessageService.MessageTypeKMD := 9;
     MessageService.MessageTypeCard := 10;
     MessageService.Message := (bytes * Z * bytes * Z)%type;
     MessageService.newMessage := fun id t c at_ => (id, t, c, at_);
     MessageService.ListMessagesResponse := bytes;
     MessageService.Unmarshal_ListMessagesResponse := fun data => Some data |}.

Definition sampleClient : MessageService.Client :=
  {| MessageService.Post := fun _ _ =>
       inr (jsonText "{'msg_id':'m1','msg_timestamp':1700000000000,'nonce':'n1'}");
     MessageService.Get := fun _ _ => inr (jsonText "{'items':[]}") |}.

(** A private message, its scope spelled [ DM ]. *)
Definition dmParams : MessageService.SendMessageParams :=
  {| MessageService.Type_ := B " DM ";
     MessageService.TargetID := B "u1";
     MessageService.ChatCode := [];
     MessageService.Content := B "hi";
     MessageService.MsgType := 0;
     MessageService.Quote := [];
     MessageService.Nonce := [];
     MessageService.TempTargetID := [];
     MessageService.TemplateID := [];
     MessageService.ReplyMsgID := [] |}.

(** A card for a channel. *)
Definition cardParams : MessageService.SendMessageParams :=
  {| MessageService.Type_ := [];
     MessageService.TargetID := B "c1";
     MessageService.ChatCode := [];
     MessageService.Content := jsonText "[{'type':'card'}]";
     MessageService.MsgType := 0;
     MessageService.Quote := [];
     MessageService.Nonce := [];
     MessageService.TempTargetID := [];
     MessageService.TemplateID := [];
     MessageService.ReplyMsgID := [] |}.

(* ================================================================== *)
(** * Properties *)

(** ** Checks of the library models against published values *)

(** FIPS-197, appendix C: the example vectors of AES-128, AES-192 and
    AES-256 decrypt to 00 11 22 ... ff. *)
Example InvCipher_fips197 :
  let plain := map (fun i => 17 * Z.of_nat i) (seq 0 16) in
  AES.InvCipher (map Z.of_nat (seq 0 16))
    [0x69; 0xc4; 0xe0; 0xd8; 0x6a; 0x7b; 0x04; 0x30;
     0xd8; 0xcd; 0xb7; 0x80; 0x70; 0xb4; 0xc5; 0x5a] = plain /\
  AES.InvCipher (map Z.of_nat (seq 0 24))
    [0xdd; 0xa9; 0x7c; 0xa4; 0x86; 0x4c; 0xdf; 0xe0;
     0x6e; 0xaf; 0x70; 0xa0; 0xec; 0x0d; 0x71; 0x91] = plain /\
  AES.InvCipher (map Z.of_nat (seq 0 32))
    [0x8e; 0xa2; 0xb7; 0xca; 0x51; 0x67; 0x45; 0xbf;
     0xea; 0xfc; 0x49; 0x90; 0x4b; 0x49; 0x60; 0x89] = plain.
Proof. vm_compute. auto. Qed.

(** RFC 4648, section 10. *)
Example base64_rfc4648 :
  base64_DecodeString (B "Zm9vYmFy") = Some (B "foobar") /\
  base64_DecodeString (B "Zm9vYmE=") = Some (B "fooba") /\
  base64_DecodeString (B "Zm9vYg==") = Some (B "foob") /\
  base64_DecodeString (B "") = Some [] /\
  base64_DecodeString (B "Zm9vYg=") = None /\
  base64_DecodeString (B "Zm9v Yg==") = None.
Proof. vm_compute. auto 10. Qed.

Example Unmarshal_challengeBody `{GoLibrary} :
  Unmarshal_WebhookMessage challengeBody = Some challengeMessage /\
  Unmarshal_meta (D challengeMessage) = Some challengeMeta.
Proof. split; reflexivity. Qed.

(** ** Bytes *)

Lemma b2z_range (b : byte) : 0 <= b2z b < 256.
Proof.
  unfold b2z. pose proof (Byte.to_N_bounded b). lia.
Qed.

Lemma len_nonneg {A} (l : list A) : 0 <= len l.
Proof. unfold len. lia. Qed.

Lemma len_nil_iff {A} (l : list A) : len l = 0 <-> l = [].
Proof.
  unfold len. destruct l; simpl; split; intros; try done; lia.
Qed.

(** ** Transport decoding *)

Section TransportFacts.
Context {lib : GoLibrary}.

Lemma decodeRequestBody_depends_on_normal_form (b e1 e2 : bytes) :
  ToLower (TrimSpace e1) = ToLower (TrimSpace e2) ->
  supportedEncoding (ToLower (TrimSpace e1)) ->
  decodeRequestBody b e1 = decodeRequestBody b e2.
Proof.
  intros Heq Hsup. unfold decodeRequestBody. rewrite <- Heq.
  repeat case_decide; try reflexivity.
  unfold supportedEncoding in Hsup. tauto.
Qed.

Lemma decodeRequestBody_unsupported_iff (b e : bytes) :
  (exists e', decodeRequestBody b e = Err (ErrUnsupportedContentEncoding e'))
  <-> ~ supportedEncoding (ToLower (TrimSpace e)).
Proof.
  unfold decodeRequestBody, supportedEncoding.
  repeat case_decide.
  - split; [intros [e' He]; discriminate | tauto].
  - split; [intros [e' He]; destruct (gzip_ReadAll b); discriminate | tauto].
  - split; [intros [e' He]; destruct (zlib_ReadAll b); discriminate | tauto].
  - split; [tauto | eauto].
Qed.

(** C10. The [Content-Encoding] value is matched after trimming white space
    and without regard to case: for every body, [GZIP], [ gzip ] and [gzip]
    decode alike, and so do the spellings of [deflate] and [identity]; two
    values with the same supported normal form decode alike; and a value is
    rejected as unsupported exactly when its trimmed, lowered form is none
    of the empty string, [identity], [gzip] and [deflate] (the error then
    names the value as it was sent). *)
Theorem decodeRequestBody_content_encoding_normalized (b : bytes) :
  (decodeRequestBody b (B "GZIP") = decodeRequestBody b (B "gzip") /\
   decodeRequestBody b (B " gzip ") = decodeRequestBody b (B "gzip")) /\
  (decodeRequestBody b (B "DEFLATE") = decodeRequestBody b (B "deflate") /\
   decodeRequestBody b (B " deflate ") = decodeRequestBody b (B "deflate")) /\
  (decodeRequestBody b (B "IDENTITY") = decodeRequestBody b (B "identity") /\
   decodeRequestBody b (B " identity ") = decodeRequestBody b (B "identity")) /\
  (forall e1 e2,
     ToLower (TrimSpace e1) = ToLower (TrimSpace e2) ->
     supportedEncoding (ToLower (TrimSpace e1)) ->
     decodeRequestBody b e1 = decodeRequestBody b e2) /\
  (forall e,
     is_err (decodeRequestBody b e) /\
     ~ (decodeRequestBody b e = Err ErrGzip \/ decodeRequestBody b e = Err ErrZlib)
     <-> ~ supportedEncoding (ToLower (TrimSpace e))) /\
  (forall e,
     ~ supportedEncoding (ToLower (TrimSpace e)) ->
     decodeRequestBody b e = Err (ErrUnsupportedContentEncoding e)).
Proof.
  split; [split; reflexivity|].
  split; [split; reflexivity|].
  split; [split; reflexivity|].
  split; [apply decodeRequestBody_depends_on_normal_form|].
  split.
  - intros e. split.
    + intros [Herr Hlib] Hsup. revert Herr Hlib.
      unfold decodeRequestBody, supportedEncoding in *.
      repeat case_decide; simpl; try tauto.
      * destruct (gzip_ReadAll b); simpl; tauto.
      * destruct (zlib_ReadAll b); simpl; tauto.
    + intros Hn. apply decodeRequestBody_unsupported_iff with (b := b) in Hn.
      destruct Hn as [e' He]. rewrite He. split; [exact I|].
      intros [?|?]; discriminate.
  - intros e Hn. unfold decodeRequestBody, supportedEncoding in *.
    repeat case_decide; tauto.
Qed.
End TransportFacts.

(** ** The request handler *)

Section HandlerFacts.
Context {lib : GoLibrary}.

Lemma HandleRequest_delivers (wh : WebhookHandler) (r : Request) (msg : WebhookMessage) :
  delivers wh r msg -> HandleRequest wh r = answer (handleMessage wh msg).
Proof.
  intros [Hm (raw & decoded & plain & Hb & Hdec & Hcry & Hmsg)].
  unfold HandleRequest.
  rewrite decide_False by (rewrite Hm; tauto).
  rewrite Hb, Hdec, Hcry, Hmsg. reflexivity.
Qed.

Lemma handleMessage_other_signal (wh : WebhookHandler) (msg : WebhookMessage) :
  S_ msg <> SignalEvent -> handleMessage wh msg = (Ok [], []).
Proof.
  intros Hs. unfold handleMessage. rewrite decide_True by assumption. reflexivity.
Qed.

Lemma handleMessage_event (wh : WebhookHandler) (msg : WebhookMessage)
    (meta : webhookPayloadMeta) :
  S_ msg = SignalEvent ->
  Unmarshal_meta (D msg) = Some meta ->
  handleMessage wh msg =
    if decide (verifyToken wh <> [] /\ VerifyToken meta <> verifyToken wh)
    then (Err ErrVerifyToken, [])
    else if EqualFold (ChannelType meta) (B "WEBHOOK_CHALLENGE")
            && negb (bool_decide (Challenge meta = []))
    then (Ok (Challenge meta), [])
    else
      match handleEvent wh msg with
      | (Some e, acts) => (Err e, acts)
      | (None, acts) => (Ok [], acts)
      end.
Proof.
  intros Hs Hmeta. unfold handleMessage.
  rewrite decide_False by (rewrite Hs; tauto).
  rewrite Hmeta. reflexivity.
Qed.

Lemma handleEvent_parsed (wh : WebhookHandler) (msg : WebhookMessage) (ev : Event) :
  Unmarshal_Event (D msg) = Some ev ->
  handleEvent wh msg =
    (None,
     [RLock; ReadHandlers (Type_ ev); RUnlock]
       ++ map (fun h => Go h ev) (handlersFor wh (Type_ ev))).
Proof. intros H. unfold handleEvent. rewrite H. reflexivity. Qed.

(** C7. A body that does not parse as an encryption envelope, or parses
    with an empty [encrypt] field, comes back from the decryption stage
    unchanged and without an error, whatever key the handler holds. *)
Theorem tryDecryptBody_plaintext_passthrough (wh : WebhookHandler) (body : bytes) :
  Unmarshal_encrypted body = None \/
  (exists e, Unmarshal_encrypted body = Some e /\ Encrypt e = []) ->
  tryDecryptBody wh body = Ok body.
Proof.
  intros [Hnone | (e & Hsome & Hempty)]; unfold tryDecryptBody.
  - rewrite Hnone. reflexivity.
  - rewrite Hsome. rewrite decide_True by assumption. reflexivity.
Qed.

(** C8. An envelope whose signal kind is not the event kind is a no-op:
    [handleMessage] returns no challenge and no error without looking at
    the data or at the verify token, nothing is read from the registry and
    no goroutine is started, and the answer is 200 with the body
    [{"code":0}]. *)
Theorem other_signal_is_noop (wh : WebhookHandler) (r : Request) (msg : WebhookMessage) :
  delivers wh r msg ->
  S_ msg <> SignalEvent ->
  handleMessage wh msg = (Ok [], []) /\
  HandleRequest wh r = Replied (ok200 (Written (jsonText "{'code':0}"))) [].
Proof.
  intros Hd Hs. split.
  - apply handleMessage_other_signal; assumption.
  - rewrite (HandleRequest_delivers _ _ _ Hd).
    rewrite handleMessage_other_signal by assumption. reflexivity.
Qed.

(** C1, as amended.  A challenge is answered only after the verify token
    has been checked: for a delivered event-kind envelope whose data has
    [channel_type] equal to [WEBHOOK_CHALLENGE] without regard to case
    and a non-empty [challenge], the answer is 200 with the challenge
    value in the body [{"challenge": value}] when no verify token is
    configured or the request's [verify_token] equals the configured one;
    with a configured token that differs, the answer is 401. *)
Theorem challenge_echoed_after_token_check
    (wh : WebhookHandler) (r : Request) (msg : WebhookMessage)
    (meta : webhookPayloadMeta) :
  delivers wh r msg ->
  S_ msg = SignalEvent ->
  Unmarshal_meta (D msg) = Some meta ->
  EqualFold (ChannelType meta) (B "WEBHOOK_CHALLENGE") = true ->
  Challenge meta <> [] ->
  (verifyToken wh = [] \/ VerifyToken meta = verifyToken wh ->
   HandleRequest wh r =
     Replied (ok200 (Encoded (JObject [(B "challenge", JString (Challenge meta))]))) [])
  /\
  (verifyToken wh <> [] /\ VerifyToken meta <> verifyToken wh ->
   HandleRequest wh r = Replied (http_Error (B "Unauthorized") 401) []).
Proof.
  intros Hd Hs Hmeta Hfold Hch.
  rewrite (HandleRequest_delivers _ _ _ Hd).
  rewrite (handleMessage_event _ _ _ Hs Hmeta).
  split.
  - intros Htok. rewrite decide_False by tauto.
    rewrite Hfold. rewrite bool_decide_eq_false_2 by assumption. simpl.
    rewrite decide_True by assumption. reflexivity.
  - intros Htok. rewrite decide_True by assumption. reflexivity.
Qed.

(** C3. For a delivered event-kind envelope that is not a challenge: with
    a verify token configured and a [verify_token] that differs from it,
    the answer is 401 and no action is taken (no goroutine is started,
    whatever handlers are registered); with no verify token configured
    the token is not looked at and [handleMessage] goes on to
    [handleEvent], whose outcome it returns: an event record that parses
    is dispatched and answered 200. *)
Theorem event_authentication
    (wh : WebhookHandler) (r : Request) (msg : WebhookMessage)
    (meta : webhookPayloadMeta) :
  delivers wh r msg ->
  S_ msg = SignalEvent ->
  Unmarshal_meta (D msg) = Some meta ->
  ~ (EqualFold (ChannelType meta) (B "WEBHOOK_CHALLENGE") = true /\ Challenge meta <> []) ->
  (verifyToken wh <> [] -> VerifyToken meta <> verifyToken wh ->
   handleMessage wh msg = (Err ErrVerifyToken, []) /\
   HandleRequest wh r = Replied (http_Error (B "Unauthorized") 401) []) /\
  (verifyToken wh = [] ->
   handleMessage wh msg =
     (match fst (handleEvent wh msg) with Some e => Err e | None => Ok [] end,
      snd (handleEvent wh msg)) /\
   forall ev, Unmarshal_Event (D msg) = Some ev ->
     HandleRequest wh r =
       Replied (ok200 (Written (jsonText "{'code':0}")))
         ([RLock; ReadHandlers (Type_ ev); RUnlock]
            ++ map (fun h => Go h ev) (handlersFor wh (Type_ ev)))).
Proof.
  intros Hd Hs Hmeta Hnc.
  rewrite (HandleRequest_delivers _ _ _ Hd).
  rewrite (handleMessage_event _ _ _ Hs Hmeta).
  split.
  - intros Hcfg Hne. rewrite decide_True by tauto. split; reflexivity.
  - intros Hcfg. rewrite decide_False by tauto.
    assert (Hb : EqualFold (ChannelType meta) (B "WEBHOOK_CHALLENGE")
                 && negb (bool_decide (Challenge meta = [])) = false).
    { destruct (EqualFold _ _) eqn:Hf; [|reflexivity]. simpl.
      rewrite bool_decide_eq_true_2; [reflexivity|].
      destruct (decide (Challenge meta = [])); [assumption | tauto]. }
    rewrite Hb. split.
    + destruct (handleEvent wh msg) as [[e|] acts]; reflexivity.
    + intros ev Hev. rewrite (handleEvent_parsed _ _ _ Hev). reflexivity.
Qed.
End HandlerFacts.

(** ** PKCS7 *)

Lemma at_index_lookup (data : bytes) (i : nat) (c : byte) :
  data !! i = Some c -> at_index data (Z.of_nat i) = c.
Proof.
  intros H. unfold at_index. rewrite Nat2Z.id.
  rewrite nth_lookup, H. reflexivity.
Qed.

Lemma at_index_last (data : bytes) (c : byte) :
  last data = Some c -> at_index data (len data - 1) = c.
Proof.
  intros H. rewrite last_lookup in H.
  assert (length data <> 0%nat) by (destruct data; simpl in *; congruence).
  replace (len data - 1) with (Z.of_nat (pred (length data))) by (unfold len; lia).
  apply at_index_lookup. assumption.
Qed.

(** The loop of [pkcs7Unpad] over the indices [i .. i+n-1], all within
    bounds, is a test of the slice [data[i:i+n]]. *)
Lemma padBytesOk_slice (data : bytes) (pad : Z) (n i : nat) :
  (i + n <= length data)%nat ->
  padBytesOk data pad (Z.of_nat i) n = true
  <-> Forall (fun c => b2z c = pad) (take n (drop i data)).
Proof.
  revert i. induction n as [|n IH]; intros i Hle; simpl.
  - split; [constructor | reflexivity].
  - destruct (lookup_lt_is_Some_2 data i) as [c Hc]; [lia|].
    rewrite (drop_S _ _ _ Hc). simpl.
    rewrite (at_index_lookup _ _ _ Hc).
    replace (Z.of_nat i + 1) with (Z.of_nat (S i)) by lia.
    destruct (Z.eqb_spec (b2z c) pad) as [He|Hne].
    + rewrite IH by lia. split.
      * intros Hf. constructor; assumption.
      * intros Hf. inversion Hf; assumption.
    + split; [discriminate|]. intros Hf. inversion Hf. contradiction.
Qed.

(** C6.  On a buffer whose length is a multiple of 16, as the decrypted
    plaintext is: an empty buffer is refused; otherwise the last byte is
    the pad length [p], the call fails when [p] is 0, exceeds 16 or
    exceeds the length of the buffer, and when one of the last [p] bytes
    differs from [p]; in every other case it returns the buffer without
    its last [p] bytes. *)
Theorem pkcs7Unpad_checks_padding (data : bytes) :
  Z.rem (len data) 16 = 0 ->
  match last data with
  | None => pkcs7Unpad data 16 = Err ErrPKCS7Data
  | Some c =>
      let p := b2z c in
      let trailing := drop (length data - Z.to_nat p) data in
      (p = 0 \/ 16 < p \/ len data < p ->
       pkcs7Unpad data 16 = Err ErrPKCS7Padding) /\
      (0 < p <= 16 -> p <= len data ->
       Exists (fun c' => b2z c' <> p) trailing ->
       pkcs7Unpad data 16 = Err ErrPKCS7PaddingByte) /\
      (0 < p <= 16 -> p <= len data ->
       Forall (fun c' => b2z c' = p) trailing ->
       pkcs7Unpad data 16 = Ok (take (length data - Z.to_nat p) data))
  end.
Proof.
  intros Hrem. destruct (last data) as [c|] eqn:Hlast.
  - assert (Hne : data <> []) by (intros ->; discriminate).
    assert (Hlen : len data <> 0) by (rewrite len_nil_iff; assumption).
    pose proof (at_index_last _ _ Hlast) as Hat.
    pose proof (b2z_range c) as Hc.
    assert (Hhead :
      pkcs7Unpad data 16 =
        if (b2z c =? 0) || (16 <? b2z c) || (len data <? b2z c)
        then Err ErrPKCS7Padding
        else if padBytesOk data (b2z c) (len data - b2z c) (Z.to_nat (b2z c))
        then Ok (take (Z.to_nat (len data - b2z c)) data)
        else Err ErrPKCS7PaddingByte).
    { unfold pkcs7Unpad.
      destruct (Z.eqb_spec (len data) 0); [contradiction|].
      change (16 =? 0) with false. cbv iota.
      rewrite Hrem. simpl negb. cbv iota. rewrite Hat. reflexivity. }
    cbv zeta.
    assert (Hslice : 0 < b2z c -> b2z c <= len data ->
      (padBytesOk data (b2z c) (len data - b2z c) (Z.to_nat (b2z c)) = true
       <-> Forall (fun c' => b2z c' = b2z c)
             (drop (length data - Z.to_nat (b2z c)) data))).
    { intros Hp Hle. unfold len in *.
      replace (Z.of_nat (length data) - b2z c)
        with (Z.of_nat (length data - Z.to_nat (b2z c))) by lia.
      rewrite padBytesOk_slice by lia.
      rewrite take_ge; [reflexivity|]. rewrite length_drop. lia. }
    repeat split.
    + intros Hbad. rewrite Hhead.
      destruct (Z.eqb_spec (b2z c) 0); [reflexivity|].
      destruct (Z.ltb_spec 16 (b2z c)); [reflexivity|].
      destruct (Z.ltb_spec (len data) (b2z c)); [reflexivity|]. lia.
    + intros Hp Hle Hex. rewrite Hhead.
      destruct (Z.eqb_spec (b2z c) 0); [lia|].
      destruct (Z.ltb_spec 16 (b2z c)); [lia|].
      destruct (Z.ltb_spec (len data) (b2z c)); [lia|]. simpl.
      pose proof (Hslice ltac:(lia) Hle) as Hs.
      destruct (padBytesOk _ _ _ _); [|reflexivity].
      apply Exists_exists in Hex as (c' & Hin & Hc').
      pose proof (proj1 Hs eq_refl) as Hall.
      rewrite Forall_forall in Hall. specialize (Hall c' Hin). contradiction.
    + intros Hp Hle Hall. rewrite Hhead.
      destruct (Z.eqb_spec (b2z c) 0); [lia|].
      destruct (Z.ltb_spec 16 (b2z c)); [lia|].
      destruct (Z.ltb_spec (len data) (b2z c)); [lia|]. simpl.
      apply (Hslice ltac:(lia) Hle) in Hall. rewrite Hall.
      do 2 f_equal. unfold len. lia.
  - apply last_None in Hlast. subst data. reflexivity.
Qed.

(** ** Payload decryption *)

(** The key normalisation written in [decryptWebhookPayload] is the one the
    spec words. *)
Lemma keyBytes_normalize32 (key : bytes) :
  (if len key <? 32 then key ++ replicate (32 - length key) x00
   else if 32 <? len key then take 32 key
   else key) = normalize32 key.
Proof.
  unfold normalize32, len.
  destruct (Z.ltb_spec (Z.of_nat (length key)) 32) as [Hlt|Hge].
  - rewrite take_app_ge by lia. f_equal.
    rewrite take_replicate. f_equal. lia.
  - destruct (Z.ltb_spec 32 (Z.of_nat (length key))) as [Hgt|Hle].
    + rewrite take_app_le by lia. reflexivity.
    + rewrite take_app_ge by lia.
      replace (32 - length key)%nat with 0%nat by lia.
      simpl. rewrite app_nil_r. reflexivity.
Qed.

Lemma normalize32_length (key : bytes) : length (normalize32 key) = 32%nat.
Proof.
  unfold normalize32. rewrite length_take, length_app, length_replicate. lia.
Qed.

Lemma normalize32_idempotent (key : bytes) :
  normalize32 (normalize32 key) = normalize32 key.
Proof.
  unfold normalize32 at 1. rewrite take_app_le by (rewrite normalize32_length; lia).
  apply take_ge. rewrite normalize32_length. lia.
Qed.

Lemma normalize32_nonempty (key : bytes) : normalize32 key <> [].
Proof.
  intros H. pose proof (normalize32_length key) as Hl. rewrite H in Hl. discriminate.
Qed.

(** With a key configured, the outcome is that of the steps after the key
    check run with the normalised key. *)
Lemma decryptWebhookPayload_with_key (encrypted key : bytes) :
  key <> [] ->
  decryptWebhookPayload encrypted key =
    match base64_DecodeString encrypted with
    | None => Err ErrDecodeEncrypt
    | Some payload =>
        if len payload <=? 16 then Err ErrEncryptLength
        else
          match base64_DecodeString (drop 16 payload) with
          | None => Err ErrDecodeCipher
          | Some cipherText =>
              if negb (Z.rem (len cipherText) 16 =? 0)
              then Err ErrCipherNotBlockMultiple
              else
                plainText ← CryptBlocks (normalize32 key) (take 16 payload) cipherText;
                pkcs7Unpad plainText 16
          end
    end.
Proof.
  intros Hk. unfold decryptWebhookPayload.
  rewrite decide_False by assumption.
  rewrite keyBytes_normalize32.
  unfold aes_NewCipher, aes_BlockSize, len.
  rewrite normalize32_length.
  rewrite decide_True by (right; right; reflexivity).
  reflexivity.
Qed.

(** ** The length of the decrypted plaintext *)

Lemma expand_prefix (n Nk : nat) (ws : list AES.word) :
  take (length ws) (AES.expand n Nk ws) = ws.
Proof.
  revert ws. induction n as [|n IH]; intros ws; simpl.
  - apply take_ge. lia.
  - match goal with |- context [AES.expand n Nk (ws ++ [?x])] => set (w := x) end.
    specialize (IH (ws ++ [w])).
    rewrite length_app in IH. simpl in IH.
    replace (length ws) with (min (length ws) (length ws + 1)) at 1 by lia.
    rewrite <- take_take. rewrite IH.
    rewrite take_app_le by lia. apply take_ge. lia.
Qed.


Lemma roundKey0_length (key : list Z) :
  length key = 32%nat -> length (AES.roundKey (AES.KeyExpansion key) 0) = 16%nat.
Proof.
  intros Hlen. unfold AES.roundKey, AES.KeyExpansion. rewrite Hlen.
  change (32 / 4)%nat with 8%nat.
  change (4 * 0)%nat with 0%nat. rewrite drop_0.
  remember (4 * (8 + 7) - 8)%nat as n eqn:Hn. clear Hn.
  rewrite <- (take_take _ 4 8).
  pose proof (expand_prefix n 8 (AES.chunks4 8 key)) as Hp.
  change (length (AES.chunks4 8 key)) with 8%nat in Hp. rewrite Hp.
  cbn [AES.chunks4 take firstn concat].
  rewrite !length_app, !length_take, !length_drop, Hlen. reflexivity.
Qed.

Lemma InvCipher_length (key block : list Z) :
  length key = 32%nat -> length (AES.InvCipher key block) = 16%nat.
Proof.
  intros Hlen. unfold AES.InvCipher.
  unfold AES.xor_bytes at 1.
  rewrite length_map, length_combine, roundKey0_length by assumption.
  unfold AES.InvSubBytes, AES.InvShiftRows. rewrite !length_map, length_seq. reflexivity.
Qed.

Lemma xorBytes_length (a b : bytes) : length (xorBytes a b) = min (length a) (length b).
Proof. unfold xorBytes. rewrite length_map, length_combine. reflexivity. Qed.

Lemma cbcBlocks_length (n : nat) (key prev src : bytes) :
  length key = 32%nat -> length prev = 16%nat -> (16 * n <= length src)%nat ->
  length (cbcBlocks n key prev src) = (16 * n)%nat.
Proof.
  intros Hk. revert prev src. induction n as [|n IH]; intros prev src Hp Hs.
  - reflexivity.
  - cbn [cbcBlocks].
    rewrite length_app, xorBytes_length. unfold decryptBlock.
    rewrite length_map, InvCipher_length by (rewrite length_map; assumption).
    rewrite IH.
    + lia.
    + rewrite length_take. lia.
    + rewrite length_drop. lia.
Qed.

(** [CryptBlocks] fills a buffer of the length of the cipher text. *)
Lemma CryptBlocks_length (key iv src plain : bytes) :
  length key = 32%nat -> length iv = 16%nat ->
  CryptBlocks key iv src = Ok plain -> length plain = length src.
Proof.
  intros Hk Hiv. unfold CryptBlocks, aes_BlockSize, len.
  case_decide as Hrem; [|discriminate].
  intros [= <-].
  assert (Hdiv : (length src = 16 * (length src / 16))%nat).
  { apply Z.rem_divide in Hrem; [|lia]. destruct Hrem as [q Hq].
    assert (length src mod 16 = 0)%nat.
    { apply Nat2Z.inj. rewrite Nat2Z.inj_mod. rewrite Hq. apply Z_mod_mult. }
    pose proof (Nat.div_mod_eq (length src) 16) as Hd.
    rewrite H, Nat.add_0_r in Hd. exact Hd. }
  rewrite cbcBlocks_length; try assumption.
  - exact (eq_sym Hdiv).
  - apply Nat.eq_le_incl. exact (eq_sym Hdiv).
Qed.

(** The buffer handed to [pkcs7Unpad] in [decryptWebhookPayload] has the
    length of the cipher text, a multiple of 16. *)
Lemma decrypted_plaintext_aligned (key payload cipherText plainText : bytes) :
  16 < len payload ->
  Z.rem (len cipherText) 16 = 0 ->
  CryptBlocks (normalize32 key) (take 16 payload) cipherText = Ok plainText ->
  len plainText = len cipherText /\ Z.rem (len plainText) 16 = 0.
Proof.
  intros Hlong Hal Hcb.
  assert (Hl : length plainText = length cipherText).
  { eapply CryptBlocks_length; [apply normalize32_length | | exact Hcb].
    rewrite length_take. unfold len in Hlong. lia. }
  unfold len. rewrite Hl. split; [reflexivity | exact Hal].
Qed.

(** C4, as amended.  For a key that is not empty, decryption depends on
    the key only through its first 32 bytes after zero-extension: a key
    shorter than 32 bytes decrypts every payload as its zero-padded form
    does, a key longer than 32 bytes as its first 32 bytes do, and two
    keys with the same normalised form decrypt alike. *)
Theorem decrypt_key_normalization (encrypted key : bytes) :
  key <> [] ->
  (len key < 32 ->
   decryptWebhookPayload encrypted key =
   decryptWebhookPayload encrypted (key ++ replicate (32 - length key) x00)) /\
  (32 < len key ->
   decryptWebhookPayload encrypted key =
   decryptWebhookPayload encrypted (take 32 key)) /\
  (forall key', key' <> [] -> normalize32 key' = normalize32 key ->
   decryptWebhookPayload encrypted key' = decryptWebhookPayload encrypted key).
Proof.
  intros Hk.
  assert (Hsame : forall key', key' <> [] -> normalize32 key' = normalize32 key ->
            decryptWebhookPayload encrypted key' = decryptWebhookPayload encrypted key).
  { intros key' Hk' Heq.
    rewrite !decryptWebhookPayload_with_key by assumption.
    rewrite Heq. reflexivity. }
  pose proof (keyBytes_normalize32 key) as Hnorm. unfold len in *.
  repeat split.
  - intros Hlt. symmetry. apply Hsame.
    + destruct key; [contradiction | discriminate].
    + destruct (Z.ltb_spec (Z.of_nat (length key)) 32); [|lia].
      rewrite Hnorm. apply normalize32_idempotent.
  - intros Hgt. symmetry. apply Hsame.
    + destruct key; [contradiction | discriminate].
    + destruct (Z.ltb_spec (Z.of_nat (length key)) 32); [lia|].
      destruct (Z.ltb_spec 32 (Z.of_nat (length key))); [|lia].
      rewrite Hnorm. apply normalize32_idempotent.
  - exact Hsame.
Qed.

(** No call of [decryptWebhookPayload] panics: the cipher is built from a
    key of 32 bytes, [CryptBlocks] is reached with whole blocks only, and
    the block size handed to [pkcs7Unpad] is not zero. *)
Lemma decryptWebhookPayload_no_panic (encrypted key : bytes) (p : panic) :
  decryptWebhookPayload encrypted key <> Panic p.
Proof.
  destruct (decide (key = [])) as [->|Hk]; [discriminate|].
  rewrite decryptWebhookPayload_with_key by assumption.
  destruct (base64_DecodeString encrypted) as [payload|]; [|discriminate].
  destruct (len payload <=? 16); [discriminate|].
  destruct (base64_DecodeString (drop 16 payload)) as [ct|]; [|discriminate].
  destruct (Z.eqb_spec (Z.rem (len ct) 16) 0) as [Hal|Hal]; [|discriminate].
  simpl negb. cbv iota. unfold CryptBlocks, aes_BlockSize.
  rewrite decide_True by assumption. simpl.
  unfold pkcs7Unpad. change (16 =? 0) with false. cbv iota.
  repeat match goal with |- context [if ?b then _ else _] => destruct b end;
    discriminate.
Qed.

(** C5, as amended.  [decryptWebhookPayload] returns the error [e], and no
    plaintext, exactly when [e] is the first failure in this order: no key
    is configured; the outer base64 is malformed; the decoded payload is
    not longer than 16 bytes; the inner base64 is malformed; the length of
    the cipher text is not a multiple of 16; the PKCS7 padding of the
    decrypted plaintext is refused.  A cipher text that is not whole
    blocks is answered by its error, never by the panic with which
    [CryptBlocks] meets such input: no call panics. *)
Theorem decryptWebhookPayload_fails_exactly (encrypted key : bytes) :
  (forall e, decryptWebhookPayload encrypted key = Err e
             <-> decryptFailure encrypted key e) /\
  (forall p, decryptWebhookPayload encrypted key <> Panic p) /\
  (forall payload cipherText,
     key <> [] ->
     base64_DecodeString encrypted = Some payload ->
     16 < len payload ->
     base64_DecodeString (drop 16 payload) = Some cipherText ->
     Z.rem (len cipherText) 16 <> 0 ->
     CryptBlocks (normalize32 key) (take 16 payload) cipherText = Panic PanicNotFullBlocks /\
     decryptWebhookPayload encrypted key = Err ErrCipherNotBlockMultiple).
Proof.
  split; [|split].
  - intros e. split.
    + destruct (decide (key = [])) as [Hk|Hk].
      { subst key. intros H. injection H as <-. constructor. reflexivity. }
      rewrite decryptWebhookPayload_with_key by assumption.
      destruct (base64_DecodeString encrypted) as [payload|] eqn:Hout.
      2:{ intros H. injection H as <-. apply OuterBase64; assumption. }
      destruct (Z.leb_spec (len payload) 16) as [Hshort|Hlong].
      { intros H. injection H as <-. eapply ShortPayload; eassumption. }
      destruct (base64_DecodeString (drop 16 payload)) as [ct|] eqn:Hin.
      2:{ intros H. injection H as <-. eapply InnerBase64; eassumption. }
      destruct (Z.eqb_spec (Z.rem (len ct) 16) 0) as [Hal|Hal].
      2:{ intros H. injection H as <-. eapply Misaligned; eassumption. }
      simpl negb. cbv iota.
      destruct (CryptBlocks (normalize32 key) (take 16 payload) ct) as [plain| |] eqn:Hcb.
      * simpl. intros H. eapply BadPadding; eassumption.
      * unfold CryptBlocks, aes_BlockSize in Hcb.
        rewrite decide_True in Hcb by assumption. discriminate.
      * discriminate.
    + intros Hf. destruct Hf as
        [Hk | Hk Hout | payload Hk Hout Hshort | payload Hk Hout Hlong Hin
         | payload ct Hk Hout Hlong Hin Hal
         | payload ct plain e Hk Hout Hlong Hin Hal Hcb Hpad].
      * subst key. reflexivity.
      * rewrite decryptWebhookPayload_with_key by assumption. rewrite Hout. reflexivity.
      * rewrite decryptWebhookPayload_with_key by assumption. rewrite Hout.
        destruct (Z.leb_spec (len payload) 16); [reflexivity | lia].
      * rewrite decryptWebhookPayload_with_key by assumption. rewrite Hout.
        destruct (Z.leb_spec (len payload) 16); [lia|]. rewrite Hin. reflexivity.
      * rewrite decryptWebhookPayload_with_key by assumption. rewrite Hout.
        destruct (Z.leb_spec (len payload) 16); [lia|]. rewrite Hin.
        destruct (Z.eqb_spec (Z.rem (len ct) 16) 0); [contradiction | reflexivity].
      * rewrite decryptWebhookPayload_with_key by assumption. rewrite Hout.
        destruct (Z.leb_spec (len payload) 16); [lia|]. rewrite Hin.
        destruct (Z.eqb_spec (Z.rem (len ct) 16) 0); [|contradiction].
        simpl negb. cbv iota. rewrite Hcb. simpl. assumption.
  - apply decryptWebhookPayload_no_panic.
  - intros payload ct Hk Hout Hlong Hin Hal. split.
    + unfold CryptBlocks, aes_BlockSize. rewrite decide_False by assumption. reflexivity.
    + rewrite decryptWebhookPayload_with_key by assumption. rewrite Hout.
      destruct (Z.leb_spec (len payload) 16); [lia|]. rewrite Hin.
      destruct (Z.eqb_spec (Z.rem (len ct) 16) 0); [contradiction | reflexivity].
Qed.

(** ** Registry and dispatch *)

Lemma handlersFor_new (encryptKey verifyToken : bytes) (t : Z) :
  handlersFor (NewWebhookHandler encryptKey verifyToken) t = [].
Proof. unfold handlersFor. simpl. rewrite lookup_empty. reflexivity. Qed.

(** Registration appends to the list of its event type, leaves the other
    lists alone, and works under the write lock. *)
Lemma OnEvent_handlersFor (wh : WebhookHandler) (t t' : Z) (h : EventHandler) :
  handlersFor (fst (OnEvent wh t h)) t' =
    if decide (t = t') then handlersFor wh t ++ [h] else handlersFor wh t'.
Proof.
  unfold handlersFor at 1. simpl. rewrite lookup_insert.
  destruct (decide (t = t')); reflexivity.
Qed.

Lemma OnEvent_disciplined (wh : WebhookHandler) (t : Z) (h : EventHandler) :
  disciplined 0 false (snd (OnEvent wh t h)) = true.
Proof. reflexivity. Qed.

Lemma twoHandlers_for_5 : handlersFor twoHandlers 5 = [failingHandler; quietHandler].
Proof.
  unfold twoHandlers. rewrite !OnEvent_handlersFor.
  rewrite !decide_True by reflexivity. rewrite handlersFor_new. reflexivity.
Qed.

Lemma busyHandlers_for_5 : handlersFor busyHandlers 5 = [brokenHandler; busyHandler].
Proof.
  unfold busyHandlers. rewrite !OnEvent_handlersFor.
  rewrite !decide_True by reflexivity. rewrite handlersFor_new. reflexivity.
Qed.

Lemma spawned_Go (ev : Event) (hs : list EventHandler) :
  spawned (map (fun h => Go h ev) hs) = map (fun h => (h, ev)) hs.
Proof.
  induction hs as [|h hs IH]; [reflexivity|].
  change (spawned (map (fun h => Go h ev) (h :: hs)))
    with ((h, ev) :: spawned (map (fun h => Go h ev) hs)).
  rewrite IH. reflexivity.
Qed.

Lemma disciplined_Go (ev : Event) (hs : list EventHandler) :
  disciplined 0 false (map (fun h => Go h ev) hs) = true.
Proof. induction hs as [|h hs IH]; [reflexivity | exact IH]. Qed.

(** *** The goroutines under the scheduler *)

Lemma seenOf_snoc (g : nat) (obs : list observation) (o : observation) :
  seenOf g (obs ++ [o]) = seenOf g obs ++ (if decide (goroutineOf o = g) then [o] else []).
Proof.
  unfold seenOf. rewrite filter_app. f_equal.
Qed.

Lemma run_app (picks more : list nat) (m : process) :
  run (picks ++ more) m = run more (run picks m).
Proof. apply foldl_app. Qed.

Lemma stepsOf_pos (o : outcome) : (0 < stepsOf o)%nat.
Proof. destruct o; simpl; lia. Qed.

Lemma stepsLeft_insert (ts : list (option outcome)) (g : nat) (t t' : option outcome) :
  ts !! g = Some t ->
  (stepsLeft (<[g := t']> ts) + from_option stepsOf 0 t
   = stepsLeft ts + from_option stepsOf 0 t')%nat.
Proof.
  revert g. induction ts as [|a ts IH]; intros [|g] Hg; try discriminate.
  - injection Hg as ->. simpl. lia.
  - simpl. specialize (IH g Hg). lia.
Qed.

Lemma stepsLeft_zero (ts : list (option outcome)) :
  stepsLeft ts = 0%nat -> forallb ended ts = true.
Proof.
  induction ts as [|[o|] ts IH]; simpl; intros H0; [reflexivity| |auto].
  pose proof (stepsOf_pos o). lia.
Qed.

Lemma stepsLeft_pos (ts : list (option outcome)) :
  (0 < stepsLeft ts)%nat -> exists g o, ts !! g = Some (Some o).
Proof.
  induction ts as [|[o|] ts IH]; simpl; intros Hpos; [lia| |].
  - exists 0%nat, o. reflexivity.
  - destruct (IH Hpos) as (g & o & Hg). exists (S g), o. exact Hg.
Qed.

(** One step of one goroutine: the process stays up, no goroutine is added
    or lost, what each goroutine has shown and has still to show together
    is what it was, only a goroutine of the process is seen, and a
    goroutine under way does take a step. *)
Lemma step_keeps (m : process) (k : nat) :
  down m = None ->
  down (step m k) = None /\
  length (running (step m k)) = length (running m) /\
  (forall g, seenOf g (seen (step m k)) ++ rest g (step m k)
             = seenOf g (seen m) ++ rest g m) /\
  (forall o, o ∈ seen (step m k) ->
             o ∈ seen m \/ (goroutineOf o < length (running m))%nat) /\
  (forall o, running m !! k = Some (Some o) ->
             S (stepsLeft (running (step m k))) = stepsLeft (running m)).
Proof.
  intros Hup. unfold step. rewrite Hup.
  destruct (running m !! k) as [[o|]|] eqn:Hk;
    [| split; [assumption|]; split; [reflexivity|]; split; [reflexivity|];
       split; [auto | discriminate] ..].
  assert (Hlt : (k < length (running m))%nat) by (eapply lookup_lt_Some; eassumption).
  assert (Hseen : forall x g t,
            goroutineOf x = k ->
            x :: from_option (callTrace k) [] t = callTrace k o ->
            seenOf g (seen m ++ [x]) ++
              match <[k := t]> (running m) !! g with
              | Some (Some o') => callTrace g o'
              | _ => []
              end
            = seenOf g (seen m) ++ rest g m).
  { intros x g t Hx Ht. rewrite seenOf_snoc, Hx. unfold rest.
    destruct (decide (k = g)) as [<-|Hne].
    - rewrite list_lookup_insert_eq by assumption. rewrite Hk, <- Ht, <- app_assoc.
      destruct t; reflexivity.
    - rewrite list_lookup_insert_ne by assumption. rewrite app_nil_r. reflexivity. }
  assert (Hin : forall x, goroutineOf x = k -> forall o', o' ∈ seen m ++ [x] ->
            o' ∈ seen m \/ (goroutineOf o' < length (running m))%nat).
  { intros x Hx o' Ho'. apply elem_of_app in Ho' as [Ho'|Ho']; [left; assumption|].
    apply list_elem_of_singleton in Ho'. subst o'. right. rewrite Hx. assumption. }
  assert (Hsteps : forall t,
            S (from_option stepsOf 0%nat t) = stepsOf o ->
            S (stepsLeft (<[k := t]> (running m))) = stepsLeft (running m)).
  { intros t Ht. pose proof (stepsLeft_insert _ _ _ t Hk) as Hi.
    simpl in Hi. lia. }
  destruct o as [|v|e next]; unfold leave, deferRecover; cbn [running seen down].
  - split; [reflexivity|]. split; [apply length_insert|].
    split; [intros g; apply (Hseen (Exited k None) g None); reflexivity|].
    split; [exact (Hin (Exited k None) eq_refl)|].
    intros o' _. apply (Hsteps None). reflexivity.
  - split; [reflexivity|]. split; [apply length_insert|].
    split; [intros g; apply (Hseen (Exited k (Some v)) g None); reflexivity|].
    split; [exact (Hin (Exited k (Some v)) eq_refl)|].
    intros o' _. apply (Hsteps None). reflexivity.
  - split; [reflexivity|]. split; [apply length_insert|].
    split; [intros g; apply (Hseen (Did k e) g (Some next)); reflexivity|].
    split; [exact (Hin (Did k e) eq_refl)|].
    intros o' _. apply (Hsteps (Some next)). reflexivity.
Qed.

(** The same of any number of steps, in any order. *)
Lemma run_keeps (picks : list nat) (m : process) :
  down m = None ->
  down (run picks m) = None /\
  length (running (run picks m)) = length (running m) /\
  (forall g, seenOf g (seen (run picks m)) ++ rest g (run picks m)
             = seenOf g (seen m) ++ rest g m) /\
  (forall o, o ∈ seen (run picks m) ->
             o ∈ seen m \/ (goroutineOf o < length (running m))%nat).
Proof.
  revert m. induction picks as [|k picks IH]; intros m Hup.
  - repeat split; auto.
  - destruct (step_keeps m k Hup) as (Hup' & Hlen & Hsame & Hin & _).
    destruct (IH (step m k) Hup') as (Hup'' & Hlen' & Hsame' & Hin').
    change (run (k :: picks) m) with (run picks (step m k)).
    split; [assumption|]. split; [congruence|].
    split; [intros g; rewrite Hsame'; apply Hsame|].
    intros o Ho. destruct (Hin' o Ho) as [Ho'|Ho'].
    + apply Hin. assumption.
    + right. rewrite <- Hlen. assumption.
Qed.

(** Wherever the process stands, the goroutines under way can be taken to
    their ends. *)
Lemma run_can_end (m : process) :
  down m = None -> exists more, allEnded (run more m) = true.
Proof.
  remember (stepsLeft (running m)) as n eqn:Hn.
  revert m Hn. induction n as [|n IH]; intros m Hn Hup.
  - exists []. apply stepsLeft_zero. auto.
  - destruct (stepsLeft_pos (running m)) as (g & o & Hg); [lia|].
    destruct (step_keeps m g Hup) as (Hup' & _ & _ & _ & Hstep).
    specialize (Hstep o Hg).
    destruct (IH (step m g)) as (more & Hmore); [lia | assumption|].
    exists (g :: more). exact Hmore.
Qed.

Lemma allEnded_rest (m : process) (g : nat) : allEnded m = true -> rest g m = [].
Proof.
  unfold allEnded, rest. intros Hall.
  destruct (running m !! g) as [[o|]|] eqn:Hg; try reflexivity.
  apply list_elem_of_lookup_2 in Hg.
  rewrite forallb_forall in Hall. apply list_elem_of_In in Hg.
  apply Hall in Hg. discriminate.
Qed.

(** The goroutines that a dispatch to the handlers [hs] starts: whatever
    the scheduler does, the process stays up; goroutine [g] shows the
    call of the [g]-th handler from its start, as far as it has got; no
    other goroutine shows; when all have ended, each has shown the whole
    of its call, up to the return or the recovered panic; and they can
    always be taken to their ends. *)
Lemma dispatched_run (ev : Event) (hs : list EventHandler) (picks : list nat) :
  let m := run picks (start (map (fun h => Go h ev) hs)) in
  down m = None /\
  (forall g h, hs !! g = Some h ->
     seenOf g (seen m) ++ rest g m = callTrace g (goroutine h ev)) /\
  (forall o, o ∈ seen m -> (goroutineOf o < length hs)%nat) /\
  (allEnded m = true ->
   forall g h, hs !! g = Some h -> seenOf g (seen m) = callTrace g (goroutine h ev)) /\
  exists more, allEnded (run more m) = true.
Proof.
  intros m.
  assert (Hrunning : running (start (map (fun h => Go h ev) hs))
                     = map (fun h => Some (goroutine h ev)) hs).
  { unfold start. cbn [running]. rewrite spawned_Go, map_map. reflexivity. }
  destruct (run_keeps picks (start (map (fun h => Go h ev) hs)) eq_refl)
    as (Hup & Hlen & Hsame & Hin).
  fold m in Hup, Hlen, Hsame, Hin.
  assert (Hcall : forall g h, hs !! g = Some h ->
            seenOf g (seen m) ++ rest g m = callTrace g (goroutine h ev)).
  { intros g h Hg. rewrite Hsame. unfold rest. rewrite Hrunning.
    change (map (fun h0 => Some (goroutine h0 ev)) hs)
      with ((fun h0 => Some (goroutine h0 ev)) <$> hs).
    rewrite list_lookup_fmap, Hg. reflexivity. }
  split; [assumption|]. split; [assumption|]. split; [|split].
  - intros o Ho. destruct (Hin o Ho) as [Ho'|Ho'].
    + cbn [start seen] in Ho'. apply elem_of_nil in Ho'. contradiction.
    + rewrite Hrunning, length_map in Ho'. assumption.
  - intros Hall g h Hg. rewrite <- (Hcall g h Hg), (allEnded_rest m g Hall), app_nil_r.
    reflexivity.
  - apply run_can_end. assumption.
Qed.

Section DispatchFacts.
Context {lib : GoLibrary}.

(** A parse failure of the metadata or of the event record comes back
    from [handleMessage] as an error, and [HandleRequest] answers every
    error of [handleMessage] with 401. *)
Lemma malformed_data_answered_401
    (wh : WebhookHandler) (r : Request) (msg : WebhookMessage) :
  delivers wh r msg ->
  S_ msg = SignalEvent ->
  Unmarshal_meta (D msg) = None ->
  HandleRequest wh r = Replied (http_Error (B "Unauthorized") 401) [].
Proof.
  intros Hd Hs Hmeta. rewrite (HandleRequest_delivers _ _ _ Hd).
  unfold handleMessage. rewrite decide_False by (rewrite Hs; tauto).
  rewrite Hmeta. reflexivity.
Qed.

(** Failures before the envelope is in hand are answered 400, and nothing
    is dispatched. *)
Lemma undelivered_answered_400 (wh : WebhookHandler) (r : Request) (raw : bytes) :
  Method r = B "POST" ->
  Body r = Some raw ->
  (forall decoded plain,
     decodeRequestBody raw (ContentEncoding r) = Ok decoded ->
     tryDecryptBody wh decoded = Ok plain ->
     Unmarshal_WebhookMessage plain = None) ->
  HandleRequest wh r = Replied (http_Error (B "Bad Request") 400) [].
Proof.
  intros Hm Hb Hfail. unfold HandleRequest.
  rewrite decide_False by (rewrite Hm; tauto). rewrite Hb.
  destruct (decodeRequestBody raw (ContentEncoding r)) as [decoded| |p] eqn:Hdec;
    [|reflexivity|].
  - destruct (tryDecryptBody wh decoded) as [plain| |p] eqn:Hcry; [|reflexivity|].
    + rewrite (Hfail _ _ eq_refl Hcry). reflexivity.
    + exfalso. unfold tryDecryptBody in Hcry.
      destruct (Unmarshal_encrypted decoded) as [enc|]; [|discriminate].
      case_decide; [discriminate|].
      exact (decryptWebhookPayload_no_panic _ _ _ Hcry).
  - exfalso. unfold decodeRequestBody in Hdec.
    repeat case_decide; try discriminate.
    + destruct (gzip_ReadAll raw); discriminate.
    + destruct (zlib_ReadAll raw); discriminate.
Qed.

(** Every request is answered: nothing on the way panics. *)
Lemma HandleRequest_replies (wh : WebhookHandler) (r : Request) :
  exists resp acts, HandleRequest wh r = Replied resp acts.
Proof.
  unfold HandleRequest. case_decide; [eauto|].
  destruct (Body r) as [raw|]; [|eauto].
  destruct (decodeRequestBody raw (ContentEncoding r)) as [decoded| |p] eqn:Hdec;
    [|eauto|].
  - destruct (tryDecryptBody wh decoded) as [plain| |p] eqn:Hcry; [|eauto|].
    + destruct (Unmarshal_WebhookMessage plain) as [msg|]; [|eauto].
      unfold handleMessage, handleEvent, answer.
      repeat first [ case_decide | case_match ]; simplify_eq; eauto.
    + exfalso. unfold tryDecryptBody in Hcry.
      destruct (Unmarshal_encrypted decoded) as [enc|]; [|discriminate].
      case_decide; [discriminate|].
      exact (decryptWebhookPayload_no_panic _ _ _ Hcry).
  - exfalso. unfold decodeRequestBody in Hdec.
    repeat case_decide; try discriminate.
    + destruct (gzip_ReadAll raw); discriminate.
    + destruct (zlib_ReadAll raw); discriminate.
Qed.

(** C9.  For a delivered event that passes the token check and is not a
    challenge, with event record [ev]: the answer is 200 with the generic
    body, whatever the handlers are and do; the registry is read once,
    under the read lock, and the lock is given back before the first
    goroutine is started; one goroutine is started per handler registered
    for the type of [ev] at that moment, in registration order, and its
    body is the call of that handler on [ev]; in whatever order the
    scheduler lets these goroutines take their steps, the process stays
    up, each goroutine shows the call of its own handler from the start
    and nothing else, no other goroutine shows, and the goroutines under
    way can always be taken to their ends, whatever the others did; once
    all have ended each handler's call has been seen once and whole, up
    to its return or to its panic, which the [recover] logs; and with no
    handler registered nothing is started. *)
Theorem dispatch_fans_out
    (wh : WebhookHandler) (r : Request) (msg : WebhookMessage)
    (meta : webhookPayloadMeta) (ev : Event) :
  delivers wh r msg ->
  S_ msg = SignalEvent ->
  Unmarshal_meta (D msg) = Some meta ->
  verifyToken wh = [] \/ VerifyToken meta = verifyToken wh ->
  ~ (EqualFold (ChannelType meta) (B "WEBHOOK_CHALLENGE") = true /\ Challenge meta <> []) ->
  Unmarshal_Event (D msg) = Some ev ->
  exists acts,
    HandleRequest wh r = Replied (ok200 (Written (jsonText "{'code':0}"))) acts /\
    acts = [RLock; ReadHandlers (Type_ ev); RUnlock]
             ++ map (fun h => Go h ev) (handlersFor wh (Type_ ev)) /\
    disciplined 0 false acts = true /\
    spawned acts = map (fun h => (h, ev)) (handlersFor wh (Type_ ev)) /\
    (forall picks,
       let m := run picks (start acts) in
       down m = None /\
       (forall g h, handlersFor wh (Type_ ev) !! g = Some h ->
          seenOf g (seen m) `prefix_of` callTrace g (h ev)) /\
       (forall o, o ∈ seen m -> (goroutineOf o < length (handlersFor wh (Type_ ev)))%nat) /\
       (allEnded m = true ->
        forall g h, handlersFor wh (Type_ ev) !! g = Some h ->
          seenOf g (seen m) = callTrace g (h ev)) /\
       exists more, allEnded (run (picks ++ more) (start acts)) = true) /\
    (handlersFor wh (Type_ ev) = [] -> spawned acts = []).
Proof.
  intros Hd Hs Hmeta Htok Hnc Hev.
  eexists. split; [|split; [reflexivity|]].
  - rewrite (HandleRequest_delivers _ _ _ Hd).
    rewrite (handleMessage_event _ _ _ Hs Hmeta).
    rewrite decide_False by tauto.
    assert (Hb : EqualFold (ChannelType meta) (B "WEBHOOK_CHALLENGE")
                 && negb (bool_decide (Challenge meta = [])) = false).
    { destruct (EqualFold _ _) eqn:Hf; [|reflexivity]. simpl.
      rewrite bool_decide_eq_true_2; [reflexivity|].
      destruct (decide (Challenge meta = [])); [assumption | tauto]. }
    rewrite Hb. rewrite (handleEvent_parsed _ _ _ Hev). reflexivity.
  - assert (Hsp : spawned ([RLock; ReadHandlers (Type_ ev); RUnlock]
                    ++ map (fun h => Go h ev) (handlersFor wh (Type_ ev)))
                  = map (fun h => (h, ev)) (handlersFor wh (Type_ ev))).
    { change (spawned (map (fun h => Go h ev) (handlersFor wh (Type_ ev)))
              = map (fun h => (h, ev)) (handlersFor wh (Type_ ev))).
      apply spawned_Go. }
    split; [|split; [exact Hsp|split]].
    + change (disciplined 0 false (map (fun h => Go h ev) (handlersFor wh (Type_ ev))) = true).
      apply disciplined_Go.
    + intros picks.
      change (start ([RLock; ReadHandlers (Type_ ev); RUnlock]
                       ++ map (fun h => Go h ev) (handlersFor wh (Type_ ev))))
        with (start (map (fun h => Go h ev) (handlersFor wh (Type_ ev)))).
      intros m.
      destruct (dispatched_run ev (handlersFor wh (Type_ ev)) picks)
        as (Hup & Hcall & Hin & Hall & Hmore).
      fold m in Hup, Hcall, Hin, Hall, Hmore.
      split; [assumption|]. split; [|split; [assumption|split; [assumption|]]].
      * intros g h Hg. exists (rest g m). symmetry. apply (Hcall g h Hg).
      * destruct Hmore as (more & Hmore). exists more. rewrite run_app. exact Hmore.
    + intros Hnone. rewrite Hsp, Hnone. reflexivity.
Qed.
End DispatchFacts.

(** ** Concrete runs *)

(** The spec's scenario: the challenge body, no content encoding, no
    encryption, no verify token configured. *)
Lemma challengeBody_delivered (encryptKey verifyToken : bytes) :
  @delivers asciiLibrary (NewWebhookHandler encryptKey verifyToken)
    (post challengeBody) challengeMessage.
Proof.
  split; [reflexivity|].
  exists challengeBody, challengeBody, challengeBody.
  repeat split; reflexivity.
Qed.

Lemma eventBody_delivered (wh : WebhookHandler) :
  @delivers asciiLibrary wh (post eventBody) eventMessage.
Proof.
  split; [reflexivity|].
  exists eventBody, eventBody, eventBody.
  repeat split; reflexivity.
Qed.

(** Witness of C1: the scenario of the spec is answered with the
    challenge. *)
Lemma challenge_echoed_scenario :
  @HandleRequest asciiLibrary (NewWebhookHandler [] []) (post challengeBody) =
    Replied (ok200 (Encoded (JObject [(B "challenge", JString (B "abc123"))]))) [].
Proof.
  refine (proj1 (@challenge_echoed_after_token_check asciiLibrary
            (NewWebhookHandler [] []) (post challengeBody) challengeMessage
            challengeMeta _ _ _ _ _) _).
  - apply challengeBody_delivered.
  - reflexivity.
  - reflexivity.
  - reflexivity.
  - discriminate.
  - left. reflexivity.
Defined.

(** Counterexample to C1 as stated: the same challenge sent to a handler
    configured with another verify token is answered 401, not echoed. *)
Lemma challenge_with_wrong_token_rejected :
  @delivers asciiLibrary (NewWebhookHandler [] (B "secret"))
    (post challengeBody) challengeMessage /\
  S_ challengeMessage = SignalEvent /\
  @Unmarshal_meta asciiLibrary (D challengeMessage) = Some challengeMeta /\
  @EqualFold asciiLibrary (ChannelType challengeMeta) (B "WEBHOOK_CHALLENGE") = true /\
  Challenge challengeMeta = B "abc123" /\
  @HandleRequest asciiLibrary (NewWebhookHandler [] (B "secret")) (post challengeBody) =
    Replied (http_Error (B "Unauthorized") 401) [].
Proof.
  split; [apply challengeBody_delivered|]. repeat split; reflexivity.
Qed.

(** C2 on the code.  A body that decodes, is not encrypted and parses as
    an event-kind envelope whose data is an array: the metadata does not
    parse, and the answer is 401.  A body that is not an envelope at all
    is answered 400. *)
Theorem malformed_metadata_is_unauthorized :
  @delivers asciiLibrary (NewWebhookHandler [] []) (post (jsonText "{'s':0,'d':[]}"))
    {| S_ := 0; D := Some (JArray []); SN := 0 |} /\
  @Unmarshal_meta asciiLibrary (Some (JArray [])) = None /\
  @HandleRequest asciiLibrary (NewWebhookHandler [] []) (post (jsonText "{'s':0,'d':[]}")) =
    Replied (http_Error (B "Unauthorized") 401) [] /\
  @HandleRequest asciiLibrary (NewWebhookHandler [] []) (post (jsonText "[]")) =
    Replied (http_Error (B "Bad Request") 400) [].
Proof.
  split.
  - split; [reflexivity|].
    exists (jsonText "{'s':0,'d':[]}"), (jsonText "{'s':0,'d':[]}"),
           (jsonText "{'s':0,'d':[]}").
    repeat split; reflexivity.
  - repeat split; reflexivity.
Qed.

(** Witness of C3: an event of type 5 with the token [t1], sent to a
    handler that expects another token and has two handlers registered
    for type 5, is answered 401 and starts nothing. *)
Lemma wrong_token_event_rejected :
  handlersFor {| encryptKey := []; verifyToken := B "secret";
                 eventHandlers := eventHandlers twoHandlers |} 5
    = [failingHandler; quietHandler] /\
  @HandleRequest asciiLibrary
    {| encryptKey := []; verifyToken := B "secret";
       eventHandlers := eventHandlers twoHandlers |}
    (post eventBody) = Replied (http_Error (B "Unauthorized") 401) [].
Proof.
  split; [exact twoHandlers_for_5|].
  refine (proj2 (proj1 (@event_authentication asciiLibrary _ (post eventBody)
            eventMessage eventMeta _ _ _ _) _ _)).
  - apply eventBody_delivered.
  - reflexivity.
  - reflexivity.
  - intros [H _]. discriminate H.
  - discriminate.
  - discriminate.
Defined.

(** Witness of C7: an envelope without an [encrypt] field is passed on as
    it is by a handler that holds a key. *)
Lemma plaintext_passthrough_scenario :
  @tryDecryptBody asciiLibrary (NewWebhookHandler (B "key") []) challengeBody
    = Ok challengeBody.
Proof.
  apply (@tryDecryptBody_plaintext_passthrough asciiLibrary).
  right. exists {| Encrypt := [] |}. split; reflexivity.
Defined.

(** Witness of C8: signal kind 1, with data that would not even parse as
    metadata and a verify token configured. *)
Lemma other_signal_scenario :
  @HandleRequest asciiLibrary (NewWebhookHandler [] (B "secret"))
    (post (jsonText "{'s':1,'d':[]}")) =
    Replied (ok200 (Written (jsonText "{'code':0}"))) [].
Proof.
  refine (proj2 (@other_signal_is_noop asciiLibrary _ _
            {| S_ := 1; D := Some (JArray []); SN := 0 |} _ _)).
  - split; [reflexivity|].
    exists (jsonText "{'s':1,'d':[]}"), (jsonText "{'s':1,'d':[]}"),
           (jsonText "{'s':1,'d':[]}").
    repeat split; reflexivity.
  - discriminate.
Defined.

(** Witness of C9: the event of type 5 reaches both handlers registered
    for it, the broken one first.  The scheduler lets the second take a
    step, then the first run into its panic, then the second go on: both
    calls are seen whole, the panic is logged, and the process is up. *)
Lemma two_handlers_scenario :
  exists acts,
    @HandleRequest asciiLibrary busyHandlers (post eventBody) =
      Replied (ok200 (Written (jsonText "{'code':0}"))) acts /\
    spawned acts = [(brokenHandler, event5); (busyHandler, event5)] /\
    seen (run [1; 0; 0; 1; 1]%nat (start acts)) =
      [Did 1 (B "saw hi"); Did 0 (B "got hi"); Exited 0 (Some (B "boom"));
       Did 1 (B "done"); Exited 1 None] /\
    down (run [1; 0; 0; 1; 1]%nat (start acts)) = None /\
    allEnded (run [1; 0; 0; 1; 1]%nat (start acts)) = true /\
    seenOf 0 (seen (run [1; 0; 0; 1; 1]%nat (start acts))) =
      callTrace 0 (brokenHandler event5) /\
    seenOf 1 (seen (run [1; 0; 0; 1; 1]%nat (start acts))) =
      callTrace 1 (busyHandler event5).
Proof.
  destruct (@dispatch_fans_out asciiLibrary busyHandlers (post eventBody)
              eventMessage eventMeta event5)
    as (acts & Hresp & Hacts & _ & Hsp & Hrun & _).
  - apply eventBody_delivered.
  - reflexivity.
  - reflexivity.
  - left. reflexivity.
  - intros [H _]. discriminate H.
  - reflexivity.
  - exists acts. split; [exact Hresp|].
    change (Type_ event5) with 5 in Hsp, Hacts, Hrun.
    rewrite busyHandlers_for_5 in Hsp, Hacts, Hrun.
    split; [exact Hsp|].
    pose proof (Hrun [1; 0; 0; 1; 1]%nat) as Hpicks. cbv zeta in Hpicks.
    destruct Hpicks as (Hup & _ & _ & Hall & _).
    subst acts.
    split; [reflexivity|]. split; [exact Hup|].
    assert (Hended : allEnded (run [1; 0; 0; 1; 1]%nat
                        (start ([RLock; ReadHandlers 5; RUnlock]
                                  ++ map (fun h => Go h event5)
                                       [brokenHandler; busyHandler]))) = true)
      by reflexivity.
    split; [exact Hended|].
    split; [exact (Hall Hended 0%nat brokenHandler eq_refl)
           | exact (Hall Hended 1%nat busyHandler eq_refl)].
Defined.

Example sampleEncrypted_layout :
  base64_DecodeString sampleEncrypted = Some (sampleIV ++ B "AAAAAAAAAAAAAAAAAAAAAA==") /\
  base64_DecodeString (B "AAAAAAAAAAAAAAAAAAAAAA==") = Some (replicate 16 x00) /\
  CryptBlocks (replicate 32 x00) sampleIV (replicate 16 x00) = Ok samplePadded.
Proof. vm_compute. auto. Qed.

(** Witness of C4: the key [secret] and its zero-padded form decrypt the
    sample alike, and so does a key of 40 bytes that starts with the
    padded form. *)
Lemma short_key_scenario :
  decryptWebhookPayload secretEncrypted (B "secret") = Ok (jsonText "{'s':1}") /\
  decryptWebhookPayload secretEncrypted (B "secret" ++ replicate 26 x00)
    = Ok (jsonText "{'s':1}") /\
  decryptWebhookPayload secretEncrypted (B "secret" ++ replicate 26 x00 ++ B "trailing")
    = Ok (jsonText "{'s':1}").
Proof.
  assert (H0 : decryptWebhookPayload secretEncrypted (B "secret") = Ok (jsonText "{'s':1}"))
    by (vm_compute; reflexivity).
  pose proof (decrypt_key_normalization secretEncrypted (B "secret")
                ltac:(discriminate)) as (Hshort & _ & _).
  pose proof (decrypt_key_normalization secretEncrypted
                (B "secret" ++ replicate 26 x00 ++ B "trailing")
                ltac:(discriminate)) as (_ & Hlong & _).
  split; [exact H0|]. split.
  - rewrite <- H0. symmetry. apply Hshort. reflexivity.
  - rewrite (Hlong ltac:(reflexivity)). rewrite <- H0. symmetry.
    apply Hshort. reflexivity.
Defined.

(** Counterexample to C4 as stated: the empty key is shorter than 32 bytes,
    and it is refused, while its zero-padded form decrypts the sample. *)
Lemma empty_key_differs_from_padded :
  len (@nil byte) < 32 /\
  decryptWebhookPayload sampleEncrypted [] = Err ErrEncryptKeyMissing /\
  decryptWebhookPayload sampleEncrypted ([] ++ replicate (32 - length (@nil byte)) x00)
    = Ok (jsonText "{'s':1}").
Proof. split; [reflexivity|]. split; vm_compute; reflexivity. Qed.

(** Counterexample to C5 as stated: a key is configured, both base64
    layers decode, the payload is longer than 16 bytes and the cipher text
    is one whole block, and decryption fails all the same: the plaintext
    under the key [k] does not end in a valid padding. *)
Lemma decryption_fails_on_padding :
  B "k" <> [] /\
  base64_DecodeString sampleEncrypted = Some (sampleIV ++ B "AAAAAAAAAAAAAAAAAAAAAA==") /\
  16 < len (sampleIV ++ B "AAAAAAAAAAAAAAAAAAAAAA==") /\
  base64_DecodeString (drop 16 (sampleIV ++ B "AAAAAAAAAAAAAAAAAAAAAA=="))
    = Some (replicate 16 x00) /\
  Z.rem (len (replicate 16 x00)) 16 = 0 /\
  decryptWebhookPayload sampleEncrypted (B "k") = Err ErrPKCS7Padding.
Proof.
  split; [discriminate|]. repeat split; vm_compute; reflexivity.
Qed.

(** Witness of C6: the padded sample loses its nine bytes of padding. *)
Lemma unpad_scenario :
  Z.rem (len samplePadded) 16 = 0 /\
  pkcs7Unpad samplePadded 16 = Ok (jsonText "{'s':1}").
Proof.
  split; [reflexivity|].
  pose proof (pkcs7Unpad_checks_padding samplePadded eq_refl) as H.
  change (last samplePadded) with (Some x09) in H. cbv zeta in H.
  destruct H as (_ & _ & H).
  change (Ok (jsonText "{'s':1}"))
    with (Ok (take (length samplePadded - Z.to_nat (b2z x09)) samplePadded)).
  apply H.
  - split; vm_compute; [reflexivity | discriminate].
  - vm_compute. discriminate.
  - vm_compute. repeat constructor.
Defined.

(* ================================================================== *)
(** * Further properties of the webhook handler *)

Lemma z2b_b2z (c : byte) : z2b (b2z c) = c.
Proof.
  unfold z2b. pose proof (b2z_range c) as Hr.
  rewrite Z.mod_small by lia. unfold b2z.
  rewrite N2Z.id, Byte.of_to_N. reflexivity.
Qed.

Lemma b2z_z2b (z : Z) : 0 <= z < 256 -> b2z (z2b z) = z.
Proof.
  intros Hr. unfold z2b. rewrite Z.mod_small by lia.
  destruct (Byte.of_N (Z.to_N z)) as [b|] eqn:Hb.
  - apply Byte.to_of_N in Hb. unfold b2z. rewrite Hb. lia.
  - apply Byte.of_N_None_iff in Hb. lia.
Qed.

(** ** The registry *)

Lemma registerAll_handlersFor (regs : list (Z * EventHandler))
    (wh : WebhookHandler) (t : Z) :
  handlersFor (registerAll wh regs) t = handlersFor wh t ++ registeredFor t regs.
Proof.
  revert wh. induction regs as [|[t' h] regs IH]; intros wh.
  - unfold registeredFor. simpl. rewrite app_nil_r. reflexivity.
  - change (registerAll wh ((t', h) :: regs))
      with (registerAll (fst (OnEvent wh t' h)) regs).
    rewrite IH, OnEvent_handlersFor. unfold registeredFor.
    rewrite filter_cons. cbn [fst].
    destruct (decide (t' = t)) as [->|Hne].
    + rewrite <- app_assoc. reflexivity.
    + reflexivity.
Qed.

Lemma registerAll_settings (regs : list (Z * EventHandler)) (wh : WebhookHandler) :
  encryptKey (registerAll wh regs) = encryptKey wh /\
  verifyToken (registerAll wh regs) = verifyToken wh.
Proof.
  revert wh. induction regs as [|[t' h] regs IH]; intros wh; [split; reflexivity|].
  change (registerAll wh ((t', h) :: regs))
    with (registerAll (fst (OnEvent wh t' h)) regs).
  destruct (IH (fst (OnEvent wh t' h))) as [-> ->]. split; reflexivity.
Qed.

(** X1.  Whatever calls of [OnEvent] are made, in whatever mix of event
    types, the handlers the registry then holds for a type are those it
    held before followed by the ones registered for that type, in call
    order; the key and the verify token are untouched, and each call
    works under the write lock and gives it back. *)
Theorem registry_keeps_registration_order
    (wh : WebhookHandler) (regs : list (Z * EventHandler)) (t : Z) :
  handlersFor (registerAll wh regs) t = handlersFor wh t ++ registeredFor t regs /\
  encryptKey (registerAll wh regs) = encryptKey wh /\
  verifyToken (registerAll wh regs) = verifyToken wh /\
  (forall wh' t' h, disciplined 0 false (snd (OnEvent wh' t' h)) = true).
Proof.
  split; [apply registerAll_handlersFor|].
  destruct (registerAll_settings regs wh) as [Hk Ht].
  repeat split; try assumption.
Qed.

(** ** The paths through the request handler *)

Section PathFacts.
Context {lib : GoLibrary}.

Lemma decodeRequestBody_no_panic (body enc : bytes) (p : panic) :
  decodeRequestBody body enc <> Panic p.
Proof.
  unfold decodeRequestBody. repeat case_decide; try discriminate.
  - destruct (gzip_ReadAll body); discriminate.
  - destruct (zlib_ReadAll body); discriminate.
Qed.

Lemma tryDecryptBody_no_panic (wh : WebhookHandler) (body : bytes) (p : panic) :
  tryDecryptBody wh body <> Panic p.
Proof.
  unfold tryDecryptBody.
  destruct (Unmarshal_encrypted body) as [enc|]; [|discriminate].
  case_decide; [discriminate|]. apply decryptWebhookPayload_no_panic.
Qed.

(** What [handleMessage] can return: an error and no action; a challenge
    (or nothing) and no action; or nothing, with the actions of a
    dispatch. *)
Lemma handleMessage_shape (wh : WebhookHandler) (msg : WebhookMessage) :
  (exists e, handleMessage wh msg = (Err e, [])) \/
  (exists c, handleMessage wh msg = (Ok c, [])) \/
  (exists ev,
     Unmarshal_Event (D msg) = Some ev /\
     handleMessage wh msg =
       (Ok [], [RLock; ReadHandlers (Type_ ev); RUnlock]
                 ++ map (fun h => Go h ev) (handlersFor wh (Type_ ev)))).
Proof.
  unfold handleMessage. case_decide; [right; left; eauto|].
  destruct (Unmarshal_meta (D msg)) as [meta|]; [|left; eauto].
  case_decide; [left; eauto|].
  destruct (_ && _); [right; left; eauto|].
  unfold handleEvent. destruct (Unmarshal_Event (D msg)) as [ev|] eqn:Hev.
  - right. right. exists ev. split; reflexivity.
  - left. eauto.
Qed.

(** The three ways a request goes: it is not a POST; it is a POST that does
    not yield an envelope; or it delivers one to [handleMessage]. *)
Lemma HandleRequest_paths (wh : WebhookHandler) (r : Request) :
  (Method r <> B "POST" /\
   HandleRequest wh r = Replied (http_Error (B "Method Not Allowed") 405) []) \/
  (Method r = B "POST" /\
   HandleRequest wh r = Replied (http_Error (B "Bad Request") 400) []) \/
  (Method r = B "POST" /\
   exists msg, delivers wh r msg /\
               HandleRequest wh r = answer (handleMessage wh msg)).
Proof.
  destruct (decide (Method r = B "POST")) as [Hm|Hm].
  2:{ left. split; [assumption|]. unfold HandleRequest.
      rewrite decide_True by assumption. reflexivity. }
  right. unfold HandleRequest. rewrite decide_False by tauto.
  destruct (Body r) as [raw|] eqn:Hb; [|left; split; [assumption | reflexivity]].
  destruct (decodeRequestBody raw (ContentEncoding r)) as [decoded|e|p] eqn:Hdec.
  - destruct (tryDecryptBody wh decoded) as [plain|e|p] eqn:Hcry.
    + destruct (Unmarshal_WebhookMessage plain) as [msg|] eqn:Hmsg.
      * right. split; [assumption|]. exists msg. split; [|reflexivity].
        split; [assumption|]. exists raw, decoded, plain. auto.
      * left. split; [assumption | reflexivity].
    + left. split; [assumption | reflexivity].
    + exfalso. exact (tryDecryptBody_no_panic _ _ _ Hcry).
  - left. split; [assumption | reflexivity].
  - exfalso. exact (decodeRequestBody_no_panic _ _ _ Hdec).
Qed.

(** X2.  Every request is answered, with one of the status codes 200, 400,
    401 and 405: no step of the handler panics.  The status is 405 exactly
    when the method is not POST. *)
Theorem every_request_is_answered (wh : WebhookHandler) (r : Request) :
  exists resp acts,
    HandleRequest wh r = Replied resp acts /\
    (StatusCode resp = 200 \/ StatusCode resp = 400 \/
     StatusCode resp = 401 \/ StatusCode resp = 405) /\
    (StatusCode resp = 405 <-> Method r <> B "POST").
Proof.
  destruct (HandleRequest_paths wh r) as [[Hm ->] | [[Hm ->] | [Hm (msg & _ & ->)]]].
  - eexists _, _. split; [reflexivity|]. simpl. split; [tauto|]. tauto.
  - eexists _, _. split; [reflexivity|]. simpl. split; [tauto|].
    split; [discriminate | tauto].
  - destruct (handleMessage_shape wh msg) as [[e ->] | [[c ->] | (ev & _ & ->)]];
      unfold answer; try case_decide;
      (eexists _, _; split; [reflexivity|]; simpl; split; [tauto|];
       split; [discriminate | tauto]).
Qed.

(** X3.  What a request sets going: the lock is used as it must be and is
    free in the end; every goroutine started runs a handler that the
    registry holds for the type of the event it is given; and goroutines
    are started only by requests answered 200 with the generic body. *)
Theorem goroutines_only_for_accepted_events (wh : WebhookHandler) (r : Request) :
  disciplined 0 false (actionsOf (HandleRequest wh r)) = true /\
  (forall h ev,
     (h, ev) ∈ spawned (actionsOf (HandleRequest wh r)) ->
     h ∈ handlersFor wh (Type_ ev)) /\
  (spawned (actionsOf (HandleRequest wh r)) <> [] ->
   responseOf (HandleRequest wh r) = Some (ok200 (Written (jsonText "{'code':0}")))).
Proof.
  assert (Hnone : forall resp,
    disciplined 0 false (actionsOf (Replied resp [])) = true /\
    (forall h ev, (h, ev) ∈ spawned (actionsOf (Replied resp [])) ->
                  h ∈ handlersFor wh (Type_ ev)) /\
    (spawned (actionsOf (Replied resp [])) <> [] ->
     responseOf (Replied resp []) = Some (ok200 (Written (jsonText "{'code':0}"))))).
  { intros resp. split; [reflexivity|]. split.
    - intros h ev Hin. inversion Hin.
    - intros Hne. exfalso. apply Hne. reflexivity. }
  destruct (HandleRequest_paths wh r) as [[Hm ->] | [[Hm ->] | [Hm (msg & _ & ->)]]].
  - apply Hnone.
  - apply Hnone.
  - destruct (handleMessage_shape wh msg) as [[e ->] | [[c ->] | (ev & _ & ->)]].
    + apply Hnone.
    + unfold answer. case_decide; apply Hnone.
    + unfold answer. rewrite decide_False by tauto. cbn [actionsOf responseOf].
      assert (Hsp : spawned ([RLock; ReadHandlers (Type_ ev); RUnlock]
                      ++ map (fun h => Go h ev) (handlersFor wh (Type_ ev)))
                    = map (fun h => (h, ev)) (handlersFor wh (Type_ ev))).
      { change (spawned (map (fun h => Go h ev) (handlersFor wh (Type_ ev)))
                = map (fun h => (h, ev)) (handlersFor wh (Type_ ev))).
        apply spawned_Go. }
      rewrite Hsp. split; [|split].
      * change (disciplined 0 false
                  (map (fun h => Go h ev) (handlersFor wh (Type_ ev))) = true).
        apply disciplined_Go.
      * intros h ev' Hin. apply list_elem_of_fmap in Hin as (h' & Heq & Hin').
        injection Heq as -> ->. exact Hin'.
      * reflexivity.
Qed.

Lemma handleMessage_result_handlers
    (key token : bytes) (hs hs' : gmap Z (list EventHandler)) (msg : WebhookMessage) :
  fst (handleMessage {| encryptKey := key; verifyToken := token; eventHandlers := hs |} msg)
  = fst (handleMessage {| encryptKey := key; verifyToken := token; eventHandlers := hs' |} msg).
Proof.
  unfold handleMessage. case_decide; [reflexivity|].
  destruct (Unmarshal_meta (D msg)) as [meta|]; [|reflexivity].
  cbn [verifyToken]. case_decide; [reflexivity|].
  destruct (_ && _); [reflexivity|].
  unfold handleEvent. destruct (Unmarshal_Event (D msg)); reflexivity.
Qed.

Lemma responseOf_answer (res res' : result bytes * list action) :
  fst res = fst res' -> responseOf (answer res) = responseOf (answer res').
Proof.
  destruct res as [x acts], res' as [x' acts']. simpl. intros <-.
  destruct x; [|reflexivity|reflexivity]. case_decide; reflexivity.
Qed.

(** X4.  The answer to a request does not depend on which handlers are
    registered: two handlers with the same key and verify token write the
    same response to every request. *)
Theorem response_independent_of_registry
    (key token : bytes) (hs hs' : gmap Z (list EventHandler)) (r : Request) :
  responseOf (HandleRequest
                {| encryptKey := key; verifyToken := token; eventHandlers := hs |} r)
  = responseOf (HandleRequest
                  {| encryptKey := key; verifyToken := token; eventHandlers := hs' |} r).
Proof.
  unfold HandleRequest. case_decide; [reflexivity|].
  destruct (Body r) as [raw|]; [|reflexivity].
  destruct (decodeRequestBody raw (ContentEncoding r)) as [decoded| |];
    [|reflexivity|reflexivity].
  unfold tryDecryptBody. cbn [encryptKey].
  match goal with |- context [match ?t with Ok _ => _ | Err _ => _ | Panic _ => _ end] =>
    destruct t as [plain| |] end; [|reflexivity|reflexivity].
  destruct (Unmarshal_WebhookMessage plain) as [msg|]; [|reflexivity].
  apply responseOf_answer, handleMessage_result_handlers.
Qed.
End PathFacts.

Section ComposedFacts.
Context {lib : GoLibrary}.

Lemma not_challenge_false (meta : webhookPayloadMeta) :
  ~ (EqualFold (ChannelType meta) (B "WEBHOOK_CHALLENGE") = true /\ Challenge meta <> []) ->
  EqualFold (ChannelType meta) (B "WEBHOOK_CHALLENGE")
    && negb (bool_decide (Challenge meta = [])) = false.
Proof.
  intros Hnc. destruct (EqualFold _ _) eqn:Hf; [|reflexivity]. simpl.
  rewrite bool_decide_eq_true_2; [reflexivity|].
  destruct (decide (Challenge meta = [])); [assumption | tauto].
Qed.

(** X5.  Registration and dispatch together: on a handler built by
    [NewWebhookHandler] and any run of [OnEvent] calls, an event that
    passes the token check and is not a challenge starts one goroutine
    for each handler registered for its type, in the order of the calls,
    and none for the handlers of other types. *)
Theorem registered_handlers_are_started
    (key token : bytes) (regs : list (Z * EventHandler))
    (r : Request) (msg : WebhookMessage) (meta : webhookPayloadMeta) (ev : Event) :
  delivers (registerAll (NewWebhookHandler key token) regs) r msg ->
  S_ msg = SignalEvent ->
  Unmarshal_meta (D msg) = Some meta ->
  token = [] \/ VerifyToken meta = token ->
  ~ (EqualFold (ChannelType meta) (B "WEBHOOK_CHALLENGE") = true /\ Challenge meta <> []) ->
  Unmarshal_Event (D msg) = Some ev ->
  spawned (actionsOf (HandleRequest (registerAll (NewWebhookHandler key token) regs) r))
  = map (fun h => (h, ev)) (registeredFor (Type_ ev) regs).
Proof.
  intros Hd Hs Hmeta Htok Hnc Hev.
  rewrite (HandleRequest_delivers _ _ _ Hd).
  rewrite (handleMessage_event _ _ _ Hs Hmeta).
  destruct (registerAll_settings regs (NewWebhookHandler key token)) as [_ Ht].
  rewrite Ht. cbn [verifyToken NewWebhookHandler].
  rewrite decide_False by tauto.
  rewrite (not_challenge_false _ Hnc).
  rewrite (handleEvent_parsed _ _ _ Hev).
  unfold answer. rewrite decide_False by tauto. cbn [actionsOf].
  change (spawned (map (fun h => Go h ev)
            (handlersFor (registerAll (NewWebhookHandler key token) regs) (Type_ ev)))
          = map (fun h => (h, ev)) (registeredFor (Type_ ev) regs)).
  rewrite spawned_Go, registerAll_handlersFor, handlersFor_new. reflexivity.
Qed.

(** X6.  An encrypted body sent to a handler that holds no key is answered
    400, and nothing is dispatched: the envelope is never taken for
    plaintext. *)
Theorem encrypted_body_without_key_refused
    (wh : WebhookHandler) (r : Request) (raw decoded : bytes)
    (e : encryptedWebhookMessage) :
  Method r = B "POST" ->
  Body r = Some raw ->
  decodeRequestBody raw (ContentEncoding r) = Ok decoded ->
  Unmarshal_encrypted decoded = Some e ->
  Encrypt e <> [] ->
  encryptKey wh = [] ->
  tryDecryptBody wh decoded = Err ErrEncryptKeyMissing /\
  HandleRequest wh r = Replied (http_Error (B "Bad Request") 400) [].
Proof.
  intros Hm Hb Hdec Henc Hne Hkey.
  assert (Hcry : tryDecryptBody wh decoded = Err ErrEncryptKeyMissing).
  { unfold tryDecryptBody. rewrite Henc. rewrite decide_False by assumption.
    rewrite Hkey. reflexivity. }
  split; [exact Hcry|].
  unfold HandleRequest. rewrite decide_False by (rewrite Hm; tauto).
  rewrite Hb, Hdec, Hcry. reflexivity.
Qed.

Lemma delivers_withoutToken (wh : WebhookHandler) (r : Request) (msg : WebhookMessage) :
  delivers wh r msg -> delivers (withoutToken wh) r msg.
Proof.
  intros [Hm (raw & decoded & plain & Hb & Hdec & Hcry & Hmsg)].
  split; [assumption|]. exists raw, decoded, plain. repeat split; assumption.
Qed.

(** X7.  A request whose [verify_token] equals the configured token is
    handled as it would be with no token configured: same answer, same
    actions. *)
Theorem matching_token_as_unconfigured
    (wh : WebhookHandler) (r : Request) (msg : WebhookMessage)
    (meta : webhookPayloadMeta) :
  delivers wh r msg ->
  S_ msg = SignalEvent ->
  Unmarshal_meta (D msg) = Some meta ->
  VerifyToken meta = verifyToken wh ->
  HandleRequest wh r = HandleRequest (withoutToken wh) r.
Proof.
  intros Hd Hs Hmeta Htok.
  rewrite (HandleRequest_delivers _ _ _ Hd).
  rewrite (HandleRequest_delivers _ _ _ (delivers_withoutToken _ _ _ Hd)).
  rewrite !(handleMessage_event _ _ _ Hs Hmeta).
  rewrite decide_False by tauto.
  rewrite (decide_False (P := verifyToken (withoutToken wh) <> [] /\ _))
    by (cbn [verifyToken withoutToken]; tauto).
  reflexivity.
Qed.

(** X8.  Transport decoding and decryption are transparent: a request
    whose body decodes and decrypts to a text that is itself no encryption
    envelope is handled as a plain POST of that text. *)
Theorem decoding_and_decryption_transparent
    (wh : WebhookHandler) (r : Request) (raw decoded plain : bytes) :
  Method r = B "POST" ->
  Body r = Some raw ->
  decodeRequestBody raw (ContentEncoding r) = Ok decoded ->
  tryDecryptBody wh decoded = Ok plain ->
  tryDecryptBody wh plain = Ok plain ->
  HandleRequest wh r = HandleRequest wh (post plain).
Proof.
  intros Hm Hb Hdec Hcry Hplain.
  unfold HandleRequest. rewrite decide_False by (rewrite Hm; tauto).
  rewrite Hb, Hdec, Hcry.
  cbn [post Method Body ContentEncoding].
  rewrite decide_False by tauto.
  change (decodeRequestBody plain []) with (@Ok bytes plain). cbv iota.
  rewrite Hplain. reflexivity.
Qed.
End ComposedFacts.

(** ** Padding and plaintext *)

Lemma Forall_b2z_replicate (l : bytes) (p : Z) :
  Forall (fun c => b2z c = p) l -> l = replicate (length l) (z2b p).
Proof.
  induction 1 as [|c l Hc _ IH]; [reflexivity|].
  simpl. rewrite <- IH, <- Hc, z2b_b2z. reflexivity.
Qed.

Lemma pkcs7Unpad_ok_padded (data out : bytes) (bs : Z) :
  0 < bs ->
  pkcs7Unpad data bs = Ok out ->
  Z.rem (len data) bs = 0 /\
  exists p, 1 <= p <= bs /\ p <= 255 /\ p <= len data /\
            data = out ++ replicate (Z.to_nat p) (z2b p).
Proof.
  intros Hbs. unfold pkcs7Unpad.
  destruct (Z.eqb_spec (len data) 0) as [|Hlen]; [discriminate|].
  destruct (Z.eqb_spec bs 0) as [|_]; [lia|].
  destruct (Z.eqb_spec (Z.rem (len data) bs) 0) as [Hrem|]; [|discriminate].
  cbn [negb]. cbv zeta.
  set (pad := b2z (at_index data (len data - 1))).
  assert (Hpad : 0 <= pad < 256) by apply b2z_range.
  destruct (Z.eqb_spec pad 0) as [|Hp0]; [discriminate|].
  destruct (Z.ltb_spec bs pad) as [|Hpbs]; [discriminate|].
  destruct (Z.ltb_spec (len data) pad) as [|Hpl]; [discriminate|].
  cbn [orb].
  destruct (padBytesOk data pad (len data - pad) (Z.to_nat pad)) eqn:Hok; [|discriminate].
  intros [= <-]. split; [assumption|].
  exists pad. repeat split; try lia.
  unfold len in *.
  replace (Z.of_nat (length data) - pad)
    with (Z.of_nat (length data - Z.to_nat pad)) in * by lia.
  apply padBytesOk_slice in Hok; [|lia].
  rewrite take_ge in Hok by (rewrite length_drop; lia).
  apply Forall_b2z_replicate in Hok. rewrite length_drop in Hok.
  replace (length data - (length data - Z.to_nat pad))%nat with (Z.to_nat pad) in Hok by lia.
  rewrite Nat2Z.id. rewrite <- Hok. symmetry. apply take_drop.
Qed.

Lemma pkcs7Unpad_padded_ok (out : bytes) (bs p : Z) :
  0 < bs -> 1 <= p <= bs -> p <= 255 ->
  Z.rem (len (out ++ replicate (Z.to_nat p) (z2b p))) bs = 0 ->
  pkcs7Unpad (out ++ replicate (Z.to_nat p) (z2b p)) bs = Ok out.
Proof.
  intros Hbs Hp Hp255 Hrem.
  set (data := out ++ replicate (Z.to_nat p) (z2b p)) in *.
  assert (Hlen : length data = (length out + Z.to_nat p)%nat).
  { unfold data. rewrite length_app, length_replicate. reflexivity. }
  assert (Hlast : at_index data (len data - 1) = z2b p).
  { unfold at_index, len. rewrite Hlen.
    replace (Z.to_nat (Z.of_nat (length out + Z.to_nat p) - 1))
      with (length out + (Z.to_nat p - 1))%nat by lia.
    rewrite nth_lookup. unfold data.
    rewrite lookup_app_r by lia.
    replace (length out + (Z.to_nat p - 1) - length out)%nat
      with (Z.to_nat p - 1)%nat by lia.
    rewrite lookup_replicate_2 by lia. reflexivity. }
  unfold pkcs7Unpad.
  destruct (Z.eqb_spec (len data) 0) as [H0|_]; [unfold len in H0; lia|].
  destruct (Z.eqb_spec bs 0) as [|_]; [lia|].
  rewrite Hrem. cbn [Z.eqb negb]. cbv zeta.
  rewrite Hlast, (b2z_z2b p) by lia.
  destruct (Z.eqb_spec p 0) as [|_]; [lia|].
  destruct (Z.ltb_spec bs p) as [|_]; [lia|].
  destruct (Z.ltb_spec (len data) p) as [Hlt|_]; [unfold len in Hlt; lia|].
  cbn [orb].
  assert (Hk : len data - p = Z.of_nat (length out)) by (unfold len; lia).
  rewrite Hk, Nat2Z.id.
  assert (Hok : padBytesOk data p (Z.of_nat (length out)) (Z.to_nat p) = true).
  { apply padBytesOk_slice; [lia|].
    unfold data. rewrite drop_app_length.
    rewrite take_ge by (rewrite length_replicate; lia).
    apply Forall_replicate. apply b2z_z2b. lia. }
  rewrite Hok. unfold data. rewrite take_app_length. reflexivity.
Qed.

(** X9.  For a block size above zero, [pkcs7Unpad] inverts PKCS7 padding
    and accepts nothing else: it returns [out] exactly when the length of
    the buffer is a multiple of the block size and the buffer is [out]
    followed by [p] bytes of value [p], for some [p] from 1 to the block
    size. *)
Theorem pkcs7Unpad_inverts_padding (data out : bytes) (bs : Z) :
  0 < bs ->
  (pkcs7Unpad data bs = Ok out
   <-> Z.rem (len data) bs = 0 /\
       exists p, 1 <= p <= bs /\ p <= 255 /\
                 data = out ++ replicate (Z.to_nat p) (z2b p)).
Proof.
  intros Hbs. split.
  - intros H. destruct (pkcs7Unpad_ok_padded _ _ _ Hbs H) as (Hrem & p & H1 & H2 & _ & H4).
    split; [assumption|]. exists p. auto.
  - intros (Hrem & p & H1 & H2 & ->). apply pkcs7Unpad_padded_ok; assumption.
Qed.

(** X10.  When [decryptWebhookPayload] returns a plaintext, both base64
    layers decoded, the cipher text was a whole number of blocks, and the
    plaintext is shorter than the cipher text by the padding, 1 to 16
    bytes. *)
Theorem decrypted_plaintext_shorter_by_padding (encrypted key plain : bytes) :
  decryptWebhookPayload encrypted key = Ok plain ->
  key <> [] /\
  exists payload cipherText,
    base64_DecodeString encrypted = Some payload /\
    16 < len payload /\
    base64_DecodeString (drop 16 payload) = Some cipherText /\
    Z.rem (len cipherText) 16 = 0 /\
    1 <= len cipherText - len plain <= 16.
Proof.
  intros H.
  destruct (decide (key = [])) as [->|Hk]; [discriminate|].
  split; [assumption|].
  rewrite decryptWebhookPayload_with_key in H by assumption.
  destruct (base64_DecodeString encrypted) as [payload|]; [|discriminate].
  destruct (Z.leb_spec (len payload) 16) as [|Hlong]; [discriminate|].
  destruct (base64_DecodeString (drop 16 payload)) as [ct|] eqn:Hin; [|discriminate].
  destruct (Z.eqb_spec (Z.rem (len ct) 16) 0) as [Hal|]; [|discriminate].
  cbn [negb] in H.
  destruct (CryptBlocks (normalize32 key) (take 16 payload) ct) as [padded| |] eqn:Hcb;
    [|discriminate|discriminate].
  change (pkcs7Unpad padded 16 = Ok plain) in H.
  destruct (decrypted_plaintext_aligned _ _ _ _ Hlong Hal Hcb) as [Hl _].
  destruct (pkcs7Unpad_ok_padded padded plain 16 ltac:(lia) H)
    as (_ & p & Hp & _ & _ & Hdata).
  assert (Hlen : len padded = len plain + p).
  { rewrite Hdata at 1. unfold len. rewrite length_app, length_replicate. lia. }
  exists payload, ct. repeat split; try assumption; lia.
Qed.

(** ** Concrete runs of the further properties *)

(** Witness of X5: of three registrations, the two for type 5 are started
    by an event of type 5, the failing one first. *)
Lemma mixed_registrations_scenario :
  spawned (actionsOf (@HandleRequest asciiLibrary
             (registerAll (NewWebhookHandler [] (B "t1")) mixedRegistrations)
             (post eventBody)))
  = [(failingHandler, event5); (quietHandler, event5)].
Proof.
  refine (@registered_handlers_are_started asciiLibrary [] (B "t1") mixedRegistrations
            (post eventBody) eventMessage eventMeta event5 _ _ _ _ _ _).
  - apply eventBody_delivered.
  - reflexivity.
  - reflexivity.
  - right. reflexivity.
  - intros [H _]. discriminate H.
  - reflexivity.
Defined.

(** Witness of X6: the sample envelope sent to a handler without a key. *)
Lemma envelope_without_key_scenario :
  @HandleRequest asciiLibrary (NewWebhookHandler [] [])
    (post (envelopeOf "HEVvw8CgoOIGhrK6b7w4vUFBQUFBQUFBQUFBQUFBQUFBQUFBQUE9PQ=="))
  = Replied (http_Error (B "Bad Request") 400) [].
Proof.
  refine (proj2 (@encrypted_body_without_key_refused asciiLibrary
            (NewWebhookHandler [] []) _ _ _ {| Encrypt := sampleEncrypted |}
            _ _ _ _ _ _)).
  - reflexivity.
  - reflexivity.
  - reflexivity.
  - vm_compute. reflexivity.
  - discriminate.
  - reflexivity.
Defined.

(** Witness of X7: the event with token [t1] at a handler configured with
    [t1]. *)
Lemma matching_token_scenario :
  @HandleRequest asciiLibrary
    {| encryptKey := []; verifyToken := B "t1";
       eventHandlers := eventHandlers twoHandlers |} (post eventBody)
  = @HandleRequest asciiLibrary twoHandlers (post eventBody).
Proof.
  refine (@matching_token_as_unconfigured asciiLibrary
            {| encryptKey := []; verifyToken := B "t1";
               eventHandlers := eventHandlers twoHandlers |}
            (post eventBody) eventMessage eventMeta _ _ _ _).
  - apply eventBody_delivered.
  - reflexivity.
  - reflexivity.
  - reflexivity.
Defined.

(** Witness of X8: the sample envelope, under the zero key, is handled as
    its plaintext [{"s":1}] is. *)
Lemma encrypted_envelope_scenario :
  @HandleRequest asciiLibrary (NewWebhookHandler zeroKey [])
    (post (envelopeOf "HEVvw8CgoOIGhrK6b7w4vUFBQUFBQUFBQUFBQUFBQUFBQUFBQUE9PQ=="))
  = @HandleRequest asciiLibrary (NewWebhookHandler zeroKey [])
      (post (jsonText "{'s':1}")).
Proof.
  refine (@decoding_and_decryption_transparent asciiLibrary
            (NewWebhookHandler zeroKey []) _
            (envelopeOf "HEVvw8CgoOIGhrK6b7w4vUFBQUFBQUFBQUFBQUFBQUFBQUFBQUE9PQ==")
            (envelopeOf "HEVvw8CgoOIGhrK6b7w4vUFBQUFBQUFBQUFBQUFBQUFBQUFBQUE9PQ==")
            (jsonText "{'s':1}") _ _ _ _ _).
  - reflexivity.
  - reflexivity.
  - reflexivity.
  - vm_compute. reflexivity.
  - vm_compute. reflexivity.
Defined.

(** Witness of X9: block size 8, three bytes of text and five of padding. *)
Lemma unpad_block8_scenario :
  pkcs7Unpad (B "abc" ++ replicate 5 x05) 8 = Ok (B "abc").
Proof.
  refine (proj2 (pkcs7Unpad_inverts_padding (B "abc" ++ replicate 5 x05) (B "abc") 8 _) _).
  - reflexivity.
  - split; [reflexivity|]. exists 5. repeat split; try reflexivity; discriminate.
Defined.

(** Witness of X10: the sample payload, one block of cipher text and seven
    bytes of plaintext. *)
Lemma sample_plaintext_length_scenario :
  zeroKey <> [] /\
  exists payload cipherText,
    base64_DecodeString sampleEncrypted = Some payload /\
    16 < len payload /\
    base64_DecodeString (drop 16 payload) = Some cipherText /\
    Z.rem (len cipherText) 16 = 0 /\
    1 <= len cipherText - len (jsonText "{'s':1}") <= 16.
Proof.
  apply (decrypted_plaintext_shorter_by_padding sampleEncrypted zeroKey).
  vm_compute. reflexivity.
Defined.

(* ================================================================== *)
(** * Properties of the message service *)

Module MessageFacts.
Import MessageService.

Ltac keys_differ :=
  let H := fresh in intros H; vm_compute in H; discriminate H.

(** Membership in a list that is written out. *)
Ltac in_keys :=
  rewrite ?elem_of_cons, ?elem_of_nil in *; subst; tauto.

Lemma lookup_setStr_ne (k k' v : bytes) (m : gmap bytes paramValue) :
  k <> k' -> setStr k v m !! k' = m !! k'.
Proof.
  intros Hne. unfold setStr. case_decide; [reflexivity|].
  apply lookup_insert_ne. assumption.
Qed.

Lemma lookup_setStr_eq (k v : bytes) (m : gmap bytes paramValue) :
  v <> [] -> setStr k v m !! k = Some (PStr v).
Proof.
  intros Hne. unfold setStr. rewrite decide_False by assumption.
  apply lookup_insert_eq.
Qed.

Lemma lookup_setQuery_ne (k k' v : bytes) (m : gmap bytes bytes) :
  k <> k' -> setQuery k v m !! k' = m !! k'.
Proof.
  intros Hne. unfold setQuery. case_decide; [reflexivity|].
  apply lookup_insert_ne. assumption.
Qed.

Lemma lookup_setQuery_eq (k v : bytes) (m : gmap bytes bytes) :
  v <> [] -> setQuery k v m !! k = Some v.
Proof.
  intros Hne. unfold setQuery. rewrite decide_False by assumption.
  apply lookup_insert_eq.
Qed.

Section ScopeFacts.
Context {lib : GoLibrary}.

Lemma normalizeMessageScope_values (scope o : bytes) :
  normalizeMessageScope scope = Value o ->
  (o = B "channel" \/ o = B "private") /\ normalizeMessageScope o = Value o.
Proof.
  unfold normalizeMessageScope at 1. repeat case_decide; intros [= <-].
  - split; [left; reflexivity | reflexivity].
  - split; [right; reflexivity | reflexivity].
Qed.

(** X11.  [normalizeMessageScope] sorts every scope it accepts into
    [channel] or [private], looking only at the trimmed, lowered form of
    its argument; what it returns is a scope it accepts and maps to
    itself; and what it refuses it names in the error as it was given. *)
Theorem normalizeMessageScope_classifies (scope : bytes) :
  (forall o, normalizeMessageScope scope = Value o ->
     (o = B "channel" \/ o = B "private") /\
     normalizeMessageScope o = Value o /\
     forall scope', ToLower (TrimSpace scope') = ToLower (TrimSpace scope) ->
                    normalizeMessageScope scope' = Value o) /\
  (forall e, normalizeMessageScope scope = Failure e -> e = ErrInvalidScope scope) /\
  (normalizeMessageScope (B "") = Value (B "channel") /\
   normalizeMessageScope (B " Guild ") = Value (B "channel") /\
   normalizeMessageScope (B "DM") = Value (B "private") /\
   normalizeMessageScope (B "direct") = Value (B "private")).
Proof.
  split; [|split].
  - intros o Ho. destruct (normalizeMessageScope_values _ _ Ho) as [Hv Hfix].
    split; [assumption|]. split; [assumption|].
    intros scope' Heq. unfold normalizeMessageScope in *. rewrite Heq.
    repeat case_decide; try assumption; discriminate.
  - intros e. unfold normalizeMessageScope. repeat case_decide; intros [= <-].
    reflexivity.
  - repeat split; reflexivity.
Qed.
End ScopeFacts.

Lemma validateCardContent_ok_iff (content : bytes) :
  validateCardContent content = None
  <-> exists v vs, parseJSON content = Some (JArray (v :: vs)).
Proof.
  unfold validateCardContent, Unmarshal_rawSlice.
  destruct (parseJSON content) as [j|]; simpl.
  - destruct j as [| | | |vs|]; simpl;
      try (split; [discriminate | intros (v & vs' & [=])]).
    destruct vs as [|v vs].
    + split; [discriminate | intros (v & vs' & [=])].
    + split; [eauto | reflexivity].
  - split; [discriminate | intros (v & vs' & [=])].
Qed.

(** X12.  [validateCardContent] accepts exactly the texts that are a JSON
    array with at least one element.  The empty array and [null] are
    refused as holding no card, everything else as not being an array. *)
Theorem validateCardContent_accepts_nonempty_arrays (content : bytes) :
  (validateCardContent content = None
   <-> exists v vs, parseJSON content = Some (JArray (v :: vs))) /\
  (validateCardContent content = Some ErrCardEmpty
   <-> parseJSON content = Some (JArray []) \/ parseJSON content = Some JNull) /\
  (validateCardContent content = Some ErrCardNotArray
   <-> parseJSON content = None \/
       exists j, parseJSON content = Some j /\
                 j <> JNull /\ forall vs, j <> JArray vs).
Proof.
  split; [apply validateCardContent_ok_iff|].
  unfold validateCardContent, Unmarshal_rawSlice.
  destruct (parseJSON content) as [j|]; simpl.
  - destruct j as [|b|lit|s|vs|ms]; simpl.
    + split; [split; [auto | reflexivity]|].
      split; [discriminate|]. intros [[=] | (j & [= <-] & Hn & _)]. congruence.
    + split; [split; [discriminate | intros [[=]|[=]]]|].
      split; [|reflexivity]. intros _. right. eexists. split; [reflexivity|].
      split; [discriminate | intros vs; discriminate].
    + split; [split; [discriminate | intros [[=]|[=]]]|].
      split; [|reflexivity]. intros _. right. eexists. split; [reflexivity|].
      split; [discriminate | intros vs; discriminate].
    + split; [split; [discriminate | intros [[=]|[=]]]|].
      split; [|reflexivity]. intros _. right. eexists. split; [reflexivity|].
      split; [discriminate | intros vs; discriminate].
    + destruct vs as [|v vs]; simpl.
      * split; [split; [auto | reflexivity]|].
        split; [discriminate|]. intros [[=] | (j & [= <-] & _ & Hn)].
        exfalso. exact (Hn [] eq_refl).
      * split; [split; [discriminate | intros [[=]|[=]]]|].
        split; [discriminate|]. intros [[=] | (j & [= <-] & _ & Hn)].
        exfalso. exact (Hn _ eq_refl).
    + split; [split; [discriminate | intros [[=]|[=]]]|].
      split; [|reflexivity]. intros _. right. eexists. split; [reflexivity|].
      split; [discriminate | intros vs; discriminate].
  - split; [split; [discriminate | intros [[=]|[=]]]|].
    split; [auto | reflexivity].
Qed.

Section SendFacts.
Context {lib : GoLibrary} {decls : Declarations}.

(** The end of [SendMessage], from the reply of the client on. *)
Lemma SendMessage_unfold (client : Client) (params : SendMessageParams) :
  @SendMessage lib decls client params =
    match normalizeMessageScope (Type_ params) with
    | Failure e => Failure e
    | Value scope =>
        match (if decide (scope = B "private") then
                 if decide (TargetID params = [] /\ ChatCode params = [])
                 then Failure ErrPrivateTarget
                 else Value (B "direct-message/create",
                             setStr (B "chat_code") (ChatCode params)
                               (setStr (B "target_id") (TargetID params) ∅))
               else
                 if decide (TargetID params = []) then Failure ErrChannelTarget
                 else Value (B "message/create",
                             <[B "target_id" := PStr (TargetID params)]> ∅)) with
        | Failure e => Failure e
        | Value (endpoint, base) =>
            if decide (Content params = []) then Failure ErrContentEmpty
            else
              let msgType :=
                if MsgType params <=? 0 then
                  if decide (scope = B "private") then MessageTypeText else MessageTypeKMD
                else MsgType params in
              match (if decide (msgType = MessageTypeCard)
                     then validateCardContent (Content params) else None) with
              | Some e => Failure e
              | None =>
                  match Post endpoint
                          (setStr (B "reply_msg_id") (ReplyMsgID params)
                          (setStr (B "template_id") (TemplateID params)
                          (setStr (B "temp_target_id") (TempTargetID params)
                          (setStr (B "nonce") (Nonce params)
                          (setStr (B "quote") (Quote params)
                          (<[B "type" := PInt msgType]>
                          (<[B "content" := PStr (Content params)]> base)))))))
                  with
                  | inl e => Failure (ErrClient e)
                  | inr data =>
                      match Unmarshal_created data with
                      | None => Failure ErrParseMessage
                      | Some c =>
                          Value (newMessage (CreatedMsgID c) msgType (Content params)
                                   (MsgTimestamp c))
                      end
                  end
              end
        end
    end.
Proof.
  unfold SendMessage.
  destruct (normalizeMessageScope (Type_ params)) as [scope|e]; [|reflexivity].
  simpl. repeat case_decide; reflexivity.
Qed.

Lemma base_target (scope : bytes) (params : SendMessageParams)
    (endpoint : bytes) (base : gmap bytes paramValue) :
  (if decide (scope = B "private") then
     if decide (TargetID params = [] /\ ChatCode params = [])
     then Failure ErrPrivateTarget
     else Value (B "direct-message/create",
                 setStr (B "chat_code") (ChatCode params)
                   (setStr (B "target_id") (TargetID params) ∅))
   else
     if decide (TargetID params = []) then Failure ErrChannelTarget
     else Value (B "message/create",
                 <[B "target_id" := PStr (TargetID params)]> ∅)) = Value (endpoint, base) ->
  (endpoint = B "direct-message/create" \/ endpoint = B "message/create") /\
  (TargetID params <> [] /\ base !! B "target_id" = Some (PStr (TargetID params)) \/
   ChatCode params <> [] /\ base !! B "chat_code" = Some (PStr (ChatCode params))) /\
  (endpoint = B "message/create" ->
   TargetID params <> [] /\ base !! B "target_id" = Some (PStr (TargetID params))) /\
  (forall k v, base !! k = Some v -> k = B "target_id" \/ k = B "chat_code").
Proof.
  repeat case_decide; intros [= <- <-].
  - split; [left; reflexivity|]. split; [|split].
    + destruct (decide (ChatCode params = [])) as [Hc|Hc].
      * left. assert (Ht : TargetID params <> []) by tauto.
        split; [assumption|].
        rewrite lookup_setStr_ne by keys_differ. apply lookup_setStr_eq. assumption.
      * right. split; [assumption|]. apply lookup_setStr_eq. assumption.
    + intros Habs. vm_compute in Habs. discriminate Habs.
    + intros k v. unfold setStr. repeat case_decide;
        rewrite ?lookup_insert_Some, ?lookup_empty; intros Hl;
        repeat match goal with
               | H : _ /\ _ |- _ => destruct H
               | H : _ \/ _ |- _ => destruct H
               end; subst; auto; discriminate.
  - split; [right; reflexivity|]. split; [|split].
    + left. split; [assumption|]. apply lookup_insert_eq.
    + intros _. split; [assumption|]. apply lookup_insert_eq.
    + intros k v. rewrite lookup_insert_Some, lookup_empty. intros [[<- _]|[_ [=]]].
      left. reflexivity.
Qed.

Lemma lookup_setStr_Some (k k' v : bytes) (x : paramValue) (m : gmap bytes paramValue) :
  setStr k v m !! k' = Some x -> k' = k \/ m !! k' = Some x.
Proof.
  unfold setStr. case_decide; [auto|].
  rewrite lookup_insert_Some. intros [[<- _]|[_ H']]; auto.
Qed.

(** The keys that [SendMessage] may put into a request. *)
Lemma request_keys (k : bytes) (v : paramValue) (p : SendMessageParams) (t : Z)
    (base : gmap bytes paramValue) :
  setStr (B "reply_msg_id") (ReplyMsgID p)
    (setStr (B "template_id") (TemplateID p)
    (setStr (B "temp_target_id") (TempTargetID p)
    (setStr (B "nonce") (Nonce p)
    (setStr (B "quote") (Quote p)
    (<[B "type" := PInt t]>
    (<[B "content" := PStr (Content p)]> base)))))) !! k = Some v ->
  k ∈ [B "reply_msg_id"; B "template_id"; B "temp_target_id"; B "nonce";
       B "quote"; B "type"; B "content"] \/ base !! k = Some v.
Proof.
  intros Hl.
  repeat (apply lookup_setStr_Some in Hl as [->|Hl]; [left; clear; in_keys|]).
  apply lookup_insert_Some in Hl as [[<- _]|[_ Hl]]; [left; clear; in_keys|].
  apply lookup_insert_Some in Hl as [[<- _]|[_ Hl]]; [left; clear; in_keys|].
  right. assumption.
Qed.

(** The two ways a call of [SendMessage] goes. *)
Lemma SendMessage_cases (params : SendMessageParams) :
  (exists e, forall client : Client, SendMessage params = Failure e) \/
  (exists endpoint req msgType,
     (endpoint = B "direct-message/create" \/ endpoint = B "message/create") /\
     Content params <> [] /\
     req !! B "content" = Some (PStr (Content params)) /\
     req !! B "type" = Some (PInt msgType) /\
     (0 < MsgType params -> msgType = MsgType params) /\
     (MsgType params <= 0 -> msgType = MessageTypeText \/ msgType = MessageTypeKMD) /\
     (msgType = MessageTypeCard -> validateCardContent (Content params) = None) /\
     (TargetID params <> [] /\ req !! B "target_id" = Some (PStr (TargetID params)) \/
      ChatCode params <> [] /\ req !! B "chat_code" = Some (PStr (ChatCode params))) /\
     (endpoint = B "message/create" ->
      req !! B "target_id" = Some (PStr (TargetID params)) /\ TargetID params <> []) /\
     (forall k v, req !! k = Some v ->
        k ∈ [B "target_id"; B "chat_code"; B "content"; B "type"; B "quote";
             B "nonce"; B "temp_target_id"; B "template_id"; B "reply_msg_id"]) /\
     forall client : Client,
       SendMessage params =
         match Post endpoint req with
         | inl e => Failure (ErrClient e)
         | inr data =>
             match Unmarshal_created data with
             | None => Failure ErrParseMessage
             | Some c =>
                 Value (newMessage (CreatedMsgID c) msgType (Content params)
                          (MsgTimestamp c))
             end
         end).
Proof.
  destruct (normalizeMessageScope (Type_ params)) as [scope|e] eqn:Hscope.
  2:{ left. exists e. intros client. rewrite SendMessage_unfold, Hscope. reflexivity. }
  match type of Hscope with _ = Value ?s =>
    remember (if decide (s = B "private") then
                if decide (TargetID params = [] /\ ChatCode params = [])
                then Failure ErrPrivateTarget
                else Value (B "direct-message/create",
                            setStr (B "chat_code") (ChatCode params)
                              (setStr (B "target_id") (TargetID params) ∅))
              else
                if decide (TargetID params = []) then Failure ErrChannelTarget
                else Value (B "message/create",
                            <[B "target_id" := PStr (TargetID params)]> ∅))
      as target eqn:Htarget end.
  destruct target as [[endpoint base]|e].
  2:{ left. exists e. intros client.
      rewrite SendMessage_unfold, Hscope, <- Htarget. reflexivity. }
  destruct (decide (Content params = [])) as [Hc|Hc].
  { left. exists ErrContentEmpty. intros client.
    rewrite SendMessage_unfold, Hscope, <- Htarget.
    rewrite decide_True by assumption. reflexivity. }
  set (msgType := if MsgType params <=? 0 then
                    if decide (scope = B "private") then MessageTypeText
                    else MessageTypeKMD
                  else MsgType params).
  destruct (if decide (msgType = MessageTypeCard)
            then validateCardContent (Content params) else None) as [e|] eqn:Hcard.
  { left. exists e. intros client.
    rewrite SendMessage_unfold, Hscope, <- Htarget.
    rewrite decide_False by assumption. cbv zeta. fold msgType.
    rewrite Hcard. reflexivity. }
  symmetry in Htarget.
  destruct (base_target _ _ _ _ Htarget) as (Hep & Htgt & Hch & Hkeys).
  right.
  exists endpoint,
    (setStr (B "reply_msg_id") (ReplyMsgID params)
    (setStr (B "template_id") (TemplateID params)
    (setStr (B "temp_target_id") (TempTargetID params)
    (setStr (B "nonce") (Nonce params)
    (setStr (B "quote") (Quote params)
    (<[B "type" := PInt msgType]>
    (<[B "content" := PStr (Content params)]> base))))))),
    msgType.
  assert (Hthrough : forall k,
    k <> B "reply_msg_id" -> k <> B "template_id" -> k <> B "temp_target_id" ->
    k <> B "nonce" -> k <> B "quote" ->
    setStr (B "reply_msg_id") (ReplyMsgID params)
      (setStr (B "template_id") (TemplateID params)
      (setStr (B "temp_target_id") (TempTargetID params)
      (setStr (B "nonce") (Nonce params)
      (setStr (B "quote") (Quote params)
      (<[B "type" := PInt msgType]>
      (<[B "content" := PStr (Content params)]> base)))))) !! k
    = <[B "type" := PInt msgType]>
        (<[B "content" := PStr (Content params)]> base) !! k).
  { intros k H1 H2 H3 H4 H5.
    rewrite !lookup_setStr_ne by (intros Heq; symmetry in Heq; contradiction).
    reflexivity. }
  split; [assumption|]. split; [assumption|].
  split.
  { rewrite Hthrough by keys_differ.
    rewrite lookup_insert_ne by keys_differ. apply lookup_insert_eq. }
  split.
  { rewrite Hthrough by keys_differ. apply lookup_insert_eq. }
  split.
  { intros Hpos. clear Hcard. subst msgType.
    rewrite (proj2 (Z.leb_gt _ _)) by lia. reflexivity. }
  split.
  { intros Hle. clear Hcard. subst msgType.
    rewrite (proj2 (Z.leb_le _ _)) by lia.
    destruct (decide (scope = B "private")); [left | right]; reflexivity. }
  split.
  { intros Heq. rewrite decide_True in Hcard by assumption. assumption. }
  split.
  { destruct Htgt as [[Ht Hl]|[Ht Hl]]; [left|right]; (split; [assumption|]);
      rewrite Hthrough by keys_differ;
      rewrite !lookup_insert_ne by keys_differ; assumption. }
  split.
  { intros Hm. destruct (Hch Hm) as [Ht Hl]. split; [|assumption].
    rewrite Hthrough by keys_differ.
    rewrite !lookup_insert_ne by keys_differ. assumption. }
  split.
  { intros k v Hl. apply request_keys in Hl as [Hin|Hl].
    - clear - Hin. in_keys.
    - clear - Hkeys Hl. destruct (Hkeys _ _ Hl) as [->| ->]; clear; in_keys. }
  intros client. rewrite SendMessage_unfold, Hscope, Htarget.
  rewrite decide_False by assumption. cbv zeta. fold msgType.
  rewrite Hcard. reflexivity.
Qed.

(** X13.  [SendMessage] either refuses its argument, with the same error
    whatever the client is, or makes one call, and then: the endpoint is
    one of the two create endpoints; the request carries the content,
    which is not empty, and the message type; a target is named, by
    [target_id] or, for a private message, by [chat_code]; a message of
    the card type has passed [validateCardContent]; no key outside the
    nine the API knows is sent; and what comes back is the client's
    error, a parse error, or the message made of the reply's [msg_id] and
    [msg_timestamp] with the type and content sent. *)
Theorem SendMessage_makes_well_formed_requests (params : SendMessageParams) :
  (exists e, forall client : Client, SendMessage params = Failure e) \/
  (exists endpoint req msgType,
     (endpoint = B "direct-message/create" \/ endpoint = B "message/create") /\
     Content params <> [] /\
     req !! B "content" = Some (PStr (Content params)) /\
     req !! B "type" = Some (PInt msgType) /\
     (0 < MsgType params -> msgType = MsgType params) /\
     (MsgType params <= 0 -> msgType = MessageTypeText \/ msgType = MessageTypeKMD) /\
     (msgType = MessageTypeCard -> validateCardContent (Content params) = None) /\
     (TargetID params <> [] /\ req !! B "target_id" = Some (PStr (TargetID params)) \/
      ChatCode params <> [] /\ req !! B "chat_code" = Some (PStr (ChatCode params))) /\
     (endpoint = B "message/create" ->
      req !! B "target_id" = Some (PStr (TargetID params)) /\ TargetID params <> []) /\
     (forall k v, req !! k = Some v ->
        k ∈ [B "target_id"; B "chat_code"; B "content"; B "type"; B "quote";
             B "nonce"; B "temp_target_id"; B "template_id"; B "reply_msg_id"]) /\
     forall client : Client,
       SendMessage params =
         match Post endpoint req with
         | inl e => Failure (ErrClient e)
         | inr data =>
             match Unmarshal_created data with
             | None => Failure ErrParseMessage
             | Some c =>
                 Value (newMessage (CreatedMsgID c) msgType (Content params)
                          (MsgTimestamp c))
             end
         end).
Proof. exact (SendMessage_cases params). Qed.

(** X14.  The [Type] of the parameters matters to [SendMessage] only
    through the scope it normalises to: two spellings of one scope give
    the same call and the same result. *)
Theorem SendMessage_depends_on_scope_only
    (client : Client) (params : SendMessageParams) (scope' s : bytes) :
  normalizeMessageScope (Type_ params) = Value s ->
  normalizeMessageScope scope' = Value s ->
  SendMessage params = SendMessage (withScope params scope').
Proof.
  intros H H'. rewrite !SendMessage_unfold.
  cbn [withScope Type_ TargetID ChatCode Content MsgType Quote Nonce
       TempTargetID TemplateID ReplyMsgID].
  rewrite H, H'. reflexivity.
Qed.

(** X15.  With a card type above zero, [SendCardMessage] sends cards
    only: it either refuses its argument, whatever the client, or makes
    one call whose request has the card type and a content that is a JSON
    array with at least one element, and the message it returns has the
    card type. *)
Theorem SendCardMessage_sends_cards_only (params : SendMessageParams) :
  0 < MessageTypeCard ->
  (exists e, forall client : Client, SendCardMessage params = Failure e) \/
  (exists endpoint req,
     req !! B "type" = Some (PInt MessageTypeCard) /\
     req !! B "content" = Some (PStr (Content params)) /\
     (exists v vs, parseJSON (Content params) = Some (JArray (v :: vs))) /\
     forall client : Client,
       SendCardMessage params =
         match Post endpoint req with
         | inl e => Failure (ErrClient e)
         | inr data =>
             match Unmarshal_created data with
             | None => Failure ErrParseMessage
             | Some c =>
                 Value (newMessage (CreatedMsgID c) MessageTypeCard (Content params)
                          (MsgTimestamp c))
             end
         end).
Proof.
  intros Hcard. unfold SendCardMessage.
  destruct (validateCardContent (Content params)) as [e|] eqn:Hv.
  { left. exists e. intros client. reflexivity. }
  destruct (SendMessage_cases (withMsgType params MessageTypeCard))
    as [[e He] | (endpoint & req & msgType & _ & _ & Hc & Ht & Hpos & _ & _ & _ & _ & _ & Hcall)].
  - left. exists e. intros client. apply He.
  - right. cbn [withMsgType MsgType Content] in *.
    specialize (Hpos Hcard). subst msgType.
    exists endpoint, req. split; [assumption|]. split; [assumption|].
    split; [apply validateCardContent_ok_iff; assumption|].
    intros client. apply Hcall.
Qed.
End SendFacts.

(** ** Message lists *)

Lemma digitsValue_snoc (ds : bytes) (d : byte) :
  digitsValue (ds ++ [d]) = 10 * digitsValue ds + (b2z d - 48).
Proof. unfold digitsValue. rewrite fold_left_app. reflexivity. Qed.

Lemma digit_byte (v : Z) :
  0 <= v ->
  b2z (z2b (48 + v mod 10)) = 48 + v mod 10 /\ isDigit (z2b (48 + v mod 10)) = true.
Proof.
  intros Hv. pose proof (Z.mod_pos_bound v 10 ltac:(lia)) as Hm.
  assert (Hb : b2z (z2b (48 + v mod 10)) = 48 + v mod 10) by (apply b2z_z2b; lia).
  split; [assumption|]. unfold isDigit. rewrite Hb.
  apply andb_true_intro. split; apply Z.leb_le; lia.
Qed.

(** The loop of [Itoa] writes the decimal digits of [v] in front of what is
    there. *)
Lemma digitsOf_spec (n : nat) (v : Z) (acc : bytes) :
  0 <= v < 10 ^ Z.of_nat n -> (0 < n)%nat ->
  exists ds, digitsOf n v acc = ds ++ acc /\ ds <> [] /\
             forallb isDigit ds = true /\ digitsValue ds = v.
Proof.
  revert v acc. induction n as [|n IH]; intros v acc Hv Hn; [lia|].
  destruct (digit_byte v ltac:(lia)) as [Hb Hd].
  cbn [digitsOf]. cbv zeta.
  destruct (Z.ltb_spec v 10) as [Hlt|Hge].
  - exists [z2b (48 + v mod 10)]. split; [reflexivity|]. split; [discriminate|].
    split; [simpl; rewrite Hd; reflexivity|].
    unfold digitsValue. simpl. rewrite Hb. rewrite Z.mod_small by lia. lia.
  - assert (Hn' : (0 < n)%nat).
    { destruct n; [|lia]. simpl in Hv. lia. }
    destruct (IH (v / 10) (z2b (48 + v mod 10) :: acc)) as (ds & Heq & Hne & Hall & Hval).
    + split; [apply Z.div_pos; lia|].
      apply Z.div_lt_upper_bound; [lia|].
      replace (Z.of_nat (S n)) with (Z.succ (Z.of_nat n)) in Hv by lia.
      rewrite Z.pow_succ_r in Hv by lia. lia.
    + assumption.
    + exists (ds ++ [z2b (48 + v mod 10)]).
      split; [rewrite Heq, <- app_assoc; reflexivity|].
      split; [destruct ds; discriminate|].
      split.
      * rewrite forallb_app, Hall. simpl. rewrite Hd. reflexivity.
      * rewrite digitsValue_snoc, Hval, Hb.
        pose proof (Z.div_mod v 10 ltac:(lia)). lia.
Qed.

Lemma Itoa_fuel (v : Z) : 0 <= v -> v < 10 ^ Z.of_nat (S (Z.to_nat (Z.log2 v))).
Proof.
  intros Hv. destruct (Z.eq_dec v 0) as [->|Hne]; [reflexivity|].
  pose proof (Z.log2_nonneg v) as Hl.
  pose proof (Z.log2_spec v ltac:(lia)) as [_ Hup].
  replace (Z.of_nat (S (Z.to_nat (Z.log2 v)))) with (Z.succ (Z.log2 v)) by lia.
  eapply Z.lt_le_trans; [exact Hup|].
  apply Z.pow_le_mono_l. lia.
Qed.

(** [strconv.ParseInt] reads back what [strconv.Itoa] writes. *)
Lemma parseInt_Itoa (v : Z) :
  - 2 ^ 63 <= v < 2 ^ 63 -> parseInt (Itoa v) = Some v.
Proof.
  intros Hr. unfold Itoa.
  destruct (Z.ltb_spec v 0) as [Hneg|Hpos].
  - destruct (digitsOf_spec (S (Z.to_nat (Z.log2 (- v)))) (- v) [])
      as (ds & Heq & Hne & Hall & Hval); [split; [lia | apply Itoa_fuel; lia] | lia |].
    rewrite Heq, app_nil_r. unfold parseInt.
    change (b2z x2d =? 45) with true. cbv iota.
    rewrite Hall. rewrite bool_decide_eq_false_2 by assumption. simpl.
    rewrite Hval.
    destruct (Z.leb_spec (- 2 ^ 63) (- - v)); [|lia].
    destruct (Z.ltb_spec (- - v) (2 ^ 63)); [|lia].
    simpl. f_equal. lia.
  - destruct (digitsOf_spec (S (Z.to_nat (Z.log2 v))) v [])
      as (ds & Heq & Hne & Hall & Hval); [split; [lia | apply Itoa_fuel; lia] | lia |].
    rewrite Heq, app_nil_r. unfold parseInt.
    destruct ds as [|c ds]; [contradiction|].
    assert (Hc : isDigit c = true) by (simpl in Hall; apply andb_prop in Hall; tauto).
    assert (H45 : (b2z c =? 45) = false).
    { unfold isDigit in Hc. apply andb_prop in Hc as [H1 H2].
      apply Z.leb_le in H1. apply Z.eqb_neq. lia. }
    rewrite H45. rewrite Hall.
    rewrite bool_decide_eq_false_2 by discriminate. simpl.
    rewrite Hval.
    destruct (Z.leb_spec (- 2 ^ 63) v); [|lia].
    destruct (Z.ltb_spec v (2 ^ 63)); [|lia].
    reflexivity.
Qed.

Section ListFacts.
Context {lib : GoLibrary} {decls : Declarations}.

Lemma list_base (scope targetID : bytes) (params : GetMessageListParams)
    (endpoint : bytes) (base : gmap bytes bytes) :
  (if decide (scope = B "private") then
     if decide (targetID = [] /\ ListChatCode params = [])
     then Failure ErrListPrivateTarget
     else Value (B "direct-message/list",
                 setQuery (B "chat_code") (ListChatCode params)
                   (setQuery (B "target_id") targetID ∅))
   else
     if decide (targetID = []) then Failure ErrListChannelTarget
     else Value (B "message/list", <[B "target_id" := targetID]> ∅))
  = Value (endpoint, base) ->
  (endpoint = B "direct-message/list" \/ endpoint = B "message/list") /\
  (targetID <> [] /\ base !! B "target_id" = Some targetID \/
   ListChatCode params <> [] /\ base !! B "chat_code" = Some (ListChatCode params)) /\
  (forall k v, base !! k = Some v -> k = B "target_id" \/ k = B "chat_code").
Proof.
  repeat case_decide; intros [= <- <-].
  - split; [left; reflexivity|]. split.
    + destruct (decide (ListChatCode params = [])) as [Hc|Hc].
      * left. assert (Ht : targetID <> []) by tauto.
        split; [assumption|].
        rewrite lookup_setQuery_ne by keys_differ. apply lookup_setQuery_eq. assumption.
      * right. split; [assumption|]. apply lookup_setQuery_eq. assumption.
    + intros k v. unfold setQuery. repeat case_decide;
        rewrite ?lookup_insert_Some, ?lookup_empty; intros Hl;
        repeat match goal with
               | H : _ /\ _ |- _ => destruct H
               | H : _ \/ _ |- _ => destruct H
               end; subst; auto; discriminate.
  - split; [right; reflexivity|]. split.
    + left. split; [assumption|]. apply lookup_insert_eq.
    + intros k v. rewrite lookup_insert_Some, lookup_empty. intros [[<- _]|[_ [=]]].
      left. reflexivity.
Qed.

Lemma base_lacks (base : gmap bytes bytes) (k : bytes) :
  (forall k' v, base !! k' = Some v -> k' = B "target_id" \/ k' = B "chat_code") ->
  k <> B "target_id" -> k <> B "chat_code" -> base !! k = None.
Proof.
  intros Hkeys H1 H2. destruct (base !! k) as [v|] eqn:Hl; [|reflexivity].
  destruct (Hkeys _ _ Hl); contradiction.
Qed.

(** X16.  [GetMessageList] either refuses its arguments, whatever the
    client, or makes one call to one of the two list endpoints, naming a
    target; the query holds [page_size] exactly when the page size is
    from 1 to 100 (a larger one is dropped, not cut down), and [pin]
    exactly when the pin flag is above zero, each as the decimal text that
    reads back as the number. *)
Theorem GetMessageList_query_bounds (targetID : bytes) (params : GetMessageListParams) :
  (exists e, forall client : Client, GetMessageList targetID params = Failure e) \/
  (exists endpoint query,
     (endpoint = B "direct-message/list" \/ endpoint = B "message/list") /\
     (targetID <> [] /\ query !! B "target_id" = Some targetID \/
      ListChatCode params <> [] /\ query !! B "chat_code" = Some (ListChatCode params)) /\
     query !! B "page_size" =
       (if (0 <? PageSize params) && (PageSize params <=? 100)
        then Some (Itoa (PageSize params)) else None) /\
     query !! B "pin" =
       (if 0 <? Pin params then Some (Itoa (Pin params)) else None) /\
     (forall lit, query !! B "page_size" = Some lit ->
        parseInt lit = Some (PageSize params) /\ 1 <= PageSize params <= 100) /\
     (forall lit, query !! B "pin" = Some lit -> Pin params < 2 ^ 63 ->
        parseInt lit = Some (Pin params) /\ 0 < Pin params) /\
     forall client : Client,
       GetMessageList targetID params =
         match Get endpoint query with
         | inl e => Failure (ErrClient e)
         | inr data =>
             match Unmarshal_ListMessagesResponse data with
             | None => Failure ErrParseMessageList
             | Some result => Value result
             end
         end).
Proof.
  destruct (normalizeMessageScope (ListType params)) as [scope|e] eqn:Hscope.
  2:{ left. exists e. intros client. unfold GetMessageList. rewrite Hscope. reflexivity. }
  match type of Hscope with _ = Value ?s =>
    remember (if decide (s = B "private") then
                if decide (targetID = [] /\ ListChatCode params = [])
                then Failure ErrListPrivateTarget
                else Value (B "direct-message/list",
                            setQuery (B "chat_code") (ListChatCode params)
                              (setQuery (B "target_id") targetID ∅))
              else
                if decide (targetID = []) then Failure ErrListChannelTarget
                else Value (B "message/list", <[B "target_id" := targetID]> ∅))
      as target eqn:Htarget end.
  destruct target as [[endpoint base]|e].
  2:{ left. exists e. intros client. unfold GetMessageList.
      rewrite Hscope. simpl. rewrite <- Htarget. reflexivity. }
  symmetry in Htarget.
  destruct (list_base _ _ _ _ _ Htarget) as (Hep & Htgt & Hkeys).
  right. exists endpoint.
  set (q1 := setQuery (B "msg_id") (MsgID params) base).
  set (q2 := if 0 <? Pin params then <[B "pin" := Itoa (Pin params)]> q1 else q1).
  set (q3 := setQuery (B "flag") (Flag params) q2).
  set (q4 := if (0 <? PageSize params) && (PageSize params <=? 100)
             then <[B "page_size" := Itoa (PageSize params)]> q3 else q3).
  exists q4.
  assert (Hq2 : forall k, k <> B "pin" -> k <> B "msg_id" -> q2 !! k = base !! k).
  { intros k H1 H2. unfold q2, q1. destruct (0 <? Pin params).
    - rewrite lookup_insert_ne by (intros Heq; symmetry in Heq; contradiction).
      apply lookup_setQuery_ne. intros Heq; symmetry in Heq; contradiction.
    - apply lookup_setQuery_ne. intros Heq; symmetry in Heq; contradiction. }
  assert (Hq4 : forall k, k <> B "page_size" -> k <> B "flag" -> q4 !! k = q2 !! k).
  { intros k H1 H2. unfold q4, q3. destruct (_ && _).
    - rewrite lookup_insert_ne by (intros Heq; symmetry in Heq; contradiction).
      apply lookup_setQuery_ne. intros Heq; symmetry in Heq; contradiction.
    - apply lookup_setQuery_ne. intros Heq; symmetry in Heq; contradiction. }
  assert (Hsize : q4 !! B "page_size" =
            (if (0 <? PageSize params) && (PageSize params <=? 100)
             then Some (Itoa (PageSize params)) else None)).
  { unfold q4. destruct (_ && _).
    - apply lookup_insert_eq.
    - unfold q3. rewrite lookup_setQuery_ne by keys_differ.
      rewrite Hq2 by keys_differ. apply base_lacks; [assumption| |]; keys_differ. }
  assert (Hpin : q4 !! B "pin" =
            (if 0 <? Pin params then Some (Itoa (Pin params)) else None)).
  { rewrite Hq4 by keys_differ. unfold q2. destruct (0 <? Pin params).
    - apply lookup_insert_eq.
    - unfold q1. rewrite lookup_setQuery_ne by keys_differ.
      apply base_lacks; [assumption| |]; keys_differ. }
  split; [assumption|]. split.
  { destruct Htgt as [[Ht Hl]|[Ht Hl]]; [left|right]; (split; [assumption|]);
      rewrite Hq4 by keys_differ; rewrite Hq2 by keys_differ; assumption. }
  split; [assumption|]. split; [assumption|]. split.
  { intros lit. rewrite Hsize.
    destruct (Z.ltb_spec 0 (PageSize params)); [|discriminate].
    destruct (Z.leb_spec (PageSize params) 100); [|discriminate].
    simpl. intros [= <-]. split; [apply parseInt_Itoa; lia | lia]. }
  split.
  { intros lit. rewrite Hpin.
    destruct (Z.ltb_spec 0 (Pin params)); [|discriminate].
    intros [= <-] Hmax. split; [apply parseInt_Itoa; lia | lia]. }
  intros client. unfold GetMessageList. rewrite Hscope. simpl. rewrite Htarget.
  reflexivity.
Qed.
End ListFacts.

(** ** Concrete runs of the message service *)

Example SendMessage_dmParams :
  @SendMessage asciiLibrary sampleDeclarations sampleClient dmParams
  = Value (B "m1", 1, B "hi", 1700000000000).
Proof. vm_compute. reflexivity. Qed.

(** Witness of X14: the scope spelled [ DM ] and the scope [private]. *)
Lemma scope_spelling_scenario :
  @SendMessage asciiLibrary sampleDeclarations sampleClient dmParams
  = @SendMessage asciiLibrary sampleDeclarations sampleClient
      (withScope dmParams (B "private")).
Proof.
  apply (@SendMessage_depends_on_scope_only asciiLibrary sampleDeclarations
           sampleClient dmParams (B "private") (B "private")); reflexivity.
Defined.

(** Witness of X15: with the card type 10. *)
Lemma card_scenario :
  (exists e, forall client : Client,
     @SendCardMessage asciiLibrary sampleDeclarations client cardParams = Failure e) \/
  (exists endpoint req,
     req !! B "type" = Some (PInt 10) /\
     req !! B "content" = Some (PStr (jsonText "[{'type':'card'}]")) /\
     (exists v vs, parseJSON (jsonText "[{'type':'card'}]") = Some (JArray (v :: vs))) /\
     forall client : Client,
       @SendCardMessage asciiLibrary sampleDeclarations client cardParams =
         match Post endpoint req with
         | inl e => Failure (ErrClient e)
         | inr data =>
             match @Unmarshal_created asciiLibrary data with
             | None => Failure ErrParseMessage
             | Some c =>
                 Value
                   (CreatedMsgID c, 10, jsonText "[{'type':'card'}]", MsgTimestamp c)
             end
         end).
Proof.
  apply (@SendCardMessage_sends_cards_only asciiLibrary sampleDeclarations cardParams).
  reflexivity.
Defined.

Example SendCardMessage_cardParams :
  @SendCardMessage asciiLibrary sampleDeclarations sampleClient cardParams
  = Value (B "m1", 10, jsonText "[{'type':'card'}]", 1700000000000).
Proof. vm_compute. reflexivity. Qed.
End MessageFacts.

(* ================================================================== *)
(** * What an answer tells about the request *)

Section AnswerFacts.
Context {lib : GoLibrary}.

(** X17.  With a verify token configured, an event-kind envelope is
    answered 200 only if its metadata parsed and carried that token:
    no other event-kind request gets past the check, challenge or not. *)
Theorem accepted_event_carried_the_token
    (wh : WebhookHandler) (r : Request) (msg : WebhookMessage)
    (resp : Response) (acts : list action) :
  delivers wh r msg ->
  S_ msg = SignalEvent ->
  verifyToken wh <> [] ->
  HandleRequest wh r = Replied resp acts ->
  StatusCode resp = 200 ->
  exists meta,
    Unmarshal_meta (D msg) = Some meta /\ VerifyToken meta = verifyToken wh.
Proof.
  intros Hd Hs Hcfg Hresp Hok.
  rewrite (HandleRequest_delivers _ _ _ Hd) in Hresp.
  destruct (Unmarshal_meta (D msg)) as [meta|] eqn:Hmeta.
  - exists meta. split; [reflexivity|].
    rewrite (handleMessage_event _ _ _ Hs Hmeta) in Hresp.
    destruct (decide (VerifyToken meta = verifyToken wh)) as [|Hne]; [assumption|].
    rewrite decide_True in Hresp by tauto.
    injection Hresp as <- _. discriminate Hok.
  - unfold handleMessage in Hresp.
    rewrite decide_False in Hresp by (rewrite Hs; tauto).
    rewrite Hmeta in Hresp. injection Hresp as <- _. discriminate Hok.
Qed.

(** X18.  A challenge answer is given to challenges only: when the
    response body is the encoding of a value, the request delivered an
    event-kind envelope whose metadata names the channel type
    [WEBHOOK_CHALLENGE] in some casing, the value is the object with the
    one member [challenge] holding the request's challenge, which is not
    empty, the token check was passed, and nothing was dispatched. *)
Theorem challenge_answer_only_for_challenges
    (wh : WebhookHandler) (r : Request) (resp : Response) (acts : list action)
    (v : json) :
  HandleRequest wh r = Replied resp acts ->
  Payload resp = Encoded v ->
  exists msg meta,
    delivers wh r msg /\
    S_ msg = SignalEvent /\
    Unmarshal_meta (D msg) = Some meta /\
    EqualFold (ChannelType meta) (B "WEBHOOK_CHALLENGE") = true /\
    Challenge meta <> [] /\
    (verifyToken wh = [] \/ VerifyToken meta = verifyToken wh) /\
    v = JObject [(B "challenge", JString (Challenge meta))] /\
    StatusCode resp = 200 /\
    acts = [].
Proof.
  intros Hresp Hpay.
  destruct (HandleRequest_paths wh r) as [[_ Hp] | [[_ Hp] | [_ (msg & Hd & Hp)]]];
    rewrite Hp in Hresp.
  - injection Hresp as <- _. discriminate Hpay.
  - injection Hresp as <- _. discriminate Hpay.
  - exists msg. unfold handleMessage in Hresp.
    destruct (decide (S_ msg <> SignalEvent)) as [Hs|Hs].
    { simpl in Hresp. injection Hresp as <- _. discriminate Hpay. }
    destruct (Unmarshal_meta (D msg)) as [meta|] eqn:Hmeta.
    2:{ injection Hresp as <- _. discriminate Hpay. }
    exists meta.
    destruct (decide (verifyToken wh <> [] /\ VerifyToken meta <> verifyToken wh))
      as [Htok|Htok].
    { injection Hresp as <- _. discriminate Hpay. }
    destruct (EqualFold (ChannelType meta) (B "WEBHOOK_CHALLENGE")) eqn:Hfold.
    + destruct (decide (Challenge meta = [])) as [Hc|Hc].
      * rewrite bool_decide_eq_true_2 in Hresp by assumption. simpl in Hresp.
        unfold handleEvent in Hresp.
        destruct (Unmarshal_Event (D msg)); simpl in Hresp;
          injection Hresp as <- _; discriminate Hpay.
      * rewrite bool_decide_eq_false_2 in Hresp by assumption. simpl in Hresp.
        rewrite decide_True in Hresp by assumption.
        injection Hresp as <- <-. simpl in Hpay. injection Hpay as <-.
        assert (Hs' : S_ msg = SignalEvent)
          by (destruct (decide (S_ msg = SignalEvent)); [assumption | tauto]).
        assert (Htok' : verifyToken wh = [] \/ VerifyToken meta = verifyToken wh).
        { destruct (decide (verifyToken wh = [])); [left; assumption|].
          right. destruct (decide (VerifyToken meta = verifyToken wh));
            [assumption | tauto]. }
        split; [assumption|]. split; [assumption|]. split; [reflexivity|].
        split; [reflexivity|]. split; [assumption|]. split; [assumption|].
        split; [reflexivity|]. split; reflexivity.
    + simpl in Hresp. unfold handleEvent in Hresp.
      destruct (Unmarshal_Event (D msg)); simpl in Hresp;
        injection Hresp as <- _; discriminate Hpay.
Qed.
End AnswerFacts.

(** Witness of X17: the event with token [t1], accepted by a handler
    configured with [t1]. *)
Lemma accepted_event_scenario :
  exists meta,
    @Unmarshal_meta asciiLibrary (D eventMessage) = Some meta /\
    VerifyToken meta = B "t1".
Proof.
  refine (@accepted_event_carried_the_token asciiLibrary
            {| encryptKey := []; verifyToken := B "t1";
               eventHandlers := eventHandlers twoHandlers |}
            (post eventBody) eventMessage
            (ok200 (Written (jsonText "{'code':0}")))
            ([RLock; ReadHandlers 5; RUnlock]
               ++ map (fun h => Go h event5) [failingHandler; quietHandler])
            _ _ _ _ _).
  - apply eventBody_delivered.
  - reflexivity.
  - discriminate.
  - vm_compute. reflexivity.
  - reflexivity.
Defined.

(** Witness of X18: the spec's scenario. *)
Lemma challenge_answer_scenario :
  exists msg meta,
    @delivers asciiLibrary (NewWebhookHandler [] []) (post challengeBody) msg /\
    S_ msg = SignalEvent /\
    @Unmarshal_meta asciiLibrary (D msg) = Some meta /\
    @EqualFold asciiLibrary (ChannelType meta) (B "WEBHOOK_CHALLENGE") = true /\
    Challenge meta <> [] /\
    (verifyToken (NewWebhookHandler [] []) = [] \/
     VerifyToken meta = verifyToken (NewWebhookHandler [] [])) /\
    JObject [(B "challenge", JString (B "abc123"))]
      = JObject [(B "challenge", JString (Challenge meta))] /\
    StatusCode (ok200 (Encoded (JObject [(B "challenge", JString (B "abc123"))]))) = 200 /\
    @nil action = [].
Proof.
  refine (@challenge_answer_only_for_challenges asciiLibrary
            (NewWebhookHandler [] []) (post challengeBody)
            (ok200 (Encoded (JObject [(B "challenge", JString (B "abc123"))]))) []
            (JObject [(B "challenge", JString (B "abc123"))]) _ _).
  - reflexivity.
  - reflexivity.
Defined.

(* ================================================================== *)
(** * Pinning *)

Lemma trimASCIISpace_ascii (s : bytes) :
  isASCII s = true ->
  exists pre t,
    trimASCIISpace s = (t, false) /\ s = pre ++ t /\
    forallb asciiSpace pre = true /\ isASCII t = true /\
    (forall c, head t = Some c -> asciiSpace c = false).
Proof.
  induction s as [|c s IH]; intros Ha.
  - exists [], []. repeat split; try reflexivity. intros c [=].
  - pose proof Ha as Hcs.
    unfold isASCII in Ha. cbn [forallb] in Ha. apply andb_prop in Ha as [Hc Hs].
    fold (isASCII s) in Hs.
    cbn [trimASCIISpace].
    apply Z.ltb_lt in Hc. destruct (Z.leb_spec RuneSelf (b2z c)) as [|_]; [lia|].
    destruct (asciiSpace c) eqn:Hsp.
    + destruct (IH Hs) as (pre & t & Ht & Heq & Hpre & Hta & Hhd).
      exists (c :: pre), t. rewrite Ht. repeat split; try assumption.
      * rewrite Heq. reflexivity.
      * cbn [forallb]. rewrite Hsp, Hpre. reflexivity.
    + exists [], (c :: s). repeat split; try reflexivity; try assumption.
      intros c' [= <-]. assumption.
Qed.

Lemma isASCII_rev (s : bytes) : isASCII (rev s) = isASCII s.
Proof.
  unfold isASCII. induction s as [|c s IH]; [reflexivity|].
  simpl. rewrite forallb_app, IH. simpl. rewrite andb_true_r. apply andb_comm.
Qed.

Lemma forallb_rev_bytes (f : byte -> bool) (s : bytes) :
  forallb f (rev s) = forallb f s.
Proof.
  induction s as [|c s IH]; [reflexivity|].
  simpl. rewrite forallb_app, IH. simpl. rewrite andb_true_r. apply andb_comm.
Qed.

(** On ASCII text [TrimSpace] does not leave the ASCII path, and clears
    the text of white space at both ends. *)
Lemma TrimSpace_ascii `{GoLibrary} (s : bytes) :
  isASCII s = true -> trimmedOf s (TrimSpace s).
Proof.
  intros Ha.
  destruct (trimASCIISpace_ascii s Ha) as (pre & t & Ht & Heq & Hpre & Hta & Hhd).
  destruct (trimASCIISpace_ascii (rev t)) as (post & r & Hr & Heqr & Hpost & Hra & Hhdr).
  { rewrite isASCII_rev. assumption. }
  unfold TrimSpace. rewrite Ht, Hr.
  assert (Ht' : t = rev r ++ rev post).
  { rewrite <- (rev_involutive t), Heqr, rev_app_distr. reflexivity. }
  split; [|split].
  - exists pre, (rev post). split; [rewrite Heq, Ht'; reflexivity|].
    split; [assumption|]. rewrite forallb_rev_bytes. assumption.
  - intros c Hc. apply Hhd. rewrite Ht'.
    destruct (rev r) as [|c' l]; [discriminate|]. exact Hc.
  - intros c Hc. apply Hhdr.
    destruct r as [|c' r']; [discriminate|].
    simpl in Hc. rewrite last_snoc in Hc. exact Hc.
Qed.

Lemma TrimSpace_blank `{GoLibrary} (s : bytes) :
  forallb asciiSpace s = true -> TrimSpace s = [].
Proof.
  intros Hb.
  assert (Ht : trimASCIISpace s = ([], false)).
  { induction s as [|c s IH]; [reflexivity|].
    simpl in Hb. apply andb_prop in Hb as [Hc Hs].
    cbn [trimASCIISpace]. rewrite Hc.
    assert (b2z c < 128).
    { unfold asciiSpace in Hc. cbv zeta in Hc.
      repeat (apply orb_prop in Hc as [Hc|Hc]); apply Z.eqb_eq in Hc; lia. }
    unfold RuneSelf. destruct (Z.leb_spec 128 (b2z c)); [lia|]. apply IH. assumption. }
  unfold TrimSpace. rewrite Ht. reflexivity.
Qed.

Section PinFacts.
Import MessageService.
Context {lib : GoLibrary}.

(** X19.  [PinMessage] and [UnpinMessage] look at the first target only;
    they refuse, whatever the client, a call that names no target or a
    first target of ASCII white space alone; and for an ASCII first target
    that has more than white space they make one call, to their own
    endpoint, whose [target_id] is that target cleared of white space at
    both ends, and return the client's error or none. *)
Theorem pin_targets_are_trimmed (msgID t : bytes) (rest : list bytes) :
  msgID <> [] ->
  (forall client : Client,
     PinMessage msgID (t :: rest) = PinMessage msgID [t] /\
     UnpinMessage msgID (t :: rest) = UnpinMessage msgID [t] /\
     PinMessage msgID [] = Some ErrPinTarget /\
     UnpinMessage msgID [] = Some ErrUnpinTarget) /\
  (forallb asciiSpace t = true ->
   forall client : Client,
     PinMessage msgID (t :: rest) = Some ErrPinTarget /\
     UnpinMessage msgID (t :: rest) = Some ErrUnpinTarget) /\
  (isASCII t = true -> forallb asciiSpace t = false ->
   exists target,
     target <> [] /\ trimmedOf t target /\
     forall client : Client,
       PinMessage msgID (t :: rest) =
         postOnly (B "message/pin")
           (<[B "target_id" := PStr target]> (<[B "msg_id" := PStr msgID]> ∅)) /\
       UnpinMessage msgID (t :: rest) =
         postOnly (B "message/unpin")
           (<[B "target_id" := PStr target]> (<[B "msg_id" := PStr msgID]> ∅))).
Proof.
  intros Hid. split; [|split].
  - intros client. unfold PinMessage, UnpinMessage.
    repeat split; repeat (case_decide; [contradiction|]); reflexivity.
  - intros Hblank client. unfold PinMessage, UnpinMessage.
    rewrite (TrimSpace_blank _ Hblank).
    split; repeat (case_decide; [contradiction|]); case_decide; congruence.
  - intros Ha Hnb. exists (TrimSpace t).
    pose proof (TrimSpace_ascii t Ha) as Htr.
    assert (Hne : TrimSpace t <> []).
    { intros Hempty. destruct Htr as [(pre & post & Heq & Hpre & Hpost) _].
      rewrite Hempty in Heq. simpl in Heq. rewrite Heq, forallb_app, Hpre, Hpost in Hnb.
      discriminate. }
    split; [assumption|]. split; [assumption|].
    intros client. unfold PinMessage, UnpinMessage.
    split; repeat (case_decide; [contradiction|]); reflexivity.
Qed.
End PinFacts.

(** Witness of X19: a target with blanks around it. *)
Lemma pin_scenario :
  @MessageService.PinMessage asciiLibrary sampleClient (B "m1") [B "  c1 "; B "c2"] = None /\
  exists target,
    target <> [] /\ trimmedOf (B "  c1 ") target /\
    forall client : MessageService.Client,
      @MessageService.PinMessage asciiLibrary client (B "m1") [B "  c1 "; B "c2"] =
        MessageService.postOnly (B "message/pin")
          (<[B "target_id" := MessageService.PStr target]>
             (<[B "msg_id" := MessageService.PStr (B "m1")]> ∅)) /\
      @MessageService.UnpinMessage asciiLibrary client (B "m1") [B "  c1 "; B "c2"] =
        MessageService.postOnly (B "message/unpin")
          (<[B "target_id" := MessageService.PStr target]>
             (<[B "msg_id" := MessageService.PStr (B "m1")]> ∅)).
Proof.
  split; [reflexivity|].
  refine (proj2 (proj2 (@pin_targets_are_trimmed asciiLibrary (B "m1") (B "  c1 ")
                          [B "c2"] _)) _ _).
  - discriminate.
  - reflexivity.
  - reflexivity.
Defined.
